(** * affine-mcp-server: the append_block engine and its transport

    A shallow embedding of the document tools ([registerDocTools]: the block
    schema and validator, the tree navigator, the placement resolver, the
    block factory and the document handlers) and of [src/ws.ts] (the
    acknowledgement based transport), followed by the properties the
    specification states about them.  Line numbers are those of the
    document tools' source unless [ws.ts] is named.

    Conventions of the embedding.
    - A JavaScript string is a [string]; [trim] and [toLowerCase] act on the
      ASCII range.
    - A JavaScript number is a [Z]: the tool schema declares every numeric
      field but [size] an integer, and [size] is taken on its integer
      values; so [Number.isInteger] and [Number.isFinite] hold of every
      value present and [Math.floor] is the identity.
    - An optional field ([x?: T]) is an [option]; [??] is [JS.orElse].
    - A Yjs container is a value of [YVal]: [Y.Map] and plain objects are
      association lists in insertion order (iteration order is observable
      through [findBlockIdByFlavour]), [Y.Array] and plain arrays are lists.
    - [Math.random], [Date.now] and the server are oracles carried by the
      state; a thrown [Error] is the [Err] result. *)

From Stdlib Require Import String Ascii List ZArith Bool Lia DecimalString.
Import ListNotations.
Local Open Scope string_scope.
Local Open Scope Z_scope.

(* ================================================================== *)
(** ** JavaScript primitives used by the sources *)
(* ================================================================== *)

Module JS.

(** White space removed by [String.prototype.trim] (ASCII part). *)
Definition isSpace (c : ascii) : bool :=
  let n := nat_of_ascii c in
  ((9 <=? n) && (n <=? 13))%nat || (n =? 32)%nat.

Fixpoint trimStart (s : string) : string :=
  match s with
  | EmptyString => EmptyString
  | String c r => if isSpace c then trimStart r else s
  end.

Fixpoint trimEnd (s : string) : string :=
  match s with
  | EmptyString => EmptyString
  | String c r =>
      match trimEnd r with
      | EmptyString => if isSpace c then EmptyString else String c EmptyString
      | r' => String c r'
      end
  end.

Definition trim (s : string) : string := trimEnd (trimStart s).

Definition lowerChar (c : ascii) : ascii :=
  let n := nat_of_ascii c in
  if ((65 <=? n) && (n <=? 90))%nat then ascii_of_nat (n + 32) else c.

Fixpoint toLowerCase (s : string) : string :=
  match s with
  | EmptyString => EmptyString
  | String c r => String (lowerChar c) (toLowerCase r)
  end.

(** Truthiness of a string: the empty string is falsy. *)
Definition truthy (s : string) : bool := negb (s =? "")%string.

(** [a ?? b] on an optional value. *)
Definition orElse {A : Type} (o : option A) (d : A) : A :=
  match o with Some a => a | None => d end.

(** [s || d] on strings. *)
Definition orStr (s d : string) : string := if truthy s then s else d.

(** [x !== undefined]. *)
Definition defined {A : Type} (o : option A) : bool :=
  match o with Some _ => true | None => false end.

(** [o?.trim()] as a condition: present and not blank. *)
Definition trimmedTruthy (o : option string) : bool :=
  match o with Some s => truthy (trim s) | None => false end.

(** [Boolean(b)] for an optional boolean. *)
Definition toBoolean (o : option bool) : bool := orElse o false.

Fixpoint drop (n : nat) (s : string) : string :=
  match n, s with
  | O, _ => s
  | S _, EmptyString => EmptyString
  | S k, String _ r => drop k r
  end.

(** [s.replace(pat, rep)] with a string pattern: first occurrence only. *)
Fixpoint replaceFirst (pat rep s : string) : string :=
  if prefix pat s then rep ++ drop (String.length pat) s
  else match s with
       | EmptyString => EmptyString
       | String c r => String c (replaceFirst pat rep r)
       end.

Fixpoint endsWith (suf s : string) : bool :=
  (s =? suf)%string ||
  match s with
  | EmptyString => false
  | String _ r => endsWith suf r
  end.

Definition dropEnd (n : nat) (s : string) : string :=
  substring 0 (String.length s - n) s.

(** [String(i)] for an integer. *)
Definition ofZ (z : Z) : string := NilZero.string_of_int (Z.to_int z).

(** [String(i).padStart(4, "0")]. *)
Definition padStart4 (s : string) : string :=
  substring 0 (4 - String.length s) "0000" ++ s.

(** [Array.prototype.join(sep)]. *)
Fixpoint join (sep : string) (l : list string) : string :=
  match l with
  | [] => ""
  | [x] => x
  | x :: r => x ++ sep ++ join sep r
  end.

Definition includes (x : string) (l : list string) : bool :=
  existsb (String.eqb x) l.

End JS.

(* ================================================================== *)
(** ** Yjs containers and the values they hold *)
(* ================================================================== *)

#[warnings="-register-all"]
Inductive YVal : Type :=
| VUndef                                      (* undefined *)
| VNull                                       (* null *)
| VBool (b : bool)
| VNum (z : Z)
| VStr (s : string)
| VText (s : string)                          (* Y.Text *)
| VYArr (items : list YVal)                   (* Y.Array *)
| VYMap (entries : list (string * YVal))      (* Y.Map *)
| VJsArr (items : list YVal)                  (* plain array *)
| VObj (fields : list (string * YVal)).       (* plain object *)

Module Y.

Definition Entries := list (string * YVal).

Fixpoint lookup (k : string) (m : Entries) : option YVal :=
  match m with
  | [] => None
  | (k', v) :: r => if (k' =? k)%string then Some v else lookup k r
  end.

(** [map.get(k)]: [undefined] when the key is absent. *)
Definition get (m : Entries) (k : string) : YVal :=
  match lookup k m with Some v => v | None => VUndef end.

(** [map.set(k, v)]: an existing key keeps its place, a new one goes last. *)
Fixpoint set (m : Entries) (k : string) (v : YVal) : Entries :=
  match m with
  | [] => [(k, v)]
  | (k', v') :: r =>
      if (k' =? k)%string then (k, v) :: r else (k', v') :: set r k v
  end.


(** [array.push([x])]. *)
Definition push (a : list YVal) (x : YVal) : list YVal := a ++ [x].

(** [array.insert(i, [x])] for [0 <= i <= array.length]. *)
Definition insert (a : list YVal) (i : nat) (x : YVal) : list YVal :=
  firstn i a ++ x :: skipn i a.

(** [array.delete(i, 1)]. *)
Definition delete (a : list YVal) (i : nat) : list YVal :=
  firstn i a ++ skipn (S i) a.

End Y.

(** A document's [blocks] map: block id to block. *)
Definition Blocks := Y.Entries.

(* ================================================================== *)
(** ** Errors and results *)
(* ================================================================== *)

(** The canonical block types ([APPEND_BLOCK_CANONICAL_TYPE_VALUES]). *)
Inductive BlockType : Type :=
| Paragraph | Heading | Quote | ListT | Code | Divider | Callout | Latex
| Table | Bookmark | Image | Attachment
| EmbedYoutube | EmbedGithub | EmbedFigma | EmbedLoom | EmbedHtml
| EmbedLinkedDoc | EmbedSyncedDoc | EmbedIframe
| Database | DataView | SurfaceRef | Frame | EdgelessText | Note.

(** The keys of [APPEND_BLOCK_LEGACY_ALIAS_MAP]. *)
Inductive LegacyType : Type :=
| heading1 | heading2 | heading3 | bulleted_list | numbered_list | todo.

(** One constructor per [throw] of the sources, in source order, with the
    values the message interpolates. *)
Inductive Error : Type :=
(* normalizeBlockTypeInput *)
| EUnsupportedType (typeInput : string)
(* normalizePlacement *)
| EAfterBeforeExclusive
| EIndexNotNatural
| EIndexWithReference
(* validateNormalizedAppendBlockInput *)
| EHeadingLevel
| ELevelOnlyHeading
| EInvalidListStyle (style : string)
| ECheckedNeedsTodo
| EStyleOnlyList
| ECheckedOnlyList
| ELanguageOnlyCode
| ECaptionNotValid
| ELanguageTooLong
| EDividerText
| EUrlRequired (t : BlockType)
| EInvalidUrl (t : BlockType) (url : string)
| EInvalidBookmarkStyle (style : string)
| EBookmarkStyleOnlyBookmark
| EUrlNotValid
| ESourceIdRequired (t : BlockType)
| EAttachmentNameMime
| ESourceIdOnlyMedia
| EMediaFieldsOnly
| ELatexRequired
| ELatexOnlyLatex
| EPageIdRequired (t : BlockType)
| EPageIdOnlyDocEmbed
| EEmbedHtmlPayload
| EHtmlDesignOnly
| EIframeUrlEmpty
| EIframeUrlOnly
| EReferenceRequired
| ERefFlavourRequired
| EReferenceOnlySurfaceRef
| EWidthRange (t : BlockType)
| EHeightRange (t : BlockType)
| EWidthHeightOnly
| EBackgroundOnly
| ERowsRange
| EColumnsRange
| ERowsColumnsOnlyTable
(* ensureNoteBlock, ensureSurfaceBlock, resolveInsertContext *)
| ENoPageForContent
| ENoPageForSurface
| ENoPageForNote
| EAfterNotFound (ref : string)
| EBeforeNotFound (ref : string)
| ENoParent (ref : string)
| EParentNotFound (parent : string)
| ECannotAppendUnderPage (t : BlockType)
| ECannotAppendUnderSurface (t : BlockType)
| ENoteNeedsPage
| ECanvasNeedsSurface (t : BlockType)
| ENotAChild (ref parent : string)
| EIndexOutOfRange (requested max : Z)
(* handlers *)
| EWorkspaceRequired
(* ws.ts *)
| EConnectTimeout
| EConnectError
| EJoinTimeout
| EJoinFailed (message : string)
| ELoadTimeout
| ELoadFailed (message : string)
| EPushTimeout
| EPushFailed (message : string)
(* a TypeError of the runtime: a method called on something that has none *)
| ETypeError.

Inductive Res (A : Type) : Type :=
| Ok (a : A)
| Err (e : Error).
Arguments Ok {A} a.
Arguments Err {A} e.

Definition isOk {A : Type} (r : Res A) : bool :=
  match r with Ok _ => true | Err _ => false end.

Definition rbind {A B : Type} (r : Res A) (k : A -> Res B) : Res B :=
  match r with Ok a => k a | Err e => Err e end.

(** [if (c) throw e]. *)
Definition throwIf (c : bool) (e : Error) : Res unit :=
  if c then Err e else Ok tt.

Declare Scope res_scope.
Delimit Scope res_scope with res.
Notation "x '<-' c ';;' k" := (rbind c (fun x => k))
  (at level 100, c at next level, right associativity) : res_scope.
Notation "c ';;' k" := (rbind c (fun _ => k))
  (at level 100, right associativity) : res_scope.

(** Stateful code that may throw: the state survives the throw. *)
Definition M (S A : Type) : Type := S -> Res A * S.

Definition ret {S A : Type} (a : A) : M S A := fun s => (Ok a, s).
Definition throw {S A : Type} (e : Error) : M S A := fun s => (Err e, s).
Definition bind {S A B : Type} (m : M S A) (k : A -> M S B) : M S B :=
  fun s => match m s with
           | (Ok a, s') => k a s'
           | (Err e, s') => (Err e, s')
           end.
Definition getS {S : Type} : M S S := fun s => (Ok s, s).
Definition putS {S : Type} (s : S) : M S unit := fun _ => (Ok tt, s).
Definition liftRes {S A : Type} (r : Res A) : M S A := fun s => (r, s).

(** [try { body } finally { fin }] where [fin] does not throw. *)
Definition tryFinally {S A : Type} (body : M S A) (fin : S -> S) : M S A :=
  fun s => let '(r, s') := body s in (r, fin s').

Declare Scope m_scope.
Delimit Scope m_scope with m.
Notation "x '<-' c ';;' k" := (bind c (fun x => k))
  (at level 100, c at next level, right associativity) : m_scope.
Notation "c ';;' k" := (bind c (fun _ => k))
  (at level 100, right associativity) : m_scope.

(* ================================================================== *)
(** ** Block schema: request types (lines 10-136) *)
(* ================================================================== *)

Scheme Equality for BlockType.

Definition APPEND_BLOCK_CANONICAL_TYPE_VALUES : list BlockType :=
  [ Paragraph; Heading; Quote; ListT; Code; Divider; Callout; Latex; Table;
    Bookmark; Image; Attachment; EmbedYoutube; EmbedGithub; EmbedFigma;
    EmbedLoom; EmbedHtml; EmbedLinkedDoc; EmbedSyncedDoc; EmbedIframe;
    Database; DataView; SurfaceRef; Frame; EdgelessText; Note ].

(** The string each canonical type is written as. *)
Definition typeName (t : BlockType) : string :=
  match t with
  | Paragraph => "paragraph" | Heading => "heading" | Quote => "quote"
  | ListT => "list" | Code => "code" | Divider => "divider"
  | Callout => "callout" | Latex => "latex" | Table => "table"
  | Bookmark => "bookmark" | Image => "image" | Attachment => "attachment"
  | EmbedYoutube => "embed_youtube" | EmbedGithub => "embed_github"
  | EmbedFigma => "embed_figma" | EmbedLoom => "embed_loom"
  | EmbedHtml => "embed_html" | EmbedLinkedDoc => "embed_linked_doc"
  | EmbedSyncedDoc => "embed_synced_doc" | EmbedIframe => "embed_iframe"
  | Database => "database" | DataView => "data_view"
  | SurfaceRef => "surface_ref" | Frame => "frame"
  | EdgelessText => "edgeless_text" | Note => "note"
  end.

Definition legacyName (l : LegacyType) : string :=
  match l with
  | heading1 => "heading1" | heading2 => "heading2" | heading3 => "heading3"
  | bulleted_list => "bulleted_list" | numbered_list => "numbered_list"
  | todo => "todo"
  end.

Definition APPEND_BLOCK_LEGACY_ALIAS_MAP : list (LegacyType * BlockType) :=
  [ (heading1, Heading); (heading2, Heading); (heading3, Heading);
    (bulleted_list, ListT); (numbered_list, ListT); (todo, ListT) ].

Definition APPEND_BLOCK_LIST_STYLE_VALUES : list string :=
  [ "bulleted"; "numbered"; "todo" ].

Definition APPEND_BLOCK_BOOKMARK_STYLE_VALUES : list string :=
  [ "vertical"; "horizontal"; "list"; "cube"; "citation" ].

Record AppendPlacement : Type := mkPlacement {
  parentId : option string;
  afterBlockId : option string;
  beforeBlockId : option string;
  index : option Z
}.

(** [AppendBlockInput]: the request as the tool receives it. *)
Module Raw.
Record t : Type := mk {
  workspaceId : option string;
  docId : string;
  type : string;
  text : option string;
  url : option string;
  pageId : option string;
  iframeUrl : option string;
  html : option string;
  design : option string;
  reference : option string;
  refFlavour : option string;
  width : option Z;
  height : option Z;
  background : option string;
  sourceId : option string;
  name : option string;
  mimeType : option string;
  size : option Z;
  embed : option bool;
  rows : option Z;
  columns : option Z;
  latex : option string;
  checked : option bool;
  language : option string;
  caption : option string;
  level : option Z;
  style : option string;
  bookmarkStyle : option string;
  strict : option bool;
  placement : option AppendPlacement
}.
End Raw.

(** [NormalizedAppendBlockInput]. *)
Module Norm.
Record t : Type := mk {
  workspaceId : option string;
  docId : string;
  type : BlockType;
  strict : bool;
  placement : option AppendPlacement;
  text : string;
  url : string;
  pageId : string;
  iframeUrl : string;
  html : string;
  design : string;
  reference : string;
  refFlavour : string;
  width : Z;
  height : Z;
  background : string;
  sourceId : string;
  name : string;
  mimeType : string;
  size : Z;
  embed : bool;
  rows : Z;
  columns : Z;
  latex : string;
  headingLevel : Z;
  listStyle : string;
  bookmarkStyle : string;
  checked : bool;
  language : string;
  caption : option string;
  legacyType : option LegacyType
}.
End Norm.

(** The same request with another [placement], [type], [style], [level],
    [name] or [mimeType]: the variations the properties below quantify
    over. *)
Definition withPlacement (n : Norm.t) (pl : option AppendPlacement) : Norm.t :=
  Norm.mk (Norm.workspaceId n) (Norm.docId n) (Norm.type n) (Norm.strict n) pl
    (Norm.text n) (Norm.url n) (Norm.pageId n) (Norm.iframeUrl n) (Norm.html n)
    (Norm.design n) (Norm.reference n) (Norm.refFlavour n) (Norm.width n)
    (Norm.height n) (Norm.background n) (Norm.sourceId n) (Norm.name n)
    (Norm.mimeType n) (Norm.size n) (Norm.embed n) (Norm.rows n)
    (Norm.columns n) (Norm.latex n) (Norm.headingLevel n) (Norm.listStyle n)
    (Norm.bookmarkStyle n) (Norm.checked n) (Norm.language n) (Norm.caption n)
    (Norm.legacyType n).

Definition withType (n : Norm.t) (t : BlockType) : Norm.t :=
  Norm.mk (Norm.workspaceId n) (Norm.docId n) t (Norm.strict n)
    (Norm.placement n)
    (Norm.text n) (Norm.url n) (Norm.pageId n) (Norm.iframeUrl n) (Norm.html n)
    (Norm.design n) (Norm.reference n) (Norm.refFlavour n) (Norm.width n)
    (Norm.height n) (Norm.background n) (Norm.sourceId n) (Norm.name n)
    (Norm.mimeType n) (Norm.size n) (Norm.embed n) (Norm.rows n)
    (Norm.columns n) (Norm.latex n) (Norm.headingLevel n) (Norm.listStyle n)
    (Norm.bookmarkStyle n) (Norm.checked n) (Norm.language n) (Norm.caption n)
    (Norm.legacyType n).

Definition withStyle (p : Raw.t) (style : option string) : Raw.t :=
  Raw.mk (Raw.workspaceId p) (Raw.docId p) (Raw.type p) (Raw.text p)
    (Raw.url p) (Raw.pageId p) (Raw.iframeUrl p) (Raw.html p) (Raw.design p)
    (Raw.reference p) (Raw.refFlavour p) (Raw.width p) (Raw.height p)
    (Raw.background p) (Raw.sourceId p) (Raw.name p) (Raw.mimeType p)
    (Raw.size p) (Raw.embed p) (Raw.rows p) (Raw.columns p) (Raw.latex p)
    (Raw.checked p) (Raw.language p) (Raw.caption p) (Raw.level p) style
    (Raw.bookmarkStyle p) (Raw.strict p) (Raw.placement p).

Definition withLevel (p : Raw.t) (level : option Z) : Raw.t :=
  Raw.mk (Raw.workspaceId p) (Raw.docId p) (Raw.type p) (Raw.text p)
    (Raw.url p) (Raw.pageId p) (Raw.iframeUrl p) (Raw.html p) (Raw.design p)
    (Raw.reference p) (Raw.refFlavour p) (Raw.width p) (Raw.height p)
    (Raw.background p) (Raw.sourceId p) (Raw.name p) (Raw.mimeType p)
    (Raw.size p) (Raw.embed p) (Raw.rows p) (Raw.columns p) (Raw.latex p)
    (Raw.checked p) (Raw.language p) (Raw.caption p) level (Raw.style p)
    (Raw.bookmarkStyle p) (Raw.strict p) (Raw.placement p).

Definition withNameAndMime (p : Raw.t) (name mimeType : option string) : Raw.t :=
  Raw.mk (Raw.workspaceId p) (Raw.docId p) (Raw.type p) (Raw.text p)
    (Raw.url p) (Raw.pageId p) (Raw.iframeUrl p) (Raw.html p) (Raw.design p)
    (Raw.reference p) (Raw.refFlavour p) (Raw.width p) (Raw.height p)
    (Raw.background p) (Raw.sourceId p) name mimeType
    (Raw.size p) (Raw.embed p) (Raw.rows p) (Raw.columns p) (Raw.latex p)
    (Raw.checked p) (Raw.language p) (Raw.caption p) (Raw.level p)
    (Raw.style p) (Raw.bookmarkStyle p) (Raw.strict p) (Raw.placement p).

(** A request that gives nothing but [docId] and [type]. *)
Definition bareRequest (docId type : string) : Raw.t :=
  Raw.mk None docId type None None None None None None None None None None
    None None None None None None None None None None None None None None
    None None None.

(** What [normalizeBlockTypeInput] returns. *)
Record TypeInfo : Type := mkTypeInfo {
  ti_type : BlockType;
  ti_legacyType : option LegacyType;
  ti_headingLevelFromAlias : option Z;
  ti_listStyleFromAlias : option string
}.

(* ================================================================== *)
(** ** Block schema: normalisation (lines 282-349) *)
(* ================================================================== *)

Definition normalizeBlockTypeInput (typeInput : string) : Res TypeInfo :=
  let key := JS.toLowerCase (JS.trim typeInput) in
  match find (fun t => (typeName t =? key)%string)
             APPEND_BLOCK_CANONICAL_TYPE_VALUES with
  | Some t => Ok (mkTypeInfo t None None None)
  | None =>
      match find (fun p => (legacyName (fst p) =? key)%string)
                 APPEND_BLOCK_LEGACY_ALIAS_MAP with
      | Some (legacyType, type) =>
          let listStyleFromAlias :=
            match legacyType with
            | bulleted_list => Some "bulleted"
            | numbered_list => Some "numbered"
            | todo => Some "todo"
            | _ => None
            end in
          let headingLevelFromAlias :=
            match legacyType with
            | heading1 => Some 1
            | heading2 => Some 2
            | heading3 => Some 3
            | _ => None
            end in
          Ok (mkTypeInfo type (Some legacyType)
                         headingLevelFromAlias listStyleFromAlias)
      | None => Err (EUnsupportedType typeInput)
      end
  end.

(** [if (f?.trim()) normalized.f = f.trim()]. *)
Definition keepTrimmed (o : option string) : option string :=
  match o with
  | Some s => if JS.truthy (JS.trim s) then Some (JS.trim s) else None
  | None => None
  end.

(** Truthiness of an optional string: present and not empty. *)
Definition given (o : option string) : bool :=
  match o with Some s => JS.truthy s | None => false end.

Definition normalizePlacement (placement : option AppendPlacement)
  : Res (option AppendPlacement) :=
  match placement with
  | None => Ok None
  | Some placement =>
      let normalized :=
        {| parentId := keepTrimmed (parentId placement);
           afterBlockId := keepTrimmed (afterBlockId placement);
           beforeBlockId := keepTrimmed (beforeBlockId placement);
           index := index placement |} in
      let hasAfter := given (afterBlockId normalized) in
      let hasBefore := given (beforeBlockId normalized) in
      (throwIf (hasAfter && hasBefore) EAfterBeforeExclusive ;;
       match index normalized with
       | Some i =>
           throwIf (i <? 0) EIndexNotNatural ;;
           throwIf (hasAfter || hasBefore) EIndexWithReference
       | None => Ok tt
       end ;;
       if negb (given (parentId normalized))
          && negb (given (afterBlockId normalized))
          && negb (given (beforeBlockId normalized))
          && negb (JS.defined (index normalized))
       then Ok None
       else Ok (Some normalized))%res
  end.

(* ================================================================== *)
(** ** Block schema: validation (lines 351-580) *)
(* ================================================================== *)

Definition tyEqb : BlockType -> BlockType -> bool := BlockType_beq.

(** [requiresUrl] and [urlAllowedTypes] of the validator. *)
Definition requiresUrl : list BlockType :=
  [ Bookmark; EmbedYoutube; EmbedGithub; EmbedFigma; EmbedLoom; EmbedIframe ].

Definition urlAllowed (t : BlockType) : bool := existsb (tyEqb t) requiresUrl.

(** [raw.text && raw.text.length > 0]. *)
Definition hasText (o : option string) : bool :=
  match o with
  | Some s => JS.truthy s && (0 <? String.length s)%nat
  | None => false
  end.

Section Schema.

(** [new URL(s)] does not throw: the parser is the runtime's. *)
Variable urlParses : string -> bool.

Definition validateNormalizedAppendBlockInput
    (normalized : Norm.t) (raw : Raw.t) : Res unit :=
  let type := Norm.type normalized in
  let strict := Norm.strict normalized in
  let isT := tyEqb type in
  ((if isT Heading then
      throwIf ((Norm.headingLevel normalized <? 1)
               || (Norm.headingLevel normalized >? 6)) EHeadingLevel
    else
      throwIf (JS.defined (Raw.level raw) && strict) ELevelOnlyHeading) ;;

   (if isT ListT then
      throwIf (negb (JS.includes (Norm.listStyle normalized)
                                 APPEND_BLOCK_LIST_STYLE_VALUES))
              (EInvalidListStyle (Norm.listStyle normalized)) ;;
      throwIf (negb (Norm.listStyle normalized =? "todo")%string
               && JS.defined (Raw.checked raw) && strict) ECheckedNeedsTodo
    else
      throwIf (JS.defined (Raw.style raw) && strict) EStyleOnlyList ;;
      throwIf (JS.defined (Raw.checked raw) && strict) ECheckedOnlyList) ;;

   (if negb (isT Code) then
      throwIf (JS.defined (Raw.language raw) && strict) ELanguageOnlyCode ;;
      let allowsCaption :=
        isT Bookmark || isT Image || isT Attachment || isT SurfaceRef
        || prefix "embed_" (typeName type) in
      throwIf (JS.defined (Raw.caption raw) && negb allowsCaption && strict)
              ECaptionNotValid
    else
      throwIf (64 <? String.length (Norm.language normalized))%nat
              ELanguageTooLong) ;;

   throwIf (isT Divider && hasText (Raw.text raw) && strict) EDividerText ;;

   (if urlAllowed type then
      throwIf (negb (JS.truthy (Norm.url normalized))) (EUrlRequired type) ;;
      throwIf (negb (urlParses (Norm.url normalized)))
              (EInvalidUrl type (Norm.url normalized))
    else Ok tt) ;;

   (if isT Bookmark then
      throwIf (negb (JS.includes (Norm.bookmarkStyle normalized)
                                 APPEND_BLOCK_BOOKMARK_STYLE_VALUES))
              (EInvalidBookmarkStyle (Norm.bookmarkStyle normalized))
    else
      throwIf (JS.defined (Raw.bookmarkStyle raw) && strict)
              EBookmarkStyleOnlyBookmark ;;
      throwIf (JS.defined (Raw.url raw) && negb (urlAllowed type) && strict)
              EUrlNotValid) ;;

   (if isT Image || isT Attachment then
      throwIf (negb (JS.truthy (Norm.sourceId normalized)))
              (ESourceIdRequired type) ;;
      throwIf (isT Attachment
               && (negb (JS.truthy (Norm.name normalized))
                   || negb (JS.truthy (Norm.mimeType normalized))))
              EAttachmentNameMime
    else if JS.defined (Raw.sourceId raw) && strict then
      Err ESourceIdOnlyMedia
    else
      throwIf ((JS.defined (Raw.name raw) || JS.defined (Raw.mimeType raw)
                || JS.defined (Raw.embed raw) || JS.defined (Raw.size raw))
               && strict) EMediaFieldsOnly) ;;

   (if isT Latex then
      throwIf (negb (JS.truthy (Norm.latex normalized)) && strict)
              ELatexRequired
    else
      throwIf (JS.defined (Raw.latex raw) && strict) ELatexOnlyLatex) ;;

   (if isT EmbedLinkedDoc || isT EmbedSyncedDoc then
      throwIf (negb (JS.truthy (Norm.pageId normalized)))
              (EPageIdRequired type)
    else
      throwIf (JS.defined (Raw.pageId raw) && strict) EPageIdOnlyDocEmbed) ;;

   (if isT EmbedHtml then
      throwIf (negb (JS.truthy (Norm.html normalized))
               && negb (JS.truthy (Norm.design normalized)) && strict)
              EEmbedHtmlPayload
    else
      throwIf ((JS.defined (Raw.html raw) || JS.defined (Raw.design raw))
               && strict) EHtmlDesignOnly) ;;

   (if isT EmbedIframe then
      throwIf (JS.defined (Raw.iframeUrl raw)
               && negb (JS.truthy (Norm.iframeUrl normalized)) && strict)
              EIframeUrlEmpty
    else
      throwIf (JS.defined (Raw.iframeUrl raw) && strict) EIframeUrlOnly) ;;

   (if isT SurfaceRef then
      throwIf (negb (JS.truthy (Norm.reference normalized)))
              EReferenceRequired ;;
      throwIf (negb (JS.truthy (Norm.refFlavour normalized)))
              ERefFlavourRequired
    else
      throwIf ((JS.defined (Raw.reference raw)
                || JS.defined (Raw.refFlavour raw)) && strict)
              EReferenceOnlySurfaceRef) ;;

   (if isT Frame || isT EdgelessText || isT Note then
      throwIf ((Norm.width normalized <? 1)
               || (Norm.width normalized >? 10000)) (EWidthRange type) ;;
      throwIf ((Norm.height normalized <? 1)
               || (Norm.height normalized >? 10000)) (EHeightRange type)
    else
      throwIf ((JS.defined (Raw.width raw) || JS.defined (Raw.height raw))
               && strict) EWidthHeightOnly) ;;

   throwIf (negb (isT Frame) && negb (isT Note)
            && JS.defined (Raw.background raw) && strict) EBackgroundOnly ;;

   (if isT Table then
      throwIf ((Norm.rows normalized <? 1) || (Norm.rows normalized >? 20))
              ERowsRange ;;
      throwIf ((Norm.columns normalized <? 1)
               || (Norm.columns normalized >? 20)) EColumnsRange
    else
      throwIf ((JS.defined (Raw.rows raw) || JS.defined (Raw.columns raw))
               && strict) ERowsColumnsOnlyTable))%res.

(** [Number.isFinite(x) ? Math.max(lo, Math.floor(x)) : dflt]. *)
Definition flooredAtLeast (lo dflt : Z) (x : option Z) : Z :=
  match x with Some v => Z.max lo v | None => dflt end.

(** [(s ?? dflt).trim() || dflt]. *)
Definition trimmedOr (dflt : string) (s : option string) : string :=
  JS.orStr (JS.trim (JS.orElse s dflt)) dflt.

Definition buildNormalized (parsed : Raw.t) (typeInfo : TypeInfo)
    (placement : option AppendPlacement) : Norm.t :=
  let strict := match Raw.strict parsed with Some false => false | _ => true end in
  let headingLevelCandidate :=
    JS.orElse (Raw.level parsed)
              (JS.orElse (ti_headingLevelFromAlias typeInfo) 1) in
  let headingLevel := Z.max 1 (Z.min 6 headingLevelCandidate) in
  let listStyle :=
    JS.orElse (ti_listStyleFromAlias typeInfo)
              (JS.orElse (Raw.style parsed) "bulleted") in
  let bookmarkStyle := JS.orElse (Raw.bookmarkStyle parsed) "horizontal" in
  let language :=
    JS.orStr (JS.toLowerCase (JS.trim (JS.orElse (Raw.language parsed) "txt")))
             "txt" in
  {| Norm.workspaceId := Raw.workspaceId parsed;
     Norm.docId := Raw.docId parsed;
     Norm.type := ti_type typeInfo;
     Norm.strict := strict;
     Norm.placement := placement;
     Norm.text := JS.orElse (Raw.text parsed) "";
     Norm.url := JS.trim (JS.orElse (Raw.url parsed) "");
     Norm.pageId := JS.trim (JS.orElse (Raw.pageId parsed) "");
     Norm.iframeUrl := JS.trim (JS.orElse (Raw.iframeUrl parsed) "");
     Norm.html := JS.orElse (Raw.html parsed) "";
     Norm.design := JS.orElse (Raw.design parsed) "";
     Norm.reference := JS.trim (JS.orElse (Raw.reference parsed) "");
     Norm.refFlavour := JS.trim (JS.orElse (Raw.refFlavour parsed) "");
     Norm.width := flooredAtLeast 1 100 (Raw.width parsed);
     Norm.height := flooredAtLeast 1 100 (Raw.height parsed);
     Norm.background := trimmedOr "transparent" (Raw.background parsed);
     Norm.sourceId := JS.trim (JS.orElse (Raw.sourceId parsed) "");
     Norm.name := trimmedOr "attachment" (Raw.name parsed);
     Norm.mimeType := trimmedOr "application/octet-stream" (Raw.mimeType parsed);
     Norm.size := flooredAtLeast 0 0 (Raw.size parsed);
     Norm.embed := JS.toBoolean (Raw.embed parsed);
     Norm.rows := JS.orElse (Raw.rows parsed) 3;
     Norm.columns := JS.orElse (Raw.columns parsed) 3;
     Norm.latex := JS.trim (JS.orElse (Raw.latex parsed) "");
     Norm.headingLevel := headingLevel;
     Norm.listStyle := listStyle;
     Norm.bookmarkStyle := bookmarkStyle;
     Norm.checked := JS.toBoolean (Raw.checked parsed);
     Norm.language := language;
     Norm.caption := Raw.caption parsed;
     Norm.legacyType := ti_legacyType typeInfo |}.

Definition normalizeAppendBlockInput (parsed : Raw.t) : Res Norm.t :=
  (typeInfo <- normalizeBlockTypeInput (Raw.type parsed) ;;
   placement <- normalizePlacement (Raw.placement parsed) ;;
   let normalized := buildNormalized parsed typeInfo placement in
   validateNormalizedAppendBlockInput normalized parsed ;;
   Ok normalized)%res.

End Schema.

(* ================================================================== *)
(** ** Identifier generator and tree navigator (lines 138-280, 582-614) *)
(* ================================================================== *)

(** The random source: [draw i] is the value of
    [Math.floor(Math.random() * 64)] at the [i]-th call, [drawn] counts the
    calls made so far. *)
Record Rng : Type := mkRng { draw : nat -> nat; drawn : nat }.

(** The in-memory document an operation works on, with the random source
    its helpers consume. *)
Record DocState : Type := mkDocState { blocks : Blocks; rng : Rng }.

Definition blockVersion (flavour : string) : Z :=
  if (flavour =? "affine:page")%string then 2
  else if (flavour =? "affine:surface")%string then 5
  else 1.

Definition chars : string :=
  "ABCDEFGHIJKLMNOPQRSTUVWXYZabcdefghijklmnopqrstuvwxyz0123456789_-".

Definition charAt (s : string) (i : nat) : string :=
  match String.get i s with
  | Some c => String c EmptyString
  | None => EmptyString
  end.

Fixpoint generateIdLoop (count : nat) (r : Rng) (id : string) : string * Rng :=
  match count with
  | O => (id, r)
  | S k =>
      let c := charAt chars (Nat.modulo (draw r (drawn r)) (String.length chars)) in
      generateIdLoop k (mkRng (draw r) (S (drawn r))) (id ++ c)
  end.

Definition generateId (r : Rng) : string * Rng := generateIdLoop 10 r "".

(** [generateId()] inside a document operation. *)
Definition freshId : M DocState string :=
  fun s => let '(id, r) := generateId (rng s) in (Ok id, mkDocState (blocks s) r).

Definition makeText (content : string) : YVal := VText content.

Definition asText (value : YVal) : string :=
  match value with
  | VText s => s
  | VStr s => s
  | _ => ""
  end.

(** [String(v)]. *)
Fixpoint stringOf (v : YVal) : string :=
  match v with
  | VUndef => "undefined"
  | VNull => "null"
  | VBool true => "true"
  | VBool false => "false"
  | VNum z => JS.ofZ z
  | VStr s => s
  | VText s => s
  | VYArr _ | VYMap _ | VObj _ => "[object Object]"
  | VJsArr items =>
      JS.join "," (map (fun x => match x with
                                 | VUndef | VNull => ""
                                 | _ => stringOf x
                                 end) items)
  end.

(** [v === s] for a string [s]. *)
Definition strIs (v : YVal) (s : string) : bool :=
  match v with VStr s' => (s' =? s)%string | _ => false end.

Definition childIdsFrom (value : YVal) : list string :=
  match value with
  | VYArr items =>
      flat_map (fun entry =>
                  match entry with
                  | VStr s => [s]
                  | VJsArr l =>
                      flat_map (fun child => match child with
                                             | VStr c => [c]
                                             | _ => []
                                             end) l
                  | _ => []
                  end) items
  | _ => []
  end.

Definition setSysFields (block : Y.Entries) (blockId flavour : string) : Y.Entries :=
  Y.set (Y.set (Y.set block "sys:id" (VStr blockId))
               "sys:flavour" (VStr flavour))
        "sys:version" (VNum (blockVersion flavour)).

(** Only a [Y.Map] answers [get("sys:flavour")] with a string. *)
Fixpoint findBlockIdByFlavour (blocks : Blocks) (flavour : string) : option string :=
  match blocks with
  | [] => None
  | (_, VYMap block) :: rest =>
      if strIs (Y.get block "sys:flavour") flavour
      then Some (stringOf (Y.get block "sys:id"))
      else findBlockIdByFlavour rest flavour
  | _ :: rest => findBlockIdByFlavour rest flavour
  end.

Definition findBlockById (blocks : Blocks) (blockId : string) : option Y.Entries :=
  match Y.get blocks blockId with
  | VYMap block => Some block
  | _ => None
  end.

(** [ensureChildrenArray(block)]: the block as it is afterwards, and the
    items of its children array. *)
Definition ensureChildrenArray (block : Y.Entries) : Y.Entries * list YVal :=
  match Y.get block "sys:children" with
  | VYArr items => (block, items)
  | _ => (Y.set block "sys:children" (VYArr []), [])
  end.

Fixpoint indexOfChildFrom (children : list YVal) (blockId : string) (i : Z) : Z :=
  match children with
  | [] => -1
  | entry :: rest =>
      let hit :=
        match entry with
        | VStr s => (s =? blockId)%string
        | VJsArr l => existsb (fun child => strIs child blockId) l
        | _ => false
        end in
      if hit then i else indexOfChildFrom rest blockId (i + 1)
  end.

Definition indexOfChild (children : list YVal) (blockId : string) : Z :=
  indexOfChildFrom children blockId 0.

(** The tail shared by [ensureNoteBlock] and [ensureSurfaceBlock]: store the
    new block, then push its id on the page's children.  [blocks.get(pageId)]
    is read after the store; calling [get] on anything but a [Y.Map] is a
    TypeError. *)
Definition storeUnderPage (pageId newId : string) (newBlock : Y.Entries)
  : M DocState unit :=
  fun s =>
    let blocks1 := Y.set (blocks s) newId (VYMap newBlock) in
    match Y.get blocks1 pageId with
    | VYMap page =>
        let '(page1, pageChildren) := ensureChildrenArray page in
        let page2 := Y.set page1 "sys:children"
                           (VYArr (Y.push pageChildren (VStr newId))) in
        (Ok tt, mkDocState (Y.set blocks1 pageId (VYMap page2)) (rng s))
    | _ => (Err ETypeError, mkDocState blocks1 (rng s))
    end.

Definition noteBody (noteId pageId : string) : Y.Entries :=
  let note := setSysFields [] noteId "affine:note" in
  let note := Y.set note "sys:parent" (VStr pageId) in
  let note := Y.set note "sys:children" (VYArr []) in
  let note := Y.set note "prop:xywh" (VStr "[0,0,800,95]") in
  let note := Y.set note "prop:index" (VStr "a0") in
  let note := Y.set note "prop:hidden" (VBool false) in
  let note := Y.set note "prop:displayMode" (VStr "both") in
  let background :=
    Y.set (Y.set [] "light" (VStr "#ffffff")) "dark" (VStr "#252525") in
  Y.set note "prop:background" (VYMap background).

Definition surfaceBody (surfaceId pageId : string) : Y.Entries :=
  let surface := setSysFields [] surfaceId "affine:surface" in
  let surface := Y.set surface "sys:parent" (VStr pageId) in
  let surface := Y.set surface "sys:children" (VYArr []) in
  let elements :=
    Y.set (Y.set [] "type" (VStr "$blocksuite:internal:native$"))
          "value" (VYMap []) in
  Y.set surface "prop:elements" (VYMap elements).

(** [if (id)] on the result of [findBlockIdByFlavour]. *)
Definition foundId (o : option string) : option string :=
  match o with
  | Some id => if JS.truthy id then Some id else None
  | None => None
  end.

Definition ensureNoteBlock : M DocState string :=
  (s <- getS ;;
   match foundId (findBlockIdByFlavour (blocks s) "affine:note") with
   | Some existingNoteId => ret existingNoteId
   | None =>
       match foundId (findBlockIdByFlavour (blocks s) "affine:page") with
       | None => throw ENoPageForContent
       | Some pageId =>
           noteId <- freshId ;;
           storeUnderPage pageId noteId (noteBody noteId pageId) ;;
           ret noteId
       end
   end)%m.

Definition ensureSurfaceBlock : M DocState string :=
  (s <- getS ;;
   match foundId (findBlockIdByFlavour (blocks s) "affine:surface") with
   | Some existingSurfaceId => ret existingSurfaceId
   | None =>
       match foundId (findBlockIdByFlavour (blocks s) "affine:page") with
       | None => throw ENoPageForSurface
       | Some pageId =>
           surfaceId <- freshId ;;
           storeUnderPage pageId surfaceId (surfaceBody surfaceId pageId) ;;
           ret surfaceId
       end
   end)%m.

(* ================================================================== *)
(** ** Placement resolver (lines 616-708) *)
(* ================================================================== *)

Inductive Mode : Type := ModeAppend | ModeIndex | ModeAfter | ModeBefore.

(** What [resolveInsertContext] returns.  [parentBlock] and [children] of
    the source are references to [blocks.get(parentId)] and to its
    [sys:children] array; here they are the values those objects hold when
    the resolver returns. *)
Module Ctx.
Record t : Type := mk {
  parentId : string;
  parentBlock : Y.Entries;
  children : list YVal;
  insertIndex : Z
}.
End Ctx.

(** The parent of the block a placement refers to (lines 630-636, 640-646). *)
Definition referenceParent (blocks : Blocks) (referenceBlockId : string)
    (notFound : Error) : Res string :=
  match findBlockById blocks referenceBlockId with
  | None => Err notFound
  | Some referenceBlock =>
      match Y.get referenceBlock "sys:parent" with
      | VStr refParentId =>
          if JS.truthy refParentId then Ok refParentId
          else Err (ENoParent referenceBlockId)
      | _ => Err (ENoParent referenceBlockId)
      end
  end.

(** Lines 622-650: the parent the placement names, the reference block and
    the mode. *)
Definition explicitParent (blocks : Blocks) (placement : option AppendPlacement)
  : Res (option string * string * Mode) :=
  match placement with
  | None => Ok (None, "", ModeAppend)
  | Some pl =>
      if given (afterBlockId pl) then
        let referenceBlockId := JS.orElse (afterBlockId pl) "" in
        (refParentId <- referenceParent blocks referenceBlockId
                                         (EAfterNotFound referenceBlockId) ;;
         Ok (Some refParentId, referenceBlockId, ModeAfter))%res
      else if given (beforeBlockId pl) then
        let referenceBlockId := JS.orElse (beforeBlockId pl) "" in
        (refParentId <- referenceParent blocks referenceBlockId
                                         (EBeforeNotFound referenceBlockId) ;;
         Ok (Some refParentId, referenceBlockId, ModeBefore))%res
      else if given (parentId pl) then
        Ok (parentId pl, "",
            if JS.defined (index pl) then ModeIndex else ModeAppend)
      else Ok (None, "", ModeAppend)
  end.

Definition isCanvasType (type : BlockType) : bool :=
  tyEqb type Frame || tyEqb type EdgelessText.

(** Lines 652-663: the parent chosen when the placement names none. *)
Definition implicitParent (type : BlockType) : M DocState string :=
  if isCanvasType type then ensureSurfaceBlock
  else if tyEqb type Note then
    (s <- getS ;;
     match foundId (findBlockIdByFlavour (blocks s) "affine:page") with
     | Some pageId => ret pageId
     | None => throw ENoPageForNote
     end)%m
  else ensureNoteBlock.

(** Lines 669-689: the containment rules of strict mode. *)
Definition containment (parentFlavour : YVal) (type : BlockType) : Res unit :=
  (throwIf (strIs parentFlavour "affine:page" && negb (tyEqb type Note))
           (ECannotAppendUnderPage type) ;;
   throwIf (strIs parentFlavour "affine:surface"
            && negb (tyEqb type Frame) && negb (tyEqb type EdgelessText))
           (ECannotAppendUnderSurface type) ;;
   throwIf (tyEqb type Note && negb (strIs parentFlavour "affine:page"))
           ENoteNeedsPage ;;
   throwIf (isCanvasType type && negb (strIs parentFlavour "affine:surface"))
           (ECanvasNeedsSurface type))%res.

(** Lines 691-705: the insertion index among [children]. *)
Definition insertionIndex (mode : Mode) (children : list YVal)
    (referenceBlockId parentId : string) (placement : option AppendPlacement)
    (strict : bool) : Res Z :=
  let length := Z.of_nat (List.length children) in
  match mode with
  | ModeAfter | ModeBefore =>
      let idx := indexOfChild children referenceBlockId in
      if idx <? 0 then Err (ENotAChild referenceBlockId parentId)
      else Ok (match mode with ModeAfter => idx + 1 | _ => idx end)
  | ModeIndex =>
      let requestedIndex :=
        JS.orElse (match placement with Some pl => index pl | None => None end)
                  length in
      if (requestedIndex >? length) && strict
      then Err (EIndexOutOfRange requestedIndex length)
      else Ok (Z.min requestedIndex length)
  | ModeAppend => Ok length
  end.

(** Lines 622-663: the parent id, the reference block and the mode. *)
Definition resolveParent (normalized : Norm.t)
  : M DocState (string * string * Mode) :=
  (s0 <- getS ;;
   explicit <- liftRes (explicitParent (blocks s0) (Norm.placement normalized)) ;;
   let '(named, referenceBlockId, mode) := explicit in
   parentId <-
       match named with
       | Some parentId => ret parentId
       | None => implicitParent (Norm.type normalized)
       end ;;
   ret (parentId, referenceBlockId, mode))%m.

(** Lines 664-707: look the parent up, check containment, make sure it has
    a children array and compute the index. *)
Definition placeUnder (normalized : Norm.t) (target : string * string * Mode)
  : M DocState Ctx.t :=
  (let '(parentId, referenceBlockId, mode) := target in
   s1 <- getS ;;
   match findBlockById (blocks s1) parentId with
   | None => throw (EParentNotFound parentId)
   | Some parentBlock =>
       let parentFlavour := Y.get parentBlock "sys:flavour" in
       liftRes (if Norm.strict normalized
                then containment parentFlavour (Norm.type normalized)
                else Ok tt) ;;
       let '(parentBlock1, children) := ensureChildrenArray parentBlock in
       putS (mkDocState (Y.set (blocks s1) parentId (VYMap parentBlock1))
                        (rng s1)) ;;
       insertIndex <-
         liftRes (insertionIndex mode children referenceBlockId parentId
                                 (Norm.placement normalized)
                                 (Norm.strict normalized)) ;;
       ret (Ctx.mk parentId parentBlock1 children insertIndex)
   end)%m.

Definition resolveInsertContext (normalized : Norm.t) : M DocState Ctx.t :=
  (target <- resolveParent normalized ;;
   placeUnder normalized target)%m.

(* ================================================================== *)
(** ** Block factory (lines 710-1089) *)
(* ================================================================== *)

(** What [createBlock] returns. *)
Module Created.
Record t : Type := mk {
  blockId : string;
  block : Y.Entries;
  flavour : string;
  blockType : option string
}.
End Created.

(** A run of [block.set(k, v)] calls. *)
Definition setAll (block : Y.Entries) (kvs : list (string * YVal)) : Y.Entries :=
  fold_left (fun b kv => Y.set b (fst kv) (snd kv)) kvs block.

(** The three statements every case starts with. *)
Definition sysBlock (blockId flavour parentId : string) : Y.Entries :=
  setAll (setSysFields [] blockId flavour)
         [ ("sys:parent", VStr parentId); ("sys:children", VYArr []) ].

(** [caption ?? dflt]. *)
Definition captionOr (caption : option string) (dflt : YVal) : YVal :=
  match caption with Some c => VStr c | None => dflt end.

(** [s || undefined]. *)
Definition strOrUndef (s : string) : YVal :=
  if JS.truthy s then VStr s else VUndef.

(** The row and column loops of the table case: [count] fresh ids, each
    keyed to [{ idKey: id, order: prefix + padStart(i) }].  Property order of
    the plain object is insertion order (ids are not array indices). *)
Fixpoint tableAxis (count : nat) (i : Z) (idKey prefix : string)
    (r : Rng) (acc : Y.Entries) : Y.Entries * Rng :=
  match count with
  | O => (acc, r)
  | S k =>
      let '(id, r1) := generateId r in
      tableAxis k (i + 1) idKey prefix r1
        (Y.set acc id
           (VObj [ (idKey, VStr id);
                   ("order", VStr (prefix ++ JS.padStart4 (JS.ofZ i))) ]))
  end.

Definition tableCells (rows columns : Y.Entries) : Y.Entries :=
  fold_left
    (fun cells rowId =>
       fold_left
         (fun cells columnId =>
            Y.set cells (rowId ++ ":" ++ columnId)
                  (VObj [ ("text", makeText "") ]))
         (map fst columns) cells)
    (map fst rows) [].

Definition xywh (width height : Z) : string :=
  "[0,0," ++ JS.ofZ width ++ "," ++ JS.ofZ height ++ "]".

Definition createBlock (parentId : string) (normalized : Norm.t) (r : Rng)
  : Created.t * Rng :=
  let '(blockId, r) := generateId r in
  let content := Norm.text normalized in
  let caption := Norm.caption normalized in
  let url := Norm.url normalized in
  let sys := fun flavour => sysBlock blockId flavour parentId in
  let made := fun flavour props blockType =>
    (Created.mk blockId (setAll (sys flavour) props) flavour blockType, r) in
  let a0 := VStr "a0" in
  let zeroBox := VStr "[0,0,0,0]" in
  match Norm.type normalized with
  | Paragraph | Heading | Quote =>
      let blockType :=
        match Norm.type normalized with
        | Heading => "h" ++ JS.ofZ (Norm.headingLevel normalized)
        | Quote => "quote"
        | _ => "text"
        end in
      made "affine:paragraph"
           [ ("prop:type", VStr blockType); ("prop:text", makeText content) ]
           (Some blockType)
  | ListT =>
      let listStyle := Norm.listStyle normalized in
      made "affine:list"
           [ ("prop:type", VStr listStyle);
             ("prop:checked",
              VBool (if (listStyle =? "todo")%string
                     then Norm.checked normalized else false));
             ("prop:text", makeText content) ]
           (Some listStyle)
  | Code =>
      made "affine:code"
           ([ ("prop:language", VStr (Norm.language normalized)) ]
            ++ (if given caption
                then [ ("prop:caption", captionOr caption VUndef) ]
                else [])
            ++ [ ("prop:text", makeText content) ])%list
           None
  | Divider => made "affine:divider" [] None
  | Callout =>
      made "affine:callout"
           [ ("prop:icon",
              VObj [ ("type", VStr "emoji"); ("unicode", VStr "💡") ]);
             ("prop:backgroundColorName", VStr "grey");
             ("prop:text", makeText content) ]
           None
  | Latex =>
      made "affine:latex"
           [ ("prop:xywh", VStr "[0,0,16,16]"); ("prop:index", a0);
             ("prop:lockedBySelf", VBool false); ("prop:scale", VNum 1);
             ("prop:rotate", VNum 0);
             ("prop:latex", VStr (Norm.latex normalized)) ]
           None
  | Table =>
      let '(rows, r1) :=
        tableAxis (Z.to_nat (Norm.rows normalized)) 0 "rowId" "r" r [] in
      let '(columns, r2) :=
        tableAxis (Z.to_nat (Norm.columns normalized)) 0 "columnId" "c" r1 [] in
      (Created.mk blockId
         (setAll (sys "affine:table")
            [ ("prop:rows", VObj rows); ("prop:columns", VObj columns);
              ("prop:cells", VObj (tableCells rows columns));
              ("prop:comments", VUndef); ("prop:textAlign", VUndef) ])
         "affine:table" None, r2)
  | Bookmark =>
      made "affine:bookmark"
           [ ("prop:style", VStr (Norm.bookmarkStyle normalized));
             ("prop:url", VStr url); ("prop:caption", captionOr caption VNull);
             ("prop:description", VNull); ("prop:icon", VNull);
             ("prop:image", VNull); ("prop:title", VNull);
             ("prop:xywh", zeroBox); ("prop:index", a0);
             ("prop:lockedBySelf", VBool false); ("prop:rotate", VNum 0);
             ("prop:footnoteIdentifier", VNull) ]
           None
  | Image =>
      made "affine:image"
           [ ("prop:caption", captionOr caption (VStr ""));
             ("prop:sourceId", VStr (Norm.sourceId normalized));
             ("prop:width", VNum 0); ("prop:height", VNum 0);
             ("prop:size",
              VNum (if Norm.size normalized =? 0 then -1
                    else Norm.size normalized));
             ("prop:xywh", zeroBox); ("prop:index", a0);
             ("prop:lockedBySelf", VBool false); ("prop:rotate", VNum 0) ]
           None
  | Attachment =>
      made "affine:attachment"
           [ ("prop:name", VStr (Norm.name normalized));
             ("prop:size", VNum (Norm.size normalized));
             ("prop:type", VStr (Norm.mimeType normalized));
             ("prop:sourceId", VStr (Norm.sourceId normalized));
             ("prop:caption", captionOr caption VUndef);
             ("prop:embed", VBool (Norm.embed normalized));
             ("prop:style", VStr "horizontalThin"); ("prop:index", a0);
             ("prop:xywh", zeroBox); ("prop:lockedBySelf", VBool false);
             ("prop:rotate", VNum 0); ("prop:footnoteIdentifier", VNull) ]
           None
  | EmbedYoutube =>
      made "affine:embed-youtube"
           [ ("prop:index", a0); ("prop:xywh", zeroBox);
             ("prop:lockedBySelf", VBool false); ("prop:rotate", VNum 0);
             ("prop:style", VStr "video"); ("prop:url", VStr url);
             ("prop:caption", captionOr caption VNull);
             ("prop:image", VNull); ("prop:title", VNull);
             ("prop:description", VNull); ("prop:creator", VNull);
             ("prop:creatorUrl", VNull); ("prop:creatorImage", VNull);
             ("prop:videoId", VNull) ]
           None
  | EmbedGithub =>
      made "affine:embed-github"
           [ ("prop:index", a0); ("prop:xywh", zeroBox);
             ("prop:lockedBySelf", VBool false); ("prop:rotate", VNum 0);
             ("prop:style", VStr "horizontal"); ("prop:owner", VStr "");
             ("prop:repo", VStr ""); ("prop:githubType", VStr "issue");
             ("prop:githubId", VStr ""); ("prop:url", VStr url);
             ("prop:caption", captionOr caption VNull);
             ("prop:image", VNull); ("prop:status", VNull);
             ("prop:statusReason", VNull); ("prop:title", VNull);
             ("prop:description", VNull); ("prop:createdAt", VNull);
             ("prop:assignees", VNull) ]
           None
  | EmbedFigma =>
      made "affine:embed-figma"
           [ ("prop:index", a0); ("prop:xywh", zeroBox);
             ("prop:lockedBySelf", VBool false); ("prop:rotate", VNum 0);
             ("prop:style", VStr "figma"); ("prop:url", VStr url);
             ("prop:caption", captionOr caption VNull);
             ("prop:title", VNull); ("prop:description", VNull) ]
           None
  | EmbedLoom =>
      made "affine:embed-loom"
           [ ("prop:index", a0); ("prop:xywh", zeroBox);
             ("prop:lockedBySelf", VBool false); ("prop:rotate", VNum 0);
             ("prop:style", VStr "video"); ("prop:url", VStr url);
             ("prop:caption", captionOr caption VNull);
             ("prop:image", VNull); ("prop:title", VNull);
             ("prop:description", VNull); ("prop:videoId", VNull) ]
           None
  | EmbedHtml =>
      made "affine:embed-html"
           [ ("prop:index", a0); ("prop:xywh", zeroBox);
             ("prop:lockedBySelf", VBool false); ("prop:rotate", VNum 0);
             ("prop:style", VStr "html");
             ("prop:caption", captionOr caption VNull);
             ("prop:html", strOrUndef (Norm.html normalized));
             ("prop:design", strOrUndef (Norm.design normalized)) ]
           None
  | EmbedLinkedDoc =>
      made "affine:embed-linked-doc"
           [ ("prop:index", a0); ("prop:xywh", zeroBox);
             ("prop:lockedBySelf", VBool false); ("prop:rotate", VNum 0);
             ("prop:style", VStr "horizontal");
             ("prop:caption", captionOr caption VNull);
             ("prop:pageId", VStr (Norm.pageId normalized));
             ("prop:title", VUndef); ("prop:description", VUndef);
             ("prop:footnoteIdentifier", VNull) ]
           None
  | EmbedSyncedDoc =>
      made "affine:embed-synced-doc"
           [ ("prop:index", a0); ("prop:xywh", VStr "[0,0,800,100]");
             ("prop:lockedBySelf", VBool false); ("prop:rotate", VNum 0);
             ("prop:style", VStr "syncedDoc");
             ("prop:caption", captionOr caption VUndef);
             ("prop:pageId", VStr (Norm.pageId normalized));
             ("prop:scale", VUndef); ("prop:preFoldHeight", VUndef);
             ("prop:title", VUndef); ("prop:description", VUndef) ]
           None
  | EmbedIframe =>
      made "affine:embed-iframe"
           [ ("prop:index", a0); ("prop:xywh", zeroBox);
             ("prop:lockedBySelf", VBool false); ("prop:scale", VNum 1);
             ("prop:url", VStr url);
             ("prop:iframeUrl",
              VStr (JS.orStr (Norm.iframeUrl normalized) url));
             ("prop:width", VUndef); ("prop:height", VUndef);
             ("prop:caption", captionOr caption VNull);
             ("prop:title", VNull); ("prop:description", VNull) ]
           None
  | Database =>
      made "affine:database"
           [ ("prop:views", VYArr []); ("prop:title", makeText content);
             ("prop:cells", VYMap []); ("prop:columns", VYArr []);
             ("prop:comments", VUndef) ]
           None
  | DataView =>
      (* AFFiNE 0.26.x crashes on the raw affine:data-view render path; the
         type is kept for API compatibility and mapped to the database
         block. *)
      made "affine:database"
           [ ("prop:views", VYArr []); ("prop:title", makeText content);
             ("prop:cells", VYMap []); ("prop:columns", VYArr []);
             ("prop:comments", VUndef) ]
           (Some "data_view_fallback")
  | SurfaceRef =>
      made "affine:surface-ref"
           [ ("prop:reference", VStr (Norm.reference normalized));
             ("prop:caption", captionOr caption (VStr ""));
             ("prop:refFlavour", VStr (Norm.refFlavour normalized));
             ("prop:comments", VUndef) ]
           None
  | Frame =>
      made "affine:frame"
           [ ("prop:title", makeText (JS.orStr content "Frame"));
             ("prop:background", VStr (Norm.background normalized));
             ("prop:xywh",
              VStr (xywh (Norm.width normalized) (Norm.height normalized)));
             ("prop:index", a0); ("prop:childElementIds", VYMap []);
             ("prop:presentationIndex", a0);
             ("prop:lockedBySelf", VBool false) ]
           None
  | EdgelessText =>
      made "affine:edgeless-text"
           [ ("prop:xywh",
              VStr (xywh (Norm.width normalized) (Norm.height normalized)));
             ("prop:index", a0); ("prop:lockedBySelf", VBool false);
             ("prop:scale", VNum 1); ("prop:rotate", VNum 0);
             ("prop:hasMaxWidth", VBool false); ("prop:comments", VUndef);
             ("prop:color", VStr "black"); ("prop:fontFamily", VStr "Inter");
             ("prop:fontStyle", VStr "normal");
             ("prop:fontWeight", VStr "regular");
             ("prop:textAlign", VStr "left") ]
           None
  | Note =>
      let style :=
        setAll [] [ ("borderRadius", VNum 8); ("borderSize", VNum 1);
                    ("borderStyle", VStr "solid");
                    ("shadowType", VStr "none") ] in
      made "affine:note"
           [ ("prop:xywh",
              VStr (xywh (Norm.width normalized) (Norm.height normalized)));
             ("prop:background", VStr (Norm.background normalized));
             ("prop:index", a0); ("prop:lockedBySelf", VBool false);
             ("prop:hidden", VBool false); ("prop:displayMode", VStr "both");
             ("prop:edgeless", VYMap (setAll [] [ ("style", VYMap style) ]));
             ("prop:comments", VUndef) ]
           None
  end.

(* ================================================================== *)
(** ** Appending to the in-memory document (lines 1110-1118) *)
(* ================================================================== *)

(** Lines 1113-1118.  The new block is stored first; the push or insert then
    goes through [context.children].  When the generated id equals the
    parent's, the store has replaced the parent and the array written to is
    no longer part of the map. *)
Definition linkBlock (context : Ctx.t) (created : Created.t) (blocks : Blocks)
  : Blocks :=
  let blockId := Created.blockId created in
  let blocks1 := Y.set blocks blockId (VYMap (Created.block created)) in
  let children := Ctx.children context in
  let children1 :=
    if Ctx.insertIndex context >=? Z.of_nat (List.length children)
    then Y.push children (VStr blockId)
    else Y.insert children (Z.to_nat (Ctx.insertIndex context)) (VStr blockId) in
  if (blockId =? Ctx.parentId context)%string then blocks1
  else Y.set blocks1 (Ctx.parentId context)
             (VYMap (Y.set (Ctx.parentBlock context) "sys:children"
                           (VYArr children1))).

(** Resolve, build, store and link: what [appendBlockInternal] does to the
    loaded document between the load and the push. *)
Definition appendToDocument (normalized : Norm.t)
  : M DocState (Ctx.t * Created.t) :=
  (context <- resolveInsertContext normalized ;;
   s <- getS ;;
   let '(created, r) := createBlock (Ctx.parentId context) normalized (rng s) in
   putS (mkDocState (linkBlock context created (blocks s)) r) ;;
   ret (context, created))%m.

(* ================================================================== *)
(** ** Sync transport (ws.ts) *)
(* ================================================================== *)

(** A document: the [blocks] and [meta] maps of a [Y.Doc]. *)
Record Doc : Type := mkDoc { d_blocks : Y.Entries; d_meta : Y.Entries }.

Definition emptyDoc : Doc := mkDoc [] [].

(** [Y.encodeStateAsUpdate(doc, Y.encodeStateVector(since))]: the binary and
    base64 encodings are not modelled, an update is the pair it was computed
    from.  A full update is taken against the empty document. *)
Record Update : Type := mkUpdate { since : Doc; upto : Doc }.

Record AckError : Type := mkAckError {
  err_name : option string;
  err_message : option string
}.

(** The [data] of an acknowledgement.  [missing] is the snapshot, identified
    with the document it decodes to; an absent or empty string is [None]. *)
Record AckData : Type := mkAckData {
  missing : option Doc;
  timestamp : option Z
}.

Record Ack : Type := mkAck {
  ack_error : option AckError;
  ack_data : option AckData
}.

(** What comes back after a connection attempt or an acknowledged emit. *)
Inductive Reply : Type :=
| Connected                      (* the 'connect' event *)
| ConnectFailed                  (* the 'connect_error' event *)
| Acked (ack : option Ack)       (* the acknowledgement callback *)
| Silence.                       (* nothing before the timer fires *)

(** What the client sends. *)
Inductive Event : Type :=
| EvConnect (wsUrl : string) (extraHeaders : list (string * string))
| EvJoin (spaceId clientVersion : string)
| EvLoadDoc (spaceId docId : string)
| EvPushDocUpdate (spaceId docId : string) (update : Update)
| EvDeleteDoc (spaceId docId : string)
| EvDisconnect.

(** The environment of a handler: the random source, the clock
    ([now i] is the [i]-th value of [Date.now()]), the replies still to come
    and the events sent so far, oldest first. *)
Record World : Type := mkWorld {
  w_rng : Rng;
  now : nat -> Z;
  ticks : nat;
  replies : list Reply;
  trace : list Event
}.

Definition emit (e : Event) : M World unit :=
  fun w => (Ok tt, mkWorld (w_rng w) (now w) (ticks w) (replies w)
                           (trace w ++ [e])).

(** The next reply; a server that has nothing more to say stays silent. *)
Definition nextReply : M World Reply :=
  fun w => match replies w with
           | [] => (Ok Silence, w)
           | r :: rest =>
               (Ok r, mkWorld (w_rng w) (now w) (ticks w) rest (trace w))
           end.

Definition dateNow : M World Z :=
  fun w => (Ok (now w (ticks w)),
            mkWorld (w_rng w) (now w) (S (ticks w)) (replies w) (trace w)).

Definition generateIdW : M World string :=
  fun w => let '(id, r) := generateId (w_rng w) in
           (Ok id, mkWorld r (now w) (ticks w) (replies w) (trace w)).

Definition disconnect (w : World) : World :=
  mkWorld (w_rng w) (now w) (ticks w) (replies w) (trace w ++ [EvDisconnect]).

Definition wsUrlFromGraphQLEndpoint (endpoint : string) : string :=
  let u := JS.replaceFirst "https://" "wss://" endpoint in
  let u := JS.replaceFirst "http://" "ws://" u in
  if JS.endsWith "/graphql/" u then JS.dropEnd 9 u
  else if JS.endsWith "/graphql" u then JS.dropEnd 8 u
  else u.

Definition connectWorkspaceSocket (wsUrl : string) (cookie bearer : option string)
  : M World unit :=
  (let extraHeaders :=
     ((if given cookie then [ ("Cookie", JS.orElse cookie "") ] else [])
      ++ (if given bearer
          then [ ("Authorization", ("Bearer " ++ JS.orElse bearer "")%string) ]
          else []))%list in
   emit (EvConnect wsUrl extraHeaders) ;;
   r <- nextReply ;;
   match r with
   | Connected => ret tt
   | ConnectFailed => emit EvDisconnect ;; throw EConnectError
   | _ => emit EvDisconnect ;; throw EConnectTimeout
   end)%m.

(** [ack?.error], as the message the rejection carries:
    [ack.error.message || fallback]. *)
Definition ackFailure (ack : option Ack) (fallback : string) : option string :=
  match ack with
  | Some a =>
      match ack_error a with
      | Some e => Some (JS.orStr (JS.orElse (err_message e) "") fallback)
      | None => None
      end
  | None => None
  end.

Definition joinWorkspace (workspaceId clientVersion : string) : M World unit :=
  (emit (EvJoin workspaceId clientVersion) ;;
   r <- nextReply ;;
   match r with
   | Acked ack =>
       match ackFailure ack "join failed" with
       | Some message => throw (EJoinFailed message)
       | None => ret tt
       end
   | _ => throw EJoinTimeout
   end)%m.

Definition noData : AckData := mkAckData None None.

(** [ack?.data || {}]. *)
Definition dataOf (ack : option Ack) : AckData :=
  match ack with
  | Some a => JS.orElse (ack_data a) noData
  | None => noData
  end.

Definition loadDoc (workspaceId docId : string) : M World AckData :=
  (emit (EvLoadDoc workspaceId docId) ;;
   r <- nextReply ;;
   match r with
   | Acked ack =>
       match ack with
       | Some (mkAck (Some e) _) =>
           if match err_name e with
              | Some n => (n =? "DOC_NOT_FOUND")%string
              | None => false
              end
           then ret noData
           else throw (ELoadFailed (JS.orStr (JS.orElse (err_message e) "")
                                             "load-doc failed"))
       | _ => ret (dataOf ack)
       end
   | _ => throw ELoadTimeout
   end)%m.

Definition pushDocUpdate (workspaceId docId : string) (update : Update)
  : M World Z :=
  (emit (EvPushDocUpdate workspaceId docId update) ;;
   r <- nextReply ;;
   match r with
   | Acked ack =>
       match ackFailure ack "push-doc-update failed" with
       | Some message => throw (EPushFailed message)
       | None =>
           match timestamp (dataOf ack) with
           | Some t => if t =? 0 then dateNow else ret t
           | None => dateNow
           end
       end
   | _ => throw EPushTimeout
   end)%m.

Definition deleteDoc (workspaceId docId : string) : M World unit :=
  emit (EvDeleteDoc workspaceId docId).

(* ================================================================== *)
(** ** Mutation orchestrator (lines 1091-1127, 1175-1280, 1340-1443,
       1459-1523, 1574-1606) *)
(* ================================================================== *)

(** What the handlers read from [gql], [defaults] and the environment. *)
Record Config : Type := mkConfig {
  endpoint : string;
  cookie : option string;
  bearer : option string;
  defaultWorkspaceId : option string;
  clientVersion : string
}.

(** The result of [appendBlockInternal]. *)
Module Appended.
Record t : Type := mk {
  appended : bool;
  blockId : string;
  flavour : string;
  blockType : option string;
  normalizedType : BlockType;
  legacyType : option LegacyType
}.
End Appended.

Module CreateDoc.
Record input : Type := mkInput {
  workspaceId : option string;
  title : option string;
  content : option string
}.
Record output : Type := mkOutput { docId : string; outTitle : string }.
End CreateDoc.

Module ReadDoc.
Record row : Type := mkRow {
  id : string;
  parentId : option string;
  flavour : option string;
  type : option string;
  text : option string;
  checked : option bool;
  language : option string;
  childIds : list string
}.
Record output : Type := mkOutput {
  docId : string;
  title : option string;
  exists_ : bool;
  blockCount : nat;
  rows : list row;
  plainText : string
}.
(** The variables the [visit] closure of [readDocHandler] updates. *)
Record walk : Type := mkWalk {
  visited : list string;
  blockRows : list row;
  plainTextLines : list string;
  walkTitle : string
}.
End ReadDoc.

(** [a || b] on two optional strings, then [if (!workspaceId)]. *)
Definition pickWorkspace (a b : option string) : option string :=
  if given a then a else foundId b.

(** Truthiness of a value. *)
Definition truthyVal (v : YVal) : bool :=
  match v with
  | VUndef | VNull | VBool false => false
  | VNum z => negb (z =? 0)
  | VStr s => JS.truthy s
  | _ => true
  end.

(** Run a document operation on [blocks] with the world's random source. *)
Definition onDocument {A : Type} (blocks0 : Blocks) (m : M DocState A)
  : M World (A * Blocks) :=
  fun w =>
    let '(r, s) := m (mkDocState blocks0 (w_rng w)) in
    let w' := mkWorld (rng s) (now w) (ticks w) (replies w) (trace w) in
    match r with
    | Ok a => (Ok (a, blocks s), w')
    | Err e => (Err e, w')
    end.

Definition strOpt (v : YVal) : option string :=
  match v with VStr s => Some s | _ => None end.

(** The [visit] closure of [readDocHandler].  [fuel] bounds the depth of the
    recursion; every nested call but the last marks a new key of [blocks]
    as visited. *)
Fixpoint visit (fuel : nat) (blocks : Blocks) (blockId : string)
    (st : ReadDoc.walk) : ReadDoc.walk :=
  match fuel with
  | O => st
  | S fuel' =>
      if JS.includes blockId (ReadDoc.visited st) then st
      else
        let visited := (ReadDoc.visited st ++ [blockId])%list in
        match Y.get blocks blockId with
        | VYMap raw =>
            let flavour := Y.get raw "sys:flavour" in
            let textValue := asText (Y.get raw "prop:text") in
            let childIds := childIdsFrom (Y.get raw "sys:children") in
            let title :=
              if strIs flavour "affine:page"
              then JS.orStr (asText (Y.get raw "prop:title"))
                            (ReadDoc.walkTitle st)
              else ReadDoc.walkTitle st in
            let lines :=
              if (0 <? String.length textValue)%nat
              then (ReadDoc.plainTextLines st ++ [textValue])%list
              else ReadDoc.plainTextLines st in
            let row :=
              ReadDoc.mkRow blockId
                (strOpt (Y.get raw "sys:parent"))
                (strOpt flavour)
                (strOpt (Y.get raw "prop:type"))
                (if (0 <? String.length textValue)%nat
                 then Some textValue else None)
                (match Y.get raw "prop:checked" with
                 | VBool b => Some b
                 | _ => None
                 end)
                (strOpt (Y.get raw "prop:language"))
                childIds in
            fold_left (fun st childId => visit fuel' blocks childId st)
                      childIds
                      (ReadDoc.mkWalk visited
                                      (ReadDoc.blockRows st ++ [row])%list
                                      lines title)
        | _ =>
            ReadDoc.mkWalk visited (ReadDoc.blockRows st)
                           (ReadDoc.plainTextLines st) (ReadDoc.walkTitle st)
        end
  end.

(** Lines 1202-1276: the rows and the text of a loaded document. *)
Definition readBlocks (docId : string) (blocks : Blocks) : ReadDoc.output :=
  let fuel := S (S (List.length blocks)) in
  let pageId := foundId (findBlockIdByFlavour blocks "affine:page") in
  let noteId := foundId (findBlockIdByFlavour blocks "affine:note") in
  let st := ReadDoc.mkWalk [] [] [] "" in
  let st :=
    match pageId, noteId with
    | Some pageId, _ => visit fuel blocks pageId st
    | None, Some noteId => visit fuel blocks noteId st
    | None, None => st
    end in
  let st := fold_left (fun st kv => visit fuel blocks (fst kv) st) blocks st in
  ReadDoc.mkOutput docId
    (if JS.truthy (ReadDoc.walkTitle st) then Some (ReadDoc.walkTitle st)
     else None)
    true
    (List.length (ReadDoc.blockRows st))
    (ReadDoc.blockRows st)
    (JS.join (String (ascii_of_nat 10) EmptyString) (ReadDoc.plainTextLines st)).

(** [title || 'Untitled']. *)
Definition titleOrUntitled (title : option string) : string :=
  JS.orStr (JS.orElse title "") "Untitled".

(** Lines 1350-1410: the blocks of a new document.  Each object is written
    as it stands when the update is taken ([children] already holds the
    surface and the note, [noteChildren] the paragraph), then stored in
    source order. *)
Definition newDocBlocks (pageId surfaceId noteId : string)
    (paragraph : option (string * string)) (title : string) : Blocks :=
  let page :=
    setAll (setSysFields [] pageId "affine:page")
           [ ("prop:title", VText title);
             ("sys:children", VYArr [ VStr surfaceId; VStr noteId ]) ] in
  let surface := surfaceBody surfaceId pageId in
  let background :=
    setAll [] [ ("light", VStr "#ffffff"); ("dark", VStr "#252525") ] in
  let noteChildren :=
    match paragraph with Some (paraId, _) => [ VStr paraId ] | None => [] end in
  let note :=
    setAll (setSysFields [] noteId "affine:note")
           [ ("sys:parent", VStr pageId); ("prop:displayMode", VStr "both");
             ("prop:xywh", VStr "[0,0,800,95]"); ("prop:index", VStr "a0");
             ("prop:hidden", VBool false);
             ("prop:background", VYMap background);
             ("sys:children", VYArr noteChildren) ] in
  let blocks :=
    setAll [] [ (pageId, VYMap page); (surfaceId, VYMap surface);
                (noteId, VYMap note) ] in
  match paragraph with
  | Some (paraId, content) =>
      Y.set blocks paraId
            (VYMap (setAll (setSysFields [] paraId "affine:paragraph")
                           [ ("sys:parent", VStr noteId);
                             ("sys:children", VYArr []);
                             ("prop:type", VStr "text");
                             ("prop:text", VText content) ]))
  | None => blocks
  end.

(** A catalog entry of the workspace root document. *)
Definition pageEntry (docId title : string) (createDate : Z) : YVal :=
  VYMap (setAll [] [ ("id", VStr docId); ("title", VStr title);
                     ("createDate", VNum createDate); ("tags", VYArr []) ]).

(** Lines 1423-1434.  [pages] is declared a [Y.Array]; a plain array also
    has [push]; any other truthy value has none. *)
Definition addPageEntry (wsMeta : Y.Entries) (entry : YVal) : Res Y.Entries :=
  let pages := Y.get wsMeta "pages" in
  if negb (truthyVal pages) then Ok (Y.set wsMeta "pages" (VYArr [ entry ]))
  else match pages with
       | VYArr items => Ok (Y.set wsMeta "pages" (VYArr (Y.push items entry)))
       | VJsArr items =>
           Ok (Y.set wsMeta "pages" (VJsArr (items ++ [ VJsArr [ entry ] ])))
       | _ => Err ETypeError
       end.

(** Lines 1588-1597.  For a [Y.Array] the first entry whose [id] is [docId]
    is deleted; the entries of a plain array have no [get], so nothing is
    found; other truthy values are taken to have no [forEach]. *)
Fixpoint pageIndexFrom (pages : list YVal) (docId : string) (i : nat) : option nat :=
  match pages with
  | [] => None
  | VYMap m :: rest =>
      if strIs (Y.get m "id") docId then Some i
      else pageIndexFrom rest docId (S i)
  | _ :: rest => pageIndexFrom rest docId (S i)
  end.

Definition removePageEntry (wsMeta : Y.Entries) (docId : string) : Res Y.Entries :=
  let pages := Y.get wsMeta "pages" in
  if negb (truthyVal pages) then Ok wsMeta
  else match pages with
       | VYArr items =>
           match pageIndexFrom items docId 0 with
           | Some idx => Ok (Y.set wsMeta "pages" (VYArr (Y.delete items idx)))
           | None => Ok wsMeta
           end
       | VJsArr _ => Ok wsMeta
       | _ => Err ETypeError
       end.

Section Handlers.

Variable urlParses : string -> bool.
Variable cfg : Config.

Definition appendBlockInternal (parsed : Raw.t) : M World Appended.t :=
  (normalized <- liftRes (normalizeAppendBlockInput urlParses parsed) ;;
   match pickWorkspace (Norm.workspaceId normalized)
                       (defaultWorkspaceId cfg) with
   | None => throw EWorkspaceRequired
   | Some workspaceId =>
       let wsUrl := wsUrlFromGraphQLEndpoint (endpoint cfg) in
       connectWorkspaceSocket wsUrl (cookie cfg) (bearer cfg) ;;
       tryFinally
         (joinWorkspace workspaceId (clientVersion cfg) ;;
          snapshot <- loadDoc workspaceId (Norm.docId normalized) ;;
          let doc := JS.orElse (missing snapshot) emptyDoc in
          let prevSV := doc in
          done <- onDocument (d_blocks doc) (appendToDocument normalized) ;;
          let '((_, created), blocks1) := done in
          let delta := mkUpdate prevSV (mkDoc blocks1 (d_meta doc)) in
          pushDocUpdate workspaceId (Norm.docId normalized) delta ;;
          ret (Appended.mk true (Created.blockId created)
                           (Created.flavour created)
                           (Created.blockType created)
                           (Norm.type normalized)
                           (Norm.legacyType normalized)))
         disconnect
   end)%m.

(** [appendBlockHandler] passes the request on and reshapes the result. *)
Definition appendBlockHandler (parsed : Raw.t) : M World Appended.t :=
  appendBlockInternal parsed.

Definition appendParagraphHandler (workspaceId : option string)
    (docId text : string) : M World (bool * string) :=
  (result <- appendBlockInternal
               (Raw.mk workspaceId docId "paragraph" (Some text)
                  None None None None None None None None None None None
                  None None None None None None None None None None None
                  None None None None) ;;
   ret (Appended.appended result, Appended.blockId result))%m.

Definition readDocHandler (workspaceId : option string) (docId : string)
  : M World ReadDoc.output :=
  match pickWorkspace workspaceId (defaultWorkspaceId cfg) with
  | None => throw EWorkspaceRequired
  | Some workspaceId =>
      (let wsUrl := wsUrlFromGraphQLEndpoint (endpoint cfg) in
       connectWorkspaceSocket wsUrl (cookie cfg) (bearer cfg) ;;
       tryFinally
         (joinWorkspace workspaceId (clientVersion cfg) ;;
          snapshot <- loadDoc workspaceId docId ;;
          match missing snapshot with
          | None => ret (ReadDoc.mkOutput docId None false 0%nat [] "")
          | Some doc => ret (readBlocks docId (d_blocks doc))
          end)
         disconnect)%m
  end.

Definition createDocHandler (parsed : CreateDoc.input)
  : M World CreateDoc.output :=
  match pickWorkspace (CreateDoc.workspaceId parsed)
                      (defaultWorkspaceId cfg) with
  | None => throw EWorkspaceRequired
  | Some workspaceId =>
      (let wsUrl := wsUrlFromGraphQLEndpoint (endpoint cfg) in
       let title := titleOrUntitled (CreateDoc.title parsed) in
       connectWorkspaceSocket wsUrl (cookie cfg) (bearer cfg) ;;
       tryFinally
         (joinWorkspace workspaceId (clientVersion cfg) ;;
          (* 1) create doc content *)
          docId <- generateIdW ;;
          pageId <- generateIdW ;;
          surfaceId <- generateIdW ;;
          noteId <- generateIdW ;;
          paragraph <-
            (if given (CreateDoc.content parsed)
             then (paraId <- generateIdW ;;
                   ret (Some (paraId, JS.orElse (CreateDoc.content parsed) "")))
             else ret None) ;;
          createDate <- dateNow ;;
          let meta :=
            setAll [] [ ("id", VStr docId); ("title", VStr title);
                        ("createDate", VNum createDate);
                        ("tags", VYArr []) ] in
          let ydoc :=
            mkDoc (newDocBlocks pageId surfaceId noteId paragraph title) meta in
          pushDocUpdate workspaceId docId (mkUpdate emptyDoc ydoc) ;;
          (* 2) update workspace root pages list *)
          snapshot <- loadDoc workspaceId workspaceId ;;
          let wsDoc := JS.orElse (missing snapshot) emptyDoc in
          let prevSV := wsDoc in
          entryDate <- dateNow ;;
          wsMeta <- liftRes (addPageEntry (d_meta wsDoc)
                                          (pageEntry docId title entryDate)) ;;
          pushDocUpdate workspaceId workspaceId
                        (mkUpdate prevSV (mkDoc (d_blocks wsDoc) wsMeta)) ;;
          ret (CreateDoc.mkOutput docId title))
         disconnect)%m
  end.

Definition deleteDocHandler (workspaceId : option string) (docId : string)
  : M World bool :=
  match pickWorkspace workspaceId (defaultWorkspaceId cfg) with
  | None => throw EWorkspaceRequired
  | Some workspaceId =>
      (let wsUrl := wsUrlFromGraphQLEndpoint (endpoint cfg) in
       connectWorkspaceSocket wsUrl (cookie cfg) (bearer cfg) ;;
       tryFinally
         (joinWorkspace workspaceId (clientVersion cfg) ;;
          (* remove from workspace pages *)
          snapshot <- loadDoc workspaceId workspaceId ;;
          let wsDoc := JS.orElse (missing snapshot) emptyDoc in
          let prevSV := wsDoc in
          wsMeta <- liftRes (removePageEntry (d_meta wsDoc) docId) ;;
          pushDocUpdate workspaceId workspaceId
                        (mkUpdate prevSV (mkDoc (d_blocks wsDoc) wsMeta)) ;;
          (* delete doc content *)
          deleteDoc workspaceId docId ;;
          ret true)
         disconnect)%m
  end.

End Handlers.

(* ================================================================== *)
(** ** GraphQL client (graphqlClient.ts) *)
(* ================================================================== *)

(** [s.includes(sub)] on strings. *)
Fixpoint includesStr (sub s : string) : bool :=
  prefix sub s
  || match s with
     | EmptyString => false
     | String _ r => includesStr sub r
     end.

Module Gql.

(** [Record<string, string>]: the entries in insertion order. *)
Definition Headers := list (string * string).

Fixpoint hlookup (k : string) (h : Headers) : option string :=
match h with
| [] => None
| (k', v) :: r => if (k' =? k)%string then Some v else hlookup k r
end.

(** [h[k] || ""]. *)
Definition hget (h : Headers) (k : string) : string :=
match hlookup k h with Some v => v | None => "" end.

(** [h[k] = v]. *)
Fixpoint hset (h : Headers) (k v : string) : Headers :=
match h with
| [] => [ (k, v) ]
| (k', v') :: r =>
    if (k' =? k)%string then (k, v) :: r else (k', v') :: hset r k v
end.

(** [{ ...a, ...b }]. *)
Definition spread (a b : Headers) : Headers :=
fold_left (fun h kv => hset h (fst kv) (snd kv)) b a.

Record Opts : Type := mkOpts {
o_endpoint : string;
o_headers : option Headers;
o_bearer : option string
}.

Record Client : Type := mkClient {
opts : Opts;
_headers : Headers;
authenticated : bool
}.

(** The constructor: a bearer token takes priority over a cookie. *)
Definition GraphQLClient (o : Opts) : Client :=
let headers := spread [] (JS.orElse (o_headers o) []) in
if given (o_bearer o) then
  mkClient o
    (hset headers "Authorization" ("Bearer " ++ JS.orElse (o_bearer o) ""))
    true
else if JS.truthy (hget headers "Cookie") then mkClient o headers true
else mkClient o headers false.

Definition endpoint (c : Client) : string := o_endpoint (opts c).

Definition headers (c : Client) : Headers := spread [] (_headers c).

Definition cookie (c : Client) : string := hget (_headers c) "Cookie".

Definition bearer (c : Client) : string :=
let auth := hget (_headers c) "Authorization" in
if prefix "Bearer " auth then JS.drop 7 auth else "".

Definition setHeaders (c : Client) (next : Headers) : Client :=
mkClient (opts c) (spread (_headers c) next) (authenticated c).

Definition setCookie (c : Client) (cookieHeader : string) : Client :=
mkClient (opts c) (hset (_headers c) "Cookie" cookieHeader) true.

Definition isAuthenticated (c : Client) : bool := authenticated c.

(** A parsed response body.  [errors] is [None] when the body has no
  [errors] member or a falsy one; for an [errors] array it holds the
  message of each entry ([None] for an entry without one).  [stringified]
  is [JSON.stringify] of the body. *)
Record JsonBody : Type := mkJsonBody {
errors : option (list (option string));
data : YVal;
stringified : string
}.

(** What [fetch] resolved to.  [text] is what [res.text()] resolves to and
  [json] what [res.json()] resolves to; [None] when the call rejects (for
  [json] also when the body is not a JSON object, where reading [errors]
  throws). *)
Record Response : Type := mkResponse {
status : Z;
statusText : string;
location : option string;
contentType : option string;
text : option string;
json : option JsonBody
}.

(** One constructor per failure of [request], in source order. *)
Inductive RequestError : Type :=
| ERedirect (status : Z) (location : string)
| ETextRejected
| ENonJsonResponse (status : Z) (statusText contentType snippet : string)
| EHttpStatus (status : Z) (body : string)
| EJsonRejected
| EGraphQLErrors (message : string).

(** [res.ok]. *)
Definition ok (res : Response) : bool :=
(200 <=? status res) && (status res <=? 299).

(** [errors.map(e => e.message).join("; ")]. *)
Definition messages (errors : list (option string)) : string :=
JS.join "; " (map (fun m => JS.orElse m "") errors).

(** [body.slice(0, 300).replace(/\n/g, " ")]. *)
Definition snippetOf (body : string) : string :=
string_of_list_ascii
  (map (fun c => if Ascii.eqb c (ascii_of_nat 10) then " "%char else c)
       (list_ascii_of_string (substring 0 300 body))).

(** [request], from the point where [fetch] has resolved. *)
Definition request (res : Response) : YVal + RequestError :=
if (300 <=? status res) && (status res <? 400) then
  inr (ERedirect (status res) (JS.orStr (JS.orElse (location res) "")
                                        "(no location)"))
else
  let contentType := JS.orElse (contentType res) "" in
  if negb (includesStr "application/json" contentType)
     && negb (includesStr "application/graphql" contentType)
  then
    match text res with
    | None => inr ETextRejected
    | Some body =>
        inr (ENonJsonResponse (status res) (statusText res)
                              (JS.orStr contentType "(none)")
                              (snippetOf body))
    end
  else if negb (ok res) then
    let body :=
      match json res with
      | Some j =>
          JS.orStr (match errors j with
                    | Some es => messages es
                    | None => ""
                    end)
                   (stringified j)
      | None => JS.orElse (text res) "(unreadable body)"
      end in
    inr (EHttpStatus (status res) body)
  else
    match json res with
    | None => inr EJsonRejected
    | Some j =>
        match errors j with
        | Some es => inr (EGraphQLErrors (messages es))
        | None => inl (data j)
        end
    end.

End Gql.

(** [getCookieAndEndpoint] of the document tools, with the default
    workspace and the client version the handlers read beside it. *)
Definition getCookieAndEndpoint (gql : Gql.Client)
    (defaultWorkspaceId : option string) (clientVersion : string) : Config :=
  mkConfig (Gql.endpoint gql) (Some (Gql.cookie gql)) (Some (Gql.bearer gql))
           defaultWorkspaceId clientVersion.

(* ================================================================== *)
(** ** Workspace tools (tools/workspaces.ts) *)
(* ================================================================== *)

Module Workspace.

(** What [createInitialWorkspaceData] returns: the root document of the
  workspace (its [meta] and [setting] maps), the id of the first document
  and the full update of that document. *)
Record InitialData : Type := mkInitialData {
rootMeta : Y.Entries;
rootSetting : Y.Entries;
firstDocId : string;
docUpdate : Update
}.

(** The [createWorkspace] object of the HTTP reply. *)
Record Info : Type := mkInfo {
id : string;
public : bool;
createdAt : string;
enableAi : bool
}.

(** What the multipart request came to: [fetch] or [response.json()]
  rejected, or a body with its [errors] (the messages of the entries) and
  its [data.createWorkspace] (absent [data], or a null workspace). *)
Inductive HttpResult : Type :=
| HttpRejected (message : string)
| HttpJson (errors : option (list (option string)))
         (data : option (option Info)).

(** What the outer [catch] turns into [{ error, status: "failed" }]. *)
Inductive Failure : Type :=
| HttpError (message : string)
| GraphQLError (message : string)
| RuntimeTypeError
| Thrown (e : Error).

Inductive Outcome : Type :=
| Failed (error : Failure)
| Created (workspace : Info) (name : string) (avatar : option string)
        (firstDocId status message url : string).

End Workspace.

Definition generateDocId : M World string := generateIdW.

Definition createInitialWorkspaceData (workspaceName : string)
  : M World Workspace.InitialData :=
  (let title := ("Welcome to " ++ workspaceName)%string in
   firstDocId <- generateDocId ;;
   createDate <- dateNow ;;
   let pageMetadata :=
     setAll [] [ ("id", VStr firstDocId); ("title", VStr title);
                 ("createDate", VNum createDate); ("tags", VYArr []) ] in
   let meta :=
     setAll [] [ ("name", VStr workspaceName); ("avatar", VStr "");
                 ("pages", VYArr [ VYMap pageMetadata ]) ] in
   let setting := setAll [] [ ("collections", VYArr []) ] in
   pageId <- generateDocId ;;
   surfaceId <- generateDocId ;;
   noteId <- generateDocId ;;
   paragraphId <- generateDocId ;;
   let pageBlock :=
     setAll [] [ ("sys:id", VStr pageId); ("sys:flavour", VStr "affine:page");
                 ("prop:title", VText title);
                 ("sys:children", VYArr [ VStr surfaceId; VStr noteId ]) ] in
   let surfaceBlock :=
     setAll [] [ ("sys:id", VStr surfaceId);
                 ("sys:flavour", VStr "affine:surface");
                 ("sys:parent", VStr pageId); ("sys:children", VYArr []) ] in
   let noteBlock :=
     setAll [] [ ("sys:id", VStr noteId); ("sys:flavour", VStr "affine:note");
                 ("sys:parent", VStr pageId);
                 ("prop:displayMode", VStr "DocAndEdgeless");
                 ("prop:xywh", VStr "[0,0,800,600]"); ("prop:index", VStr "a0");
                 ("prop:lockedBySelf", VBool false);
                 ("sys:children", VYArr [ VStr paragraphId ]) ] in
   let paragraphBlock :=
     setAll [] [ ("sys:id", VStr paragraphId);
                 ("sys:flavour", VStr "affine:paragraph");
                 ("sys:parent", VStr noteId); ("sys:children", VYArr []);
                 ("prop:type", VStr "text");
                 ("prop:text",
                  VText "This workspace was created by AFFiNE MCP Server") ] in
   let blocks :=
     setAll [] [ (pageId, VYMap pageBlock); (surfaceId, VYMap surfaceBlock);
                 (noteId, VYMap noteBlock);
                 (paragraphId, VYMap paragraphBlock) ] in
   docDate <- dateNow ;;
   let docMeta :=
     setAll [] [ ("id", VStr firstDocId); ("title", VStr title);
                 ("createDate", VNum docDate); ("tags", VYArr []);
                 ("version", VNum 1) ] in
   ret (Workspace.mkInitialData meta setting firstDocId
          (mkUpdate emptyDoc (mkDoc blocks docMeta))))%m.

(** [endpoint.replace(/\/graphql\/?$/, '')]. *)
Definition withoutGraphqlSuffix (endpoint : string) : string :=
  if JS.endsWith "/graphql/" endpoint then JS.dropEnd 9 endpoint
  else if JS.endsWith "/graphql" endpoint then JS.dropEnd 8 endpoint
  else endpoint.

Section WorkspaceHandlers.

Variable gql : Gql.Client.
(** [process.env.AFFINE_BASE_URL] and the default client version of
  [joinWorkspace]. *)
Variable baseUrlEnv : option string.
Variable clientVersion : string.

(** The initial sync of [createWorkspaceHandler]: the inner [try] with its
  [finally]. *)
Definition initialSync (workspace : option Workspace.Info)
  (initial : Workspace.InitialData) : M World unit :=
(connectWorkspaceSocket (wsUrlFromGraphQLEndpoint (Gql.endpoint gql))
                        (Some (Gql.cookie gql)) (Some (Gql.bearer gql)) ;;
 tryFinally
   (match workspace with
    | None => throw ETypeError
    | Some ws =>
        joinWorkspace (Workspace.id ws) clientVersion ;;
        pushDocUpdate (Workspace.id ws) (Workspace.firstDocId initial)
                      (Workspace.docUpdate initial) ;;
        ret tt
    end)
   disconnect)%m.

(** [createWorkspaceHandler], given what the HTTP request comes to. *)
Definition createWorkspaceHandler (name : string) (avatar : option string)
  (http : Workspace.HttpResult) (w : World) : Workspace.Outcome * World :=
match createInitialWorkspaceData name w with
| (Err e, w1) => (Workspace.Failed (Workspace.Thrown e), w1)
| (Ok initial, w1) =>
    match http with
    | Workspace.HttpRejected message =>
        (Workspace.Failed (Workspace.HttpError message), w1)
    | Workspace.HttpJson (Some []) _ =>
        (Workspace.Failed Workspace.RuntimeTypeError, w1)
    | Workspace.HttpJson (Some (first :: _)) _ =>
        (Workspace.Failed (Workspace.GraphQLError (JS.orElse first "")), w1)
    | Workspace.HttpJson None None =>
        (Workspace.Failed Workspace.RuntimeTypeError, w1)
    | Workspace.HttpJson None (Some workspace) =>
        let baseUrl :=
          if given baseUrlEnv then JS.orElse baseUrlEnv ""
          else withoutGraphqlSuffix (Gql.endpoint gql) in
        let '(synced, w2) := initialSync workspace initial w1 in
        match workspace with
        | None => (Workspace.Failed Workspace.RuntimeTypeError, w2)
        | Some ws =>
            let url := (baseUrl ++ "/workspace/" ++ Workspace.id ws)%string in
            match synced with
            | Ok _ =>
                (Workspace.Created ws name avatar
                   (Workspace.firstDocId initial) "success"
                   "Workspace created successfully" url, w2)
            | Err _ =>
                (Workspace.Created ws name avatar
                   (Workspace.firstDocId initial) "partial"
                   "Workspace created (document sync may be pending)" url,
                 w2)
            end
        end
    end
end.

End WorkspaceHandlers.

(* ================================================================== *)
(** * Vocabulary of the properties *)
(* ================================================================== *)

(** The three rejections of [normalizePlacement]. *)
Definition isPlacementError (e : Error) : bool :=
  match e with
  | EAfterBeforeExclusive | EIndexNotNatural | EIndexWithReference => true
  | _ => false
  end.

(** A placement whose fields contradict each other: both references, or an
    index next to a reference.  A reference counts when it is present and
    not blank. *)
Definition conflicting (pl : AppendPlacement) : Prop :=
  (JS.trimmedTruthy (afterBlockId pl) = true
   /\ JS.trimmedTruthy (beforeBlockId pl) = true)
  \/ (index pl <> None
      /\ (JS.trimmedTruthy (afterBlockId pl) = true
          \/ JS.trimmedTruthy (beforeBlockId pl) = true)).

(** An attachment request that gives a blob id and nothing else. *)
Definition attachmentOnlySource : Raw.t :=
  Raw.mk None "doc" "attachment" None None None None None None None None None
    None None (Some "blob-1") None None None None None None None None None
    None None None None None None.

(** The four containment rejections of [resolveInsertContext]. *)
Definition isContainmentError (e : Error) : bool :=
  match e with
  | ECannotAppendUnderPage _ | ECannotAppendUnderSurface _
  | ENoteNeedsPage | ECanvasNeedsSurface _ => true
  | _ => false
  end.

(** The containment rules as the specification words them. *)
Definition violatesContainment (parentFlavour : YVal) (type : BlockType) : Prop :=
  (parentFlavour = VStr "affine:page" /\ type <> Note)
  \/ (parentFlavour = VStr "affine:surface"
      /\ type <> Frame /\ type <> EdgelessText)
  \/ (type = Note /\ parentFlavour <> VStr "affine:page")
  \/ ((type = Frame \/ type = EdgelessText)
      /\ parentFlavour <> VStr "affine:surface").

(** The children of a block as the resolver reads them. *)
Definition childrenOf (b : Y.Entries) : list YVal := snd (ensureChildrenArray b).

(** In [s'], block [p] is [pb] with [id] put at position [k] of its
    children. *)
Definition childPlacedAt (s' : DocState) (p : string) (pb : Y.Entries)
    (k : nat) (id : string) : Prop :=
  findBlockById (blocks s') p
  = Some (Y.set (fst (ensureChildrenArray pb)) "sys:children"
                (VYArr (Y.insert (childrenOf pb) k (VStr id)))).

Inductive Side : Type := After | Before.

(** The placement names [R] as the block to insert after, or before. *)
Definition refersTo (pl : AppendPlacement) (side : Side) (R : string) : Prop :=
  R <> ""
  /\ match side with
     | After => afterBlockId pl = Some R
     | Before => given (afterBlockId pl) = false /\ beforeBlockId pl = Some R
     end.

Definition offset (side : Side) : Z :=
  match side with After => 1 | Before => 0 end.

Definition modeOf (side : Side) : Mode :=
  match side with After => ModeAfter | Before => ModeBefore end.

Definition notFoundError (side : Side) (R : string) : Error :=
  match side with After => EAfterNotFound R | Before => EBeforeNotFound R end.

(** A freshly created document: page [P] holding surface [S] and note [N]. *)
Definition demoDocument : DocState :=
  mkDocState (newDocBlocks "P" "S" "N" None "Demo") (mkRng (fun i => i) 0).

(** A strict paragraph request placed after the note. *)
Definition paragraphAfterNote : Raw.t :=
  Raw.mk None "doc" "paragraph" None None None None None None None None None
    None None None None None None None None None None None None
    None None None None None
    (Some (mkPlacement None (Some "N") None None)).

(** [placement: { parentId: P, index: i }], the index optional. *)
Definition underParent (P : string) (i : option Z) : option AppendPlacement :=
  Some (mkPlacement (Some P) None None i).

(** The flavour of the container a kind goes under when no placement is
    given, and the body a missing container is created with. *)
Definition implicitContainer (t : BlockType) : string :=
  if isCanvasType t then "affine:surface"
  else if tyEqb t Note then "affine:page"
  else "affine:note".

Definition containerBody (t : BlockType) (cid pid : string) : Y.Entries :=
  if isCanvasType t then surfaceBody cid pid else noteBody cid pid.

(** In [s'], block [p] is [pb] with [id] pushed on its children. *)
Definition childAppended (s' : DocState) (p : string) (pb : Y.Entries)
    (id : string) : Prop :=
  findBlockById (blocks s') p
  = Some (Y.set (fst (ensureChildrenArray pb)) "sys:children"
                (VYArr (Y.push (childrenOf pb) (VStr id)))).

Definition isPush (e : Event) : bool :=
  match e with EvPushDocUpdate _ _ _ => true | _ => false end.

(** The pushes of a trace, in order. *)
Definition pushesOf (t : list Event) : list Event := filter isPush t.

(** What was sent after the first push of a trace, if there is a push. *)
Fixpoint afterFirstPush (t : list Event) : option (list Event) :=
  match t with
  | [] => None
  | EvPushDocUpdate _ _ _ :: rest => Some rest
  | _ :: rest => afterFirstPush rest
  end.

(** The two rejections of [pushDocUpdate]. *)
Definition isPushError (e : Error) : bool :=
  match e with EPushTimeout | EPushFailed _ => true | _ => false end.

(** The same world with other replies to come. *)
Definition withReplies (w : World) (rs : list Reply) : World :=
  mkWorld (w_rng w) (now w) (ticks w) rs (trace w).

(** The acknowledgement of a load that finds no such document. *)
Definition notFoundAck (message : option string) (data : option AckData) : Reply :=
  Acked (Some (mkAck (Some (mkAckError (Some "DOC_NOT_FOUND") message)) data)).

(** An acknowledgement that reports no error. *)
Definition cleanAck (ack : option Ack) : Prop :=
  match ack with Some a => ack_error a = None | None => True end.

(** The configuration of the concrete runs below. *)
Definition demoConfig : Config :=
  mkConfig "https://app.affine.pro/graphql" None (Some "token") (Some "ws-1")
           "0.26.0".

(** The server accepts the connection, the join and the first push, then
    rejects the load of the workspace root document. *)
Definition indexLoadFails : World :=
  mkWorld (mkRng (fun i => i) 0) (fun i => 1700000000000 + Z.of_nat i) 0
          [ Connected; Acked None; Acked None;
            Acked (Some (mkAck (Some (mkAckError (Some "INTERNAL")
                                                 (Some "boom"))) None)) ]
          [].

(** The name of the socket event each client event is. *)
Definition verb (e : Event) : string :=
  match e with
  | EvConnect _ _ => "connect"
  | EvJoin _ _ => "space:join"
  | EvLoadDoc _ _ => "space:load-doc"
  | EvPushDocUpdate _ _ _ => "space:push-doc-update"
  | EvDeleteDoc _ _ => "space:delete-doc"
  | EvDisconnect => "disconnect"
  end.

(** The block stored under [id], and the three blocks of [demoDocument]. *)
Definition blockOf (s : DocState) (id : string) : Y.Entries :=
  match findBlockById (blocks s) id with Some b => b | None => [] end.

Definition demoPage : Y.Entries := Eval vm_compute in blockOf demoDocument "P".
Definition demoSurface : Y.Entries := Eval vm_compute in blockOf demoDocument "S".
Definition demoNote : Y.Entries := Eval vm_compute in blockOf demoDocument "N".

(** The strict paragraph request, normalised. *)
Definition strictParagraphAfterNote : Norm.t :=
  buildNormalized paragraphAfterNote (mkTypeInfo Paragraph None None None)
                  (Some (mkPlacement None (Some "N") None None)).

(** A strict paragraph request with no placement, normalised. *)
Definition plainParagraph : Norm.t :=
  buildNormalized (bareRequest "doc" "paragraph")
                  (mkTypeInfo Paragraph None None None) None.

(** A strict note request placed after the surface, normalised. *)
Definition noteAfterSurface : Norm.t :=
  buildNormalized (bareRequest "doc" "note")
                  (mkTypeInfo Note None None None)
                  (Some (mkPlacement None (Some "S") None None)).

(** A request that names both references and an index. *)
Definition contradictoryPlacement : Raw.t :=
  Raw.mk None "doc" "paragraph" None None None None None None None None None
    None None None None None None None None None None None None
    None None None None None
    (Some (mkPlacement None (Some "a") (Some "b") (Some 0))).

(** An alias request whose explicit fields contradict the alias. *)
Definition bulletedSaysTodo : Raw.t :=
  withStyle (bareRequest "doc" "bulleted_list") (Some "todo").

Definition heading1SaysLevel3 : Raw.t :=
  withLevel (bareRequest "doc" "heading1") (Some 3).

(** An image request with no blob id. *)
Definition imageWithoutSource : Raw.t := bareRequest "doc" "image".

(** A world whose server accepts the connection and the join and reports
    the document missing. *)
Definition documentMissing : World :=
  mkWorld (mkRng (fun i => i) 0) (fun i => 1700000000000 + Z.of_nat i) 0
          [ Connected; Acked None; notFoundAck None None ] [].

(** ** Vocabulary of the further properties *)

(** The same request with another [strict] flag, and a normalised request
    with strict mode off. *)
Definition withStrict (p : Raw.t) (strict : option bool) : Raw.t :=
  Raw.mk (Raw.workspaceId p) (Raw.docId p) (Raw.type p) (Raw.text p)
    (Raw.url p) (Raw.pageId p) (Raw.iframeUrl p) (Raw.html p) (Raw.design p)
    (Raw.reference p) (Raw.refFlavour p) (Raw.width p) (Raw.height p)
    (Raw.background p) (Raw.sourceId p) (Raw.name p) (Raw.mimeType p)
    (Raw.size p) (Raw.embed p) (Raw.rows p) (Raw.columns p) (Raw.latex p)
    (Raw.checked p) (Raw.language p) (Raw.caption p) (Raw.level p)
    (Raw.style p) (Raw.bookmarkStyle p) strict (Raw.placement p).

Definition relaxed (n : Norm.t) : Norm.t :=
  Norm.mk (Norm.workspaceId n) (Norm.docId n) (Norm.type n) false
    (Norm.placement n)
    (Norm.text n) (Norm.url n) (Norm.pageId n) (Norm.iframeUrl n) (Norm.html n)
    (Norm.design n) (Norm.reference n) (Norm.refFlavour n) (Norm.width n)
    (Norm.height n) (Norm.background n) (Norm.sourceId n) (Norm.name n)
    (Norm.mimeType n) (Norm.size n) (Norm.embed n) (Norm.rows n)
    (Norm.columns n) (Norm.latex n) (Norm.headingLevel n) (Norm.listStyle n)
    (Norm.bookmarkStyle n) (Norm.checked n) (Norm.language n) (Norm.caption n)
    (Norm.legacyType n).

(** A table request of four rows. *)
Definition tableOfFourRows : Raw.t :=
  Raw.mk None "doc" "table" None None None None None None None None None
    None None None None None None None (Some 4) None None None None
    None None None None None None.

(** A strict heading request that also names a level. *)
Definition headingWithLevel : Raw.t := withLevel (bareRequest "doc" "heading") (Some 2).

(** A placement with blanks around its parent id, and one that names
    nothing. *)
Definition paddedParent : AppendPlacement :=
  mkPlacement (Some "  N ") (Some " ") None (Some 2).

(** Every character of [id] is one of [chars]. *)
Definition fromAlphabet (id : string) : Prop :=
  forall c, In c (list_ascii_of_string id) -> In c (list_ascii_of_string chars).

(** A document that holds a page and nothing else. *)
Definition pageOnly : DocState :=
  mkDocState [ ("P", VYMap (setSysFields [] "P" "affine:page")) ]
             (mkRng (fun i => i) 0).

Definition pageOnlyWithNote : DocState :=
  Eval vm_compute in snd (ensureNoteBlock pageOnly).

(** The ids an entry of a children array stands for: itself when it is a
    string, its string members when it is a legacy one-element array. *)
Definition holds (entry : YVal) (id : string) : Prop :=
  In id (childIdsFrom (VYArr [ entry ])).



(** The ids of the rows collected so far. *)
Definition rowIds (st : ReadDoc.walk) : list string :=
  map ReadDoc.id (ReadDoc.blockRows st).

(** A row reports the block stored under its id. *)
Definition rowOfBlock (blocks : Blocks) (row : ReadDoc.row) : Prop :=
  exists raw,
    Y.get blocks (ReadDoc.id row) = VYMap raw
    /\ ReadDoc.flavour row = strOpt (Y.get raw "sys:flavour")
    /\ ReadDoc.parentId row = strOpt (Y.get raw "sys:parent")
    /\ ReadDoc.childIds row = childIdsFrom (Y.get raw "sys:children").

(** What the traversal maintains: no id is marked twice, the rows are the
    marked ids that name a block, once each, and each row reports its
    block. *)
Definition walkOk (blocks : Blocks) (st : ReadDoc.walk) : Prop :=
  NoDup (ReadDoc.visited st)
  /\ (forall id, In id (rowIds st) <->
                 In id (ReadDoc.visited st)
                 /\ exists raw, Y.get blocks id = VYMap raw)
  /\ NoDup (rowIds st)
  /\ Forall (rowOfBlock blocks) (ReadDoc.blockRows st).

(** The keys of [blocks] not yet marked. *)
Definition unvisited (blocks : Blocks) (visited : list string) : list string :=
  filter (fun k => negb (JS.includes k visited))
         (nodup string_dec (map fst blocks)).

(** What [visit] reads of a block. *)
Record BlockView : Type := mkView {
  v_id : string;
  v_flavour : string;
  v_parent : YVal;
  v_children : list YVal;
  v_title : YVal;
  v_text : YVal;
  v_type : YVal
}.

Definition viewed (raw : Y.Entries) (v : BlockView) : Prop :=
  Y.get raw "sys:id" = VStr (v_id v)
  /\ Y.get raw "sys:flavour" = VStr (v_flavour v)
  /\ Y.get raw "sys:parent" = v_parent v
  /\ Y.get raw "sys:children" = VYArr (v_children v)
  /\ Y.get raw "prop:title" = v_title v
  /\ Y.get raw "prop:text" = v_text v
  /\ Y.get raw "prop:type" = v_type v
  /\ Y.get raw "prop:checked" = VUndef
  /\ Y.get raw "prop:language" = VUndef.

Definition isSocketEvent (e : Event) : bool :=
  match e with EvConnect _ _ | EvDisconnect => true | _ => false end.

(** A handler's events: nothing, or one connect, then requests that start
    with the join, then one disconnect. *)
Definition bracketed (added : list Event) : bool :=
  match added with
  | [] => true
  | EvConnect _ _ :: rest =>
      match rev rest with
      | EvDisconnect :: mid =>
          negb (existsb isSocketEvent mid)
          && match rev mid with
             | [] | EvJoin _ _ :: _ => true
             | _ => false
             end
      | _ => false
      end
  | _ => false
  end.

Definition oneSession (added : list Event) : Prop :=
  added = []
  \/ exists wsUrl extraHeaders requests,
       added = (EvConnect wsUrl extraHeaders :: requests ++ [ EvDisconnect ])%list
       /\ (forall e, In e requests -> isSocketEvent e = false)
       /\ (requests = []
           \/ exists spaceId clientVersion rest,
                requests = EvJoin spaceId clientVersion :: rest).

(** [pat] occurs in [s]. *)
Definition occursIn (pat s : string) : Prop :=
  exists a b, s = (a ++ pat ++ b)%string.

(** A catalog with two entries. *)
Definition twoPages : Y.Entries :=
  [ ("name", VStr "Demo");
    ("pages", VYArr [ pageEntry "d1" "One" 1; pageEntry "d2" "Two" 2 ]) ].

(** A client configuration with a token and a cookie header. *)
Definition tokenOpts : Gql.Opts :=
  Gql.mkOpts "https://app.affine.pro/graphql"
             (Some [ ("Cookie", "sid=1"); ("Authorization", "Basic abc") ])
             (Some "secret").

(** A 200 response that carries an empty [errors] array. *)
Definition emptyErrors : Gql.Response :=
  Gql.mkResponse 200 "OK" None (Some "application/json; charset=utf-8") None
    (Some (Gql.mkJsonBody (Some []) (VObj []) "{}")).

(** The [k]-th identifier drawn from a random source. *)
Definition nthId (r : Rng) (k : nat) : string :=
  fst (generateId (Nat.iter k (fun r => snd (generateId r)) r)).

Definition welcomeText : string :=
  "This workspace was created by AFFiNE MCP Server".

(** The HTTP reply names a workspace. *)
Definition namesWorkspace (http : Workspace.HttpResult) : option Workspace.Info :=
  match http with
  | Workspace.HttpJson None (Some (Some info)) => Some info
  | _ => None
  end.

(** The HTTP reply lets the handler go on to the socket: no error entry and
    a [data] member. *)
Definition reachesSync (http : Workspace.HttpResult) : bool :=
  match http with
  | Workspace.HttpJson None (Some _) => true
  | _ => false
  end.

(** The server answers the HTTP request with a workspace, accepts the
    socket and the join, and stays silent on the push. *)
Definition pushUnanswered : World :=
  mkWorld (mkRng (fun i => i) 0) (fun i => 1700000000000 + Z.of_nat i) 0
          [ Connected; Acked None ] [].

Definition newWorkspace : Workspace.Info :=
  Workspace.mkInfo "ws-9" false "2025-01-01T00:00:00.000Z" false.

(** The acknowledgement of a load that finds the document. *)
Definition foundAck (doc : Doc) (timestamp : option Z) : option Ack :=
  Some (mkAck None (Some (mkAckData (Some doc) timestamp))).

Definition demoSnapshot : Doc := mkDoc (blocks demoDocument) [].

(** The server accepts the connection and the join, answers the load with
    the demo document and acknowledges the push. *)
Definition demoServer : World :=
  mkWorld (mkRng (fun i => i) 0) (fun i => 1700000000000 + Z.of_nat i) 0
          [ Connected; Acked None; Acked (foundAck demoSnapshot None);
            Acked None ] [].

(** A workspace root document with one catalog entry. *)
Definition rootSnapshot : Doc :=
  mkDoc [] [ ("pages", VYArr [ pageEntry "d0" "Old" 1 ]) ].

Definition catalogServer : World :=
  mkWorld (mkRng (fun i => i) 0) (fun i => 1700000000000 + Z.of_nat i) 0
          [ Connected; Acked None; Acked None;
            Acked (foundAck rootSnapshot None); Acked None ] [].

(* ================================================================== *)
(** * Properties *)
(* ================================================================== *)

(** ** The embedding on concrete inputs *)

Example generateId_draws_ten :
  generateId (mkRng (fun i => i) 0)
  = ("ABCDEFGHIJ", mkRng (fun i => i) 10).
Proof. reflexivity. Qed.

Example trim_and_lower :
  JS.toLowerCase (JS.trim "  Heading2 ") = "heading2".
Proof. reflexivity. Qed.

Example wsUrl_of_endpoint :
  wsUrlFromGraphQLEndpoint "https://app.affine.pro/graphql" = "wss://app.affine.pro"
  /\ wsUrlFromGraphQLEndpoint "http://localhost:3010/graphql/" = "ws://localhost:3010".
Proof. split; reflexivity. Qed.

Example heading_level_defaults_to_one :
  exists n,
    normalizeAppendBlockInput (fun _ => true) (bareRequest "doc" "heading") = Ok n
    /\ Norm.headingLevel n = 1 /\ Norm.strict n = true.
Proof. eexists. split; [vm_compute; reflexivity|]. split; reflexivity. Qed.

Example list_defaults_to_bulleted_and_rejects_checked :
  normalizeAppendBlockInput (fun _ => true)
    (Raw.mk None "doc" "list" None None None None None None None None None
       None None None None None None None None None None (Some true) None
       None None None None None None)
  = Err ECheckedNeedsTodo.
Proof. vm_compute. reflexivity. Qed.

Example unknown_type_is_rejected :
  normalizeAppendBlockInput (fun _ => true) (bareRequest "doc" "mindmap")
  = Err (EUnsupportedType "mindmap").
Proof. vm_compute. reflexivity. Qed.

Example legacy_child_entry_is_found :
  indexOfChild [ VStr "a"; VJsArr [ VStr "b" ]; VStr "c" ] "b" = 1
  /\ indexOfChild [ VStr "a"; VJsArr [ VStr "b" ]; VStr "c" ] "z" = -1.
Proof. split; reflexivity. Qed.

Example read_of_new_document :
  ReadDoc.title (readBlocks "doc" (blocks demoDocument)) = Some "Demo"
  /\ ReadDoc.blockCount (readBlocks "doc" (blocks demoDocument)) = 3%nat.
Proof. split; reflexivity. Qed.

Example table_positions :
  Y.get (Created.block
           (fst (createBlock "N"
                   (buildNormalized (bareRequest "doc" "table")
                      (mkTypeInfo Table None None None) None)
                   (mkRng (fun i => i) 0))))
        "prop:rows"
  = VObj [ ("KLMNOPQRST",
            VObj [ ("rowId", VStr "KLMNOPQRST"); ("order", VStr "r0000") ]);
           ("UVWXYZabcd",
            VObj [ ("rowId", VStr "UVWXYZabcd"); ("order", VStr "r0001") ]);
           ("efghijklmn",
            VObj [ ("rowId", VStr "efghijklmn"); ("order", VStr "r0002") ]) ].
Proof. reflexivity. Qed.

(** ** Maps *)

Lemma get_set_same (m : Y.Entries) (k : string) (v : YVal) :
  Y.get (Y.set m k v) k = v.
Proof.
  unfold Y.get. induction m as [|[k' v'] m IH]; simpl.
  - now rewrite String.eqb_refl.
  - destruct (k' =? k)%string eqn:E; simpl.
    + now rewrite String.eqb_refl.
    + now rewrite E.
Qed.

Lemma get_set_other (m : Y.Entries) (k k' : string) (v : YVal) :
  k <> k' -> Y.get (Y.set m k v) k' = Y.get m k'.
Proof.
  intros Hne. unfold Y.get. induction m as [|[k0 v0] m IH]; simpl.
  - destruct (String.eqb_spec k k'); [contradiction | reflexivity].
  - destruct (String.eqb_spec k0 k) as [->|Hk]; simpl.
    + destruct (String.eqb_spec k k'); [contradiction | reflexivity].
    + destruct (String.eqb_spec k0 k'); [reflexivity | exact IH].
Qed.

Lemma set_get_id (m : Y.Entries) (k : string) (v : YVal) :
  Y.lookup k m = Some v -> Y.set m k v = m.
Proof.
  induction m as [|[k0 v0] m IH]; simpl; [discriminate|].
  destruct (String.eqb_spec k0 k) as [->|Hk].
  - now intros [= ->].
  - intros H. now rewrite IH.
Qed.

Lemma findBlockById_lookup (blocks : Blocks) (id : string) (b : Y.Entries) :
  findBlockById blocks id = Some b -> Y.lookup id blocks = Some (VYMap b).
Proof.
  unfold findBlockById, Y.get.
  destruct (Y.lookup id blocks) as [[]|]; try discriminate.
  now intros [= ->].
Qed.

Lemma findBlockById_get (blocks : Blocks) (id : string) (b : Y.Entries) :
  Y.get blocks id = VYMap b -> findBlockById blocks id = Some b.
Proof. unfold findBlockById. now intros ->. Qed.

(** ** Schema *)

Lemma truthy_true (s : string) : JS.truthy s = true <-> s <> "".
Proof.
  unfold JS.truthy. destruct (String.eqb_spec s ""); simpl; split; congruence.
Qed.

Lemma given_keepTrimmed (o : option string) :
  given (keepTrimmed o) = JS.trimmedTruthy o.
Proof.
  destruct o as [s|]; simpl; [|reflexivity].
  destruct (JS.truthy (JS.trim s)) eqn:E; simpl; [exact E | reflexivity].
Qed.

Lemma trimmedOr_truthy (dflt : string) (s : option string) :
  JS.truthy dflt = true -> JS.truthy (trimmedOr dflt s) = true.
Proof.
  intros Hd. unfold trimmedOr, JS.orStr.
  destruct (JS.truthy (JS.trim (JS.orElse s dflt))) eqn:E; assumption.
Qed.

(** What [normalizeBlockTypeInput] can return: a canonical type with no
    alias data, or one of the six aliases. *)
Lemma normalizeBlockTypeInput_cases (typeInput : string) (ti : TypeInfo) :
  normalizeBlockTypeInput typeInput = Ok ti ->
  (exists t, ti = mkTypeInfo t None None None)
  \/ ti = mkTypeInfo Heading (Some heading1) (Some 1) None
  \/ ti = mkTypeInfo Heading (Some heading2) (Some 2) None
  \/ ti = mkTypeInfo Heading (Some heading3) (Some 3) None
  \/ ti = mkTypeInfo ListT (Some bulleted_list) None (Some "bulleted")
  \/ ti = mkTypeInfo ListT (Some numbered_list) None (Some "numbered")
  \/ ti = mkTypeInfo ListT (Some todo) None (Some "todo").
Proof.
  unfold normalizeBlockTypeInput.
  destruct (find _ APPEND_BLOCK_CANONICAL_TYPE_VALUES) as [t|].
  - intros [= <-]. left. now exists t.
  - destruct (find _ APPEND_BLOCK_LEGACY_ALIAS_MAP) as [[l t]|] eqn:F;
      [|discriminate].
    apply find_some in F. destruct F as [Hin _].
    intros [= <-]. simpl in Hin.
    repeat (destruct Hin as [[= <- <-]|Hin]; [tauto|]). contradiction.
Qed.

Lemma list_alias_is_list (typeInput : string) (ti : TypeInfo) (a : string) :
  normalizeBlockTypeInput typeInput = Ok ti ->
  ti_listStyleFromAlias ti = Some a ->
  ti_type ti = ListT /\ ti_headingLevelFromAlias ti = None.
Proof.
  intros H Ha. apply normalizeBlockTypeInput_cases in H.
  destruct H as [[t ->]|[->|[->|[->|[->|[->| ->]]]]]]; simpl in *;
    try discriminate; auto.
Qed.

Lemma heading_alias_is_heading (typeInput : string) (ti : TypeInfo) (k : Z) :
  normalizeBlockTypeInput typeInput = Ok ti ->
  ti_headingLevelFromAlias ti = Some k ->
  ti_type ti = Heading /\ ti_listStyleFromAlias ti = None /\ 1 <= k <= 3.
Proof.
  intros H Hk. apply normalizeBlockTypeInput_cases in H.
  destruct H as [[t ->]|[->|[->|[->|[->|[->| ->]]]]]]; simpl in *;
    try discriminate; injection Hk as <-; repeat split; lia.
Qed.

Lemma normalizePlacement_conflict (pl : AppendPlacement) :
  conflicting pl ->
  exists e, normalizePlacement (Some pl) = Err e /\ isPlacementError e = true.
Proof.
  unfold conflicting, normalizePlacement. cbn [afterBlockId beforeBlockId index].
  rewrite !given_keepTrimmed.
  intros [[Ha Hb]|[Hi Hab]].
  - rewrite Ha, Hb. simpl. eauto.
  - destruct (index pl) as [i|]; [clear Hi | congruence].
    destruct (JS.trimmedTruthy (afterBlockId pl)) eqn:Ea,
             (JS.trimmedTruthy (beforeBlockId pl)) eqn:Eb; simpl;
      try (destruct Hab; discriminate); eauto;
      destruct (i <? 0); simpl; eauto.
Qed.

Lemma normalize_failure_is_local
    (urlParses : string -> bool) (cfg : Config) (parsed : Raw.t) (e : Error)
    (w : World) :
  normalizeAppendBlockInput urlParses parsed = Err e ->
  appendBlockInternal urlParses cfg parsed w = (Err e, w).
Proof.
  intros H. unfold appendBlockInternal, bind, liftRes. now rewrite H.
Qed.

(** C9.  A placement that gives [afterBlockId] and [beforeBlockId] together,
    or [index] together with either, is rejected by the normaliser, whatever
    the type (for a supported type the rejection is one of the three
    placement errors).  Every failure of normalisation ends
    [appendBlockInternal] with that error before anything is sent: the trace
    and the pending replies are untouched. *)
Theorem conflicting_placement_rejected_locally :
  forall (urlParses : string -> bool) (cfg : Config),
    (forall (parsed : Raw.t) (pl : AppendPlacement) (w : World),
        Raw.placement parsed = Some pl ->
        conflicting pl ->
        (exists e, normalizeAppendBlockInput urlParses parsed = Err e
                   /\ appendBlockInternal urlParses cfg parsed w = (Err e, w))
        /\ (forall ti, normalizeBlockTypeInput (Raw.type parsed) = Ok ti ->
            exists e, normalizeAppendBlockInput urlParses parsed = Err e
                      /\ isPlacementError e = true))
    /\ (forall (parsed : Raw.t) (e : Error) (w : World),
           normalizeAppendBlockInput urlParses parsed = Err e ->
           appendBlockInternal urlParses cfg parsed w = (Err e, w)
           /\ trace (snd (appendBlockInternal urlParses cfg parsed w)) = trace w
           /\ replies (snd (appendBlockInternal urlParses cfg parsed w))
              = replies w).
Proof.
  intros urlParses cfg. split.
  - intros parsed pl w Hpl Hc.
    destruct (normalizePlacement_conflict pl Hc) as [e [He Hp]].
    assert (Hty : forall ti,
               normalizeBlockTypeInput (Raw.type parsed) = Ok ti ->
               normalizeAppendBlockInput urlParses parsed = Err e).
    { intros ti Hti. unfold normalizeAppendBlockInput.
      rewrite Hti, Hpl. cbn [rbind]. now rewrite He. }
    split.
    + destruct (normalizeBlockTypeInput (Raw.type parsed)) as [ti|e0] eqn:Hti.
      * exists e. split; [now apply (Hty ti)|].
        apply normalize_failure_is_local. now apply (Hty ti).
      * assert (Hn : normalizeAppendBlockInput urlParses parsed = Err e0).
        { unfold normalizeAppendBlockInput. now rewrite Hti. }
        exists e0. split; [exact Hn|]. now apply normalize_failure_is_local.
    + intros ti Hti. exists e. split; [now apply (Hty ti) | exact Hp].
  - intros parsed e w H.
    rewrite (normalize_failure_is_local urlParses cfg parsed e w H).
    repeat split.
Qed.

(** C10.  Under a list alias ([bulleted_list], [numbered_list], [todo]) an
    explicit [style] changes nothing: the request normalises exactly as it
    does without it, and the list style is the alias's.  Under a heading
    alias an explicit [level] wins: the heading level is the given level
    (clamped to 1..6), not the alias's. *)
Theorem alias_precedence_list_versus_heading :
  forall (urlParses : string -> bool),
    (forall (parsed : Raw.t) (ti : TypeInfo) (a s : string),
        normalizeBlockTypeInput (Raw.type parsed) = Ok ti ->
        ti_listStyleFromAlias ti = Some a ->
        normalizeAppendBlockInput urlParses (withStyle parsed (Some s))
        = normalizeAppendBlockInput urlParses (withStyle parsed None)
        /\ (forall n,
               normalizeAppendBlockInput urlParses (withStyle parsed (Some s))
               = Ok n ->
               Norm.listStyle n = a))
    /\ (forall (parsed : Raw.t) (ti : TypeInfo) (k l : Z) (n : Norm.t),
           normalizeBlockTypeInput (Raw.type parsed) = Ok ti ->
           ti_headingLevelFromAlias ti = Some k ->
           Raw.level parsed = Some l ->
           normalizeAppendBlockInput urlParses parsed = Ok n ->
           Norm.headingLevel n = Z.max 1 (Z.min 6 l)
           /\ (1 <= l <= 6 -> Norm.headingLevel n = l)).
Proof.
  intros urlParses. split.
  - intros parsed ti a s Hti Ha.
    destruct (list_alias_is_list _ _ _ Hti Ha) as [Hty _].
    assert (Hb : forall st,
               buildNormalized (withStyle parsed st) ti
               = buildNormalized (withStyle parsed None) ti).
    { intros st. unfold buildNormalized. simpl. now rewrite Ha. }
    assert (Hv : forall pl,
               validateNormalizedAppendBlockInput urlParses
                 (buildNormalized (withStyle parsed None) ti pl)
                 (withStyle parsed (Some s))
               = validateNormalizedAppendBlockInput urlParses
                   (buildNormalized (withStyle parsed None) ti pl)
                   (withStyle parsed None)).
    { intros pl. unfold validateNormalizedAppendBlockInput. simpl.
      rewrite Hty. reflexivity. }
    assert (Heq : normalizeAppendBlockInput urlParses (withStyle parsed (Some s))
                  = normalizeAppendBlockInput urlParses (withStyle parsed None)).
    { unfold normalizeAppendBlockInput. simpl. rewrite Hti. simpl.
      destruct (normalizePlacement (Raw.placement parsed)) as [pl|e]; simpl;
        [|reflexivity].
      rewrite (Hb (Some s)), Hv. reflexivity. }
    split; [exact Heq|].
    intros n Hn. rewrite Heq in Hn. unfold normalizeAppendBlockInput in Hn.
    simpl in Hn. rewrite Hti in Hn. simpl in Hn.
    destruct (normalizePlacement (Raw.placement parsed)) as [pl|e]; simpl in Hn;
      [|discriminate].
    destruct (validateNormalizedAppendBlockInput _ _ _); simpl in Hn;
      [|discriminate].
    injection Hn as <-. simpl. now rewrite Ha.
  - intros parsed ti k l n Hti Hk Hl Hn.
    unfold normalizeAppendBlockInput in Hn. rewrite Hti in Hn. simpl in Hn.
    destruct (normalizePlacement (Raw.placement parsed)) as [pl|e]; simpl in Hn;
      [|discriminate].
    destruct (validateNormalizedAppendBlockInput _ _ _); simpl in Hn;
      [|discriminate].
    injection Hn as <-. simpl. rewrite Hl. simpl. split; [reflexivity | lia].
Qed.

(** C8, as stated, fails: no name, no mimeType, and the request is
    accepted. *)
Lemma attachment_without_name_is_accepted :
  Raw.name attachmentOnlySource = None
  /\ Raw.mimeType attachmentOnlySource = None
  /\ exists n,
       normalizeAppendBlockInput (fun _ => false) attachmentOnlySource = Ok n
       /\ Norm.type n = Attachment
       /\ Norm.name n = "attachment"
       /\ Norm.mimeType n = "application/octet-stream".
Proof.
  repeat split. eexists. split; [vm_compute; reflexivity|].
  repeat split.
Qed.

(** Walk down a chain of [throwIf] checks: a check that throws ends the
    search for an error, the others are passed. *)
Ltac step_checks :=
  repeat (cbn [throwIf rbind negb andb orb];
          match goal with
          | |- exists _, Err _ = Err _ => solve [eauto]
          | |- context [throwIf ?c _] => destruct c
          end).

Lemma media_type_info (typeInput : string) (ti : TypeInfo) :
  normalizeBlockTypeInput typeInput = Ok ti ->
  ti_type ti = Attachment \/ ti_type ti = Image ->
  ti = mkTypeInfo (ti_type ti) None None None.
Proof.
  intros H Ht. apply normalizeBlockTypeInput_cases in H.
  destruct H as [[t ->]|[->|[->|[->|[->|[->| ->]]]]]]; simpl in *;
    try reflexivity; destruct Ht; discriminate.
Qed.

(** For the two media types the validator reads neither [raw.name] nor
    [raw.mimeType], and the normalised name and mimeType are never empty. *)
Lemma validate_media_ignores_name
    (urlParses : string -> bool) (parsed : Raw.t) (ti : TypeInfo)
    (pl : option AppendPlacement) (name mime : option string) :
  ti_type ti = Attachment \/ ti_type ti = Image ->
  validateNormalizedAppendBlockInput urlParses
    (buildNormalized (withNameAndMime parsed name mime) ti pl)
    (withNameAndMime parsed name mime)
  = validateNormalizedAppendBlockInput urlParses
      (buildNormalized parsed ti pl) parsed.
Proof.
  intros Ht.
  unfold validateNormalizedAppendBlockInput, buildNormalized, withNameAndMime.
  cbn -[trimmedOr JS.truthy JS.trim
        JS.includes Z.max Z.min flooredAtLeast JS.orStr].
  rewrite !trimmedOr_truthy by reflexivity.
  destruct Ht as [-> | ->]; reflexivity.
Qed.

(** C8, amended.  An attachment or image request with no blob id, or a blank
    one, fails validation.  The name and mimeType never decide: validation
    succeeds with them exactly when it succeeds without them, a request that
    gives neither is normalised to ["attachment"] and
    ["application/octet-stream"], and the rejection that asks for them is
    never raised. *)
Theorem media_needs_sourceId_and_name_is_defaulted :
  forall (urlParses : string -> bool) (parsed : Raw.t) (ti : TypeInfo),
    normalizeBlockTypeInput (Raw.type parsed) = Ok ti ->
    ti_type ti = Attachment \/ ti_type ti = Image ->
    (JS.trim (JS.orElse (Raw.sourceId parsed) "") = "" ->
     exists e, normalizeAppendBlockInput urlParses parsed = Err e)
    /\ (forall name mime,
           isOk (normalizeAppendBlockInput urlParses
                   (withNameAndMime parsed name mime))
           = isOk (normalizeAppendBlockInput urlParses parsed))
    /\ (forall n,
           normalizeAppendBlockInput urlParses
             (withNameAndMime parsed None None) = Ok n ->
           Norm.name n = "attachment"
           /\ Norm.mimeType n = "application/octet-stream")
    /\ (forall e,
           normalizeAppendBlockInput urlParses parsed = Err e ->
           e <> EAttachmentNameMime).
Proof.
  intros urlParses parsed ti Hti Ht.
  split; [|split; [|split]].
  - (* no blob id *)
    intros Hsrc. unfold normalizeAppendBlockInput. rewrite Hti. cbn [rbind].
    destruct (normalizePlacement (Raw.placement parsed)) as [pl|e];
      cbn [rbind]; [|eauto].
    unfold validateNormalizedAppendBlockInput, buildNormalized.
    cbn -[trimmedOr JS.truthy JS.trim
          JS.includes Z.max Z.min flooredAtLeast JS.orStr].
    rewrite Hsrc. change (JS.truthy "") with false.
    destruct Ht as [-> | ->]; cbn [tyEqb BlockType_beq negb orb andb prefix typeName urlAllowed existsb requiresUrl];
      step_checks.
  - (* name and mimeType do not decide *)
    intros name mime. unfold normalizeAppendBlockInput.
    change (Raw.type (withNameAndMime parsed name mime)) with (Raw.type parsed).
    change (Raw.placement (withNameAndMime parsed name mime))
      with (Raw.placement parsed).
    rewrite Hti. cbn [rbind].
    destruct (normalizePlacement (Raw.placement parsed)) as [pl|e];
      cbn [rbind]; [|reflexivity].
    rewrite validate_media_ignores_name by exact Ht.
    destruct (validateNormalizedAppendBlockInput _ _ _); reflexivity.
  - (* the defaults *)
    intros n Hn. unfold normalizeAppendBlockInput in Hn.
    change (Raw.type (withNameAndMime parsed None None))
      with (Raw.type parsed) in Hn.
    rewrite Hti in Hn. cbn [rbind] in Hn.
    destruct (normalizePlacement _) as [pl|e]; cbn [rbind] in Hn;
      [|discriminate].
    destruct (validateNormalizedAppendBlockInput _ _ _); cbn [rbind] in Hn;
      [|discriminate].
    injection Hn as <-. split; reflexivity.
  - (* the name and mimeType rejection is never raised *)
    intros e. unfold normalizeAppendBlockInput. rewrite Hti. cbn [rbind].
    unfold normalizePlacement.
    destruct (Raw.placement parsed) as [pl0|]; cbn [rbind].
    all: unfold validateNormalizedAppendBlockInput, buildNormalized.
    all: cbn -[trimmedOr JS.truthy JS.trim keepTrimmed given
               JS.includes Z.max Z.min flooredAtLeast JS.orStr Z.ltb].
    all: rewrite !trimmedOr_truthy by reflexivity.
    all: destruct Ht as [-> | ->];
      cbn [tyEqb BlockType_beq negb orb andb prefix typeName urlAllowed existsb requiresUrl].
    all: repeat match goal with
           | |- context [throwIf ?c _] => destruct c; cbn [throwIf rbind]
           | |- context [match index ?p with _ => _ end] =>
               destruct (index p); cbn [rbind]
           | |- context [if ?c then Ok None else _] => destruct c; cbn [rbind]
           | |- Err _ = Err _ -> _ => intros [= <-]; discriminate
           | |- Ok _ = Err _ -> _ => discriminate
           end.
Qed.

(** ** Placement resolver *)

Lemma strIs_true (v : YVal) (s : string) : strIs v s = true <-> v = VStr s.
Proof.
  destruct v; simpl; try (split; [discriminate | intros [=]]).
  destruct (String.eqb_spec s0 s); split; congruence.
Qed.

Lemma strIs_false (v : YVal) (s : string) : strIs v s = false <-> v <> VStr s.
Proof.
  rewrite <- strIs_true. destruct (strIs v s); split; congruence.
Qed.

Lemma containment_errors (pf : YVal) (t : BlockType) (e : Error) :
  containment pf t = Err e -> isContainmentError e = true.
Proof.
  unfold containment.
  repeat match goal with
         | |- context [throwIf ?c _] => destruct c; cbn [throwIf rbind]
         end; intros [= <-]; reflexivity.
Qed.

Lemma strIs_spec (v : YVal) (s : string) : reflect (v = VStr s) (strIs v s).
Proof.
  destruct (strIs v s) eqn:E; constructor.
  - now apply strIs_true.
  - now apply strIs_false.
Qed.

Lemma containment_iff (pf : YVal) (t : BlockType) :
  (exists e, containment pf t = Err e) <-> violatesContainment pf t.
Proof.
  unfold containment, violatesContainment, isCanvasType.
  destruct (strIs_spec pf "affine:page") as [Ep|Ep];
    destruct (strIs_spec pf "affine:surface") as [Es|Es];
    destruct t; cbn; (split; [intros [e He] | intros Hv]);
      try discriminate He;
      try (eexists; reflexivity);
      try solve [intuition (congruence || discriminate)].
Qed.

Lemma containment_canvas_under_surface (t : BlockType) :
  isCanvasType t = true -> containment (VStr "affine:surface") t = Ok tt.
Proof. destruct t; simpl; (discriminate || reflexivity). Qed.

Lemma containment_content_under_note (t : BlockType) :
  isCanvasType t = false -> tyEqb t Note = false ->
  containment (VStr "affine:note") t = Ok tt.
Proof. destruct t; simpl; (discriminate || reflexivity). Qed.

Lemma ensureChildrenArray_get (b : Y.Entries) (k : string) :
  k <> "sys:children" -> Y.get (fst (ensureChildrenArray b)) k = Y.get b k.
Proof.
  intros Hk. unfold ensureChildrenArray.
  destruct (Y.get b "sys:children"); simpl; try reflexivity;
    apply get_set_other; congruence.
Qed.

Lemma ensureChildrenArray_children (b : Y.Entries) :
  Y.get (fst (ensureChildrenArray b)) "sys:children"
  = VYArr (snd (ensureChildrenArray b)).
Proof.
  unfold ensureChildrenArray.
  destruct (Y.get b "sys:children") eqn:E; simpl;
    try apply get_set_same. exact E.
Qed.

(** [placeUnder], written out. *)
Lemma placeUnder_unfold (n : Norm.t) (pid ref : string) (mode : Mode)
    (s : DocState) :
  placeUnder n (pid, ref, mode) s =
  match findBlockById (blocks s) pid with
  | None => (Err (EParentNotFound pid), s)
  | Some pb =>
      match (if Norm.strict n
             then containment (Y.get pb "sys:flavour") (Norm.type n)
             else Ok tt) with
      | Err e => (Err e, s)
      | Ok _ =>
          let pb1 := fst (ensureChildrenArray pb) in
          let children := snd (ensureChildrenArray pb) in
          let s' := mkDocState (Y.set (blocks s) pid (VYMap pb1)) (rng s) in
          match insertionIndex mode children ref pid (Norm.placement n)
                               (Norm.strict n) with
          | Err e => (Err e, s')
          | Ok i => (Ok (Ctx.mk pid pb1 children i), s')
          end
      end
  end.
Proof.
  unfold placeUnder, bind, getS, putS, liftRes, throw, ret.
  destruct (findBlockById (blocks s) pid) as [pb|]; [|reflexivity].
  destruct (if Norm.strict n then _ else _); [|reflexivity].
  destruct (ensureChildrenArray pb) as [pb1 children]. simpl.
  destruct (insertionIndex _ _ _ _ _ _); reflexivity.
Qed.

Lemma insertionIndex_errors (mode : Mode) (children : list YVal)
    (ref pid : string) (pl : option AppendPlacement) (strict : bool) (e : Error) :
  insertionIndex mode children ref pid pl strict = Err e ->
  isContainmentError e = false.
Proof.
  unfold insertionIndex.
  destruct mode;
    repeat match goal with
           | |- context [if ?c then _ else _] => destruct c
           end; intros [= <-]; reflexivity.
Qed.

Lemma referenceParent_errors (blocks : Blocks) (ref : string) (nf e : Error) :
  isContainmentError nf = false ->
  referenceParent blocks ref nf = Err e -> isContainmentError e = false.
Proof.
  intros Hnf. unfold referenceParent.
  destruct (findBlockById blocks ref) as [rb|]; [|now intros [= <-]].
  destruct (Y.get rb "sys:parent"); try (now intros [= <-]).
  destruct (JS.truthy s); [discriminate | now intros [= <-]].
Qed.

Lemma explicitParent_errors (blocks : Blocks) (pl : option AppendPlacement)
    (e : Error) :
  explicitParent blocks pl = Err e -> isContainmentError e = false.
Proof.
  unfold explicitParent. destruct pl as [pl|]; [|discriminate].
  destruct (given (afterBlockId pl)).
  - destruct (referenceParent _ _ _) eqn:E; simpl; [discriminate|].
    intros [= <-]. eapply referenceParent_errors; [|exact E]. reflexivity.
  - destruct (given (beforeBlockId pl)).
    + destruct (referenceParent _ _ _) eqn:E; simpl; [discriminate|].
      intros [= <-]. eapply referenceParent_errors; [|exact E]. reflexivity.
    + destruct (given (parentId pl)); discriminate.
Qed.

(** What storing a new container under the page leaves at the new id: a
    block of the flavour the body was given. *)
Lemma storeUnderPage_flavour (pageId newId : string) (body : Y.Entries)
    (s s1 : DocState) (f : YVal) :
  storeUnderPage pageId newId body s = (Ok tt, s1) ->
  Y.get body "sys:flavour" = f ->
  exists pb, findBlockById (blocks s1) newId = Some pb
             /\ Y.get pb "sys:flavour" = f.
Proof.
  unfold storeUnderPage. intros H Hf.
  destruct (Y.get (Y.set (blocks s) newId (VYMap body)) pageId) as [| | | | | | |page| |] eqn:Hp;
    try discriminate.
  destruct (ensureChildrenArray page) as [page1 cs] eqn:Hc.
  injection H as <-. simpl.
  destruct (String.eqb_spec pageId newId) as [->|Hne].
  - rewrite get_set_same in Hp. injection Hp as <-.
    eexists. split; [apply findBlockById_get, get_set_same|].
    rewrite get_set_other by discriminate.
    change page1 with (fst (page1, cs)). rewrite <- Hc.
    rewrite ensureChildrenArray_get by discriminate. exact Hf.
  - exists body. split; [|exact Hf].
    apply findBlockById_get. rewrite get_set_other by exact Hne.
    apply get_set_same.
Qed.

Lemma storeUnderPage_errors (pageId newId : string) (body : Y.Entries)
    (s s1 : DocState) (e : Error) :
  storeUnderPage pageId newId body s = (Err e, s1) -> e = ETypeError.
Proof.
  unfold storeUnderPage.
  destruct (Y.get _ pageId); try (now intros [= <-]).
  destruct (ensureChildrenArray _). discriminate.
Qed.

(** The implicit parent is either a block found as the document stands, or
    a container just created, which then sits under its own id with the
    flavour the kind asks for. *)
Lemma implicitParent_ok (t : BlockType) (s s1 : DocState) (p : string) :
  implicitParent t s = (Ok p, s1) ->
  s1 = s
  \/ (exists pb, findBlockById (blocks s1) p = Some pb
                 /\ Y.get pb "sys:flavour"
                    = VStr (if isCanvasType t then "affine:surface"
                            else "affine:note")
                 /\ tyEqb t Note = false).
Proof.
  unfold implicitParent.
  destruct (isCanvasType t) eqn:Ec.
  - unfold ensureSurfaceBlock, bind, getS, ret, throw, freshId.
    destruct (foundId (findBlockIdByFlavour (blocks s) "affine:surface")).
    + intros [= <- <-]. now left.
    + destruct (foundId (findBlockIdByFlavour (blocks s) "affine:page"))
        as [pageId|]; [|discriminate].
      destruct (generateId (rng s)) as [sid r1].
      destruct (storeUnderPage _ _ _ _) as [[[]|e] s2] eqn:Hs; [|discriminate].
      intros [= <- <-]. right.
      destruct (storeUnderPage_flavour _ _ _ _ _ _ Hs eq_refl) as [pb [H1 H2]].
      exists pb. repeat split; try assumption.
      destruct t; (discriminate || reflexivity).
  - destruct (tyEqb t Note) eqn:En.
    + unfold bind, getS, ret, throw.
      destruct (foundId _); [|discriminate]. intros [= <- <-]. now left.
    + unfold ensureNoteBlock, bind, getS, ret, throw, freshId.
      destruct (foundId (findBlockIdByFlavour (blocks s) "affine:note")).
      * intros [= <- <-]. now left.
      * destruct (foundId (findBlockIdByFlavour (blocks s) "affine:page"))
          as [pageId|]; [|discriminate].
        destruct (generateId (rng s)) as [nid r1].
        destruct (storeUnderPage _ _ _ _) as [[[]|e] s2] eqn:Hs; [|discriminate].
        intros [= <- <-]. right.
        destruct (storeUnderPage_flavour _ _ _ _ _ _ Hs eq_refl) as [pb [H1 H2]].
        exists pb. repeat split; assumption.
Qed.

Lemma implicitParent_errors (t : BlockType) (s s1 : DocState) (e : Error) :
  implicitParent t s = (Err e, s1) -> isContainmentError e = false.
Proof.
  unfold implicitParent, ensureSurfaceBlock, ensureNoteBlock,
    bind, getS, ret, throw, freshId.
  destruct (isCanvasType t); [|destruct (tyEqb t Note)];
    repeat match goal with
           | |- context [match foundId ?x with _ => _ end] => destruct (foundId x)
           | |- context [let '(_, _) := generateId ?r in _] =>
               destruct (generateId r)
           | |- context [storeUnderPage ?a ?b ?c ?d] =>
               let H := fresh "Hs" in
               destruct (storeUnderPage a b c d) as [[[]|?] ?] eqn:H;
               [|apply storeUnderPage_errors in H; subst]
           end;
    try discriminate; intros [= <- <-]; reflexivity.
Qed.

(** [resolveParent], written out. *)
Lemma resolveParent_unfold (n : Norm.t) (s : DocState) :
  resolveParent n s =
  match explicitParent (blocks s) (Norm.placement n) with
  | Err e => (Err e, s)
  | Ok (Some p, ref, mode) => (Ok (p, ref, mode), s)
  | Ok (None, ref, mode) =>
      match implicitParent (Norm.type n) s with
      | (Ok p, s1) => (Ok (p, ref, mode), s1)
      | (Err e, s1) => (Err e, s1)
      end
  end.
Proof.
  unfold resolveParent, bind, getS, liftRes, ret.
  destruct (explicitParent _ _) as [[[[p|] ref] mode]|e]; try reflexivity;
    destruct (implicitParent _ s) as [[p|e] s1]; reflexivity.
Qed.

(** A containment rejection leaves the document as it was loaded. *)
Lemma containment_error_before_mutation (n : Norm.t) (s s' : DocState)
    (e : Error) :
  resolveInsertContext n s = (Err e, s') ->
  isContainmentError e = true ->
  s' = s.
Proof.
  unfold resolveInsertContext, bind. rewrite resolveParent_unfold.
  destruct (explicitParent _ _) as [[[[p|] ref] mode]|e0] eqn:He.
  - rewrite placeUnder_unfold.
    destruct (findBlockById _ p) as [pb|]; [|intros [= <- <-]; discriminate].
    destruct (if Norm.strict n then _ else _) as [[]|e1];
      [|now intros [= <- <-]].
    cbv zeta.
    destruct (insertionIndex _ _ _ _ _ _) eqn:Hi; [discriminate|].
    intros [= <- <-] Hc. apply insertionIndex_errors in Hi. congruence.
  - destruct (implicitParent _ s) as [[p|e1] s1] eqn:Hp.
    + rewrite placeUnder_unfold.
      destruct (findBlockById _ p) as [pb|] eqn:Hb;
        [|intros [= <- <-]; discriminate].
      destruct (implicitParent_ok _ _ _ _ Hp) as [->|[pb' [Hb' [Hf Hn]]]].
      * destruct (if Norm.strict n then _ else _) as [[]|e1];
          [|now intros [= <- <-]].
        cbv zeta.
        destruct (insertionIndex _ _ _ _ _ _) eqn:Hi; [discriminate|].
        intros [= <- <-] Hc. apply insertionIndex_errors in Hi. congruence.
      * rewrite Hb' in Hb. injection Hb as <-. rewrite Hf.
        assert (Hok : (if Norm.strict n
                       then containment
                              (VStr (if isCanvasType (Norm.type n)
                                     then "affine:surface" else "affine:note"))
                              (Norm.type n)
                       else Ok tt) = Ok tt).
        { destruct (Norm.strict n); [|reflexivity].
          destruct (isCanvasType (Norm.type n)) eqn:Ec.
          - now apply containment_canvas_under_surface.
          - now apply containment_content_under_note. }
        rewrite Hok. cbv zeta.
        destruct (insertionIndex _ _ _ _ _ _) eqn:Hi; [discriminate|].
        intros [= <- <-] Hc. apply insertionIndex_errors in Hi. congruence.
    + intros [= <- <-] Hc. apply implicitParent_errors in Hp. congruence.
  - intros [= <- <-] Hc. apply explicitParent_errors in He. congruence.
Qed.

(** C1.  In strict mode, once the parent is resolved to a block of the
    document, the resolver fails with a containment error exactly when the
    parent is a page and the kind is not note, or the parent is a surface
    and the kind is neither frame nor edgeless_text, or the kind is note and
    the parent is not a page, or the kind is frame or edgeless_text and the
    parent is not a surface.  A containment error leaves the document and
    the random source as they were, and the append stops there: no block is
    built or linked. *)
Theorem strict_containment_checked_before_building :
  forall (n : Norm.t) (s : DocState),
    (forall pid ref mode s1 pb,
        Norm.strict n = true ->
        resolveParent n s = (Ok (pid, ref, mode), s1) ->
        findBlockById (blocks s1) pid = Some pb ->
        ((exists e, fst (resolveInsertContext n s) = Err e
                    /\ isContainmentError e = true)
         <-> violatesContainment (Y.get pb "sys:flavour") (Norm.type n)))
    /\ (forall e s',
           resolveInsertContext n s = (Err e, s') ->
           isContainmentError e = true ->
           s' = s /\ appendToDocument n s = (Err e, s)).
Proof.
  intros n s. split.
  - intros pid ref mode s1 pb Hstrict Hr Hb.
    unfold resolveInsertContext, bind. rewrite Hr, placeUnder_unfold, Hb, Hstrict.
    rewrite <- containment_iff.
    destruct (containment _ _) as [[]|e0] eqn:Hc; cbv zeta.
    + destruct (insertionIndex _ _ _ _ _ _) eqn:Hi; simpl.
      * split; [intros [e [[=] _]] | intros [e [=]]].
      * apply insertionIndex_errors in Hi.
        split; [intros [e1 [[= <-] He1]]; congruence | intros [e1 [=]]].
    + simpl. split; [eauto|].
      intros _. exists e0. split; [reflexivity|].
      now apply containment_errors in Hc.
  - intros e s' Hr Hc.
    pose proof (containment_error_before_mutation n s s' e Hr Hc) as ->.
    split; [reflexivity|].
    unfold appendToDocument, bind. now rewrite Hr.
Qed.

(** ** Linking the new block *)

Lemma insert_at_length (a : list YVal) (x : YVal) :
  Y.insert a (List.length a) x = Y.push a x.
Proof.
  unfold Y.insert, Y.push. now rewrite firstn_all, skipn_all.
Qed.

Lemma createBlock_blockId (p : string) (n : Norm.t) (r : Rng) :
  Created.blockId (fst (createBlock p n r)) = fst (generateId r).
Proof.
  unfold createBlock. destruct (generateId r) as [id r1].
  destruct (Norm.type n); try reflexivity.
  destruct (tableAxis _ _ _ _ _ _) as [rows r2].
  destruct (tableAxis _ _ _ _ _ _) as [columns r3]. reflexivity.
Qed.

Lemma appendToDocument_unfold (n : Norm.t) (s : DocState) :
  appendToDocument n s =
  match resolveInsertContext n s with
  | (Err e, s1) => (Err e, s1)
  | (Ok ctx, s1) =>
      (Ok (ctx, fst (createBlock (Ctx.parentId ctx) n (rng s1))),
       mkDocState
         (linkBlock ctx (fst (createBlock (Ctx.parentId ctx) n (rng s1)))
                    (blocks s1))
         (snd (createBlock (Ctx.parentId ctx) n (rng s1))))
  end.
Proof.
  unfold appendToDocument, bind, getS, putS, ret.
  destruct (resolveInsertContext n s) as [[ctx|e] s1]; [|reflexivity].
  destruct (createBlock _ _ _). reflexivity.
Qed.

Lemma indexOfChildFrom_bound (children : list YVal) (ref : string) (k : Z) :
  0 <= indexOfChildFrom children ref k ->
  k <= indexOfChildFrom children ref k < k + Z.of_nat (List.length children).
Proof.
  revert k. induction children as [|entry rest IH]; intros k; simpl.
  - lia.
  - destruct (match entry with
              | VStr s => (s =? ref)%string
              | VJsArr l => existsb (fun child => strIs child ref) l
              | _ => false
              end).
    + lia.
    + intros H. specialize (IH (k + 1) H). lia.
Qed.

Lemma linkBlock_parent (ctx : Ctx.t) (created : Created.t) (blocks0 : Blocks) :
  Created.blockId created <> Ctx.parentId ctx ->
  0 <= Ctx.insertIndex ctx <= Z.of_nat (List.length (Ctx.children ctx)) ->
  findBlockById (linkBlock ctx created blocks0) (Ctx.parentId ctx)
  = Some (Y.set (Ctx.parentBlock ctx) "sys:children"
                (VYArr (Y.insert (Ctx.children ctx)
                                 (Z.to_nat (Ctx.insertIndex ctx))
                                 (VStr (Created.blockId created))))).
Proof.
  intros Hne Hrange. unfold linkBlock.
  destruct (String.eqb_spec (Created.blockId created) (Ctx.parentId ctx));
    [contradiction|].
  apply findBlockById_get. rewrite get_set_same. do 3 f_equal.
  destruct (Z.geb_spec (Ctx.insertIndex ctx)
                       (Z.of_nat (List.length (Ctx.children ctx)))); [|reflexivity].
  replace (Z.to_nat (Ctx.insertIndex ctx)) with (List.length (Ctx.children ctx))
    by lia.
  symmetry. apply insert_at_length.
Qed.

Lemma linkBlock_new (ctx : Ctx.t) (created : Created.t) (blocks0 : Blocks) :
  Created.blockId created <> Ctx.parentId ctx ->
  findBlockById (linkBlock ctx created blocks0) (Created.blockId created)
  = Some (Created.block created).
Proof.
  intros Hne. unfold linkBlock.
  destruct (String.eqb_spec (Created.blockId created) (Ctx.parentId ctx));
    [contradiction|].
  apply findBlockById_get. rewrite get_set_other by congruence.
  apply get_set_same.
Qed.

Lemma linkBlock_others (ctx : Ctx.t) (created : Created.t) (blocks0 : Blocks)
    (k : string) :
  k <> Created.blockId created -> k <> Ctx.parentId ctx ->
  Y.get (linkBlock ctx created blocks0) k = Y.get blocks0 k.
Proof.
  intros H1 H2. unfold linkBlock.
  destruct (String.eqb_spec (Created.blockId created) (Ctx.parentId ctx)).
  - apply get_set_other. congruence.
  - rewrite !get_set_other by congruence. reflexivity.
Qed.

(** Once the parent is resolved to an existing block that passes the
    containment check, and the index is computed, the append succeeds and
    puts the new id at that index. *)
Lemma append_under (n : Norm.t) (s s1 : DocState) (p ref : string)
    (mode : Mode) (pb : Y.Entries) (i : Z) :
  resolveParent n s = (Ok (p, ref, mode), s1) ->
  findBlockById (blocks s1) p = Some pb ->
  (Norm.strict n = true ->
   containment (Y.get pb "sys:flavour") (Norm.type n) = Ok tt) ->
  insertionIndex mode (childrenOf pb) ref p (Norm.placement n) (Norm.strict n)
  = Ok i ->
  0 <= i <= Z.of_nat (List.length (childrenOf pb)) ->
  fst (generateId (rng s1)) <> p ->
  exists ctx created s',
    appendToDocument n s = (Ok (ctx, created), s')
    /\ Ctx.parentId ctx = p
    /\ Ctx.insertIndex ctx = i
    /\ Created.blockId created = fst (generateId (rng s1))
    /\ childPlacedAt s' p pb (Z.to_nat i) (Created.blockId created)
    /\ findBlockById (blocks s') (Created.blockId created)
       = Some (Created.block created)
    /\ (forall k, k <> p -> k <> Created.blockId created ->
                  Y.get (blocks s') k = Y.get (blocks s1) k).
Proof.
  intros Hr Hb Hc Hi Hrange Hfresh.
  rewrite appendToDocument_unfold.
  unfold resolveInsertContext, bind. rewrite Hr, placeUnder_unfold, Hb.
  assert (Hc' : (if Norm.strict n
                 then containment (Y.get pb "sys:flavour") (Norm.type n)
                 else Ok tt) = Ok tt).
  { destruct (Norm.strict n); [now apply Hc | reflexivity]. }
  rewrite Hc'. cbv zeta. fold (childrenOf pb). rewrite Hi.
  cbn [Ctx.parentId rng blocks].
  set (ctx := Ctx.mk p (fst (ensureChildrenArray pb)) (childrenOf pb) i).
  set (created := fst (createBlock p n (rng s1))).
  assert (Hid : Created.blockId created = fst (generateId (rng s1)))
    by apply createBlock_blockId.
  assert (Hne : Created.blockId created <> Ctx.parentId ctx)
    by (rewrite Hid; exact Hfresh).
  do 3 eexists. split; [reflexivity|].
  repeat split; try assumption.
  - unfold childPlacedAt. cbn [blocks].
    apply (linkBlock_parent ctx created); assumption.
  - cbn [blocks]. apply (linkBlock_new ctx created). exact Hne.
  - intros k Hk1 Hk2. cbn [blocks].
    rewrite (linkBlock_others ctx created) by assumption.
    apply get_set_other. congruence.
Qed.

(** ** Placement by reference (C2) *)

Lemma explicitParent_reference (blocks0 : Blocks) (pl : AppendPlacement)
    (side : Side) (R : string) :
  refersTo pl side R ->
  explicitParent blocks0 (Some pl)
  = rbind (referenceParent blocks0 R (notFoundError side R))
          (fun P => Ok (Some P, R, modeOf side)).
Proof.
  intros [HR Hside]. unfold explicitParent.
  apply truthy_true in HR.
  destruct side; simpl in Hside.
  - rewrite Hside. simpl. rewrite HR. reflexivity.
  - destruct Hside as [Ha Hb]. rewrite Ha, Hb. simpl. rewrite HR. reflexivity.
Qed.

(** C2, as stated, fails: the note exists, its parent is the page and the
    note is listed among the page's children, yet a strict paragraph placed
    after the note is rejected and nothing is inserted. *)
Lemma paragraph_after_note_is_rejected :
  (exists rb, findBlockById (blocks demoDocument) "N" = Some rb
              /\ Y.get rb "sys:parent" = VStr "P")
  /\ (exists pb, findBlockById (blocks demoDocument) "P" = Some pb
                 /\ indexOfChild (childrenOf pb) "N" = 1)
  /\ exists n,
       normalizeAppendBlockInput (fun _ => false) paragraphAfterNote = Ok n
       /\ Norm.placement n = Some (mkPlacement None (Some "N") None None)
       /\ appendToDocument n demoDocument
          = (Err (ECannotAppendUnderPage Paragraph), demoDocument).
Proof.
  split; [eexists; split; reflexivity|].
  split; [eexists; split; reflexivity|].
  eexists. split; [vm_compute; reflexivity|].
  split; reflexivity.
Qed.

(** C2, amended.  For a placement after (resp. before) block [R]: when [R]
    is a block with a non-empty parent id [P], [P] is a block of the
    document, [R] is listed among [P]'s children, and in strict mode the
    containment rules allow the kind under [P], the new block is put into
    [P]'s children at [R]'s index plus one (resp. at [R]'s index).  When [R]
    is not a block, has no parent, or is not listed among [P]'s children,
    the append fails, whatever the kind.  Where the block lands is stated
    for a generated id other than [P]. *)
Theorem placement_by_reference :
  forall (n : Norm.t) (s : DocState) (pl : AppendPlacement) (side : Side)
         (R : string),
    Norm.placement n = Some pl ->
    refersTo pl side R ->
    (forall rb P pb,
        findBlockById (blocks s) R = Some rb ->
        Y.get rb "sys:parent" = VStr P -> P <> "" ->
        findBlockById (blocks s) P = Some pb ->
        0 <= indexOfChild (childrenOf pb) R ->
        (Norm.strict n = true ->
         containment (Y.get pb "sys:flavour") (Norm.type n) = Ok tt) ->
        fst (generateId (rng s)) <> P ->
        exists ctx created s',
          appendToDocument n s = (Ok (ctx, created), s')
          /\ Ctx.parentId ctx = P
          /\ Ctx.insertIndex ctx = indexOfChild (childrenOf pb) R + offset side
          /\ childPlacedAt s' P pb
               (Z.to_nat (indexOfChild (childrenOf pb) R + offset side))
               (Created.blockId created))
    /\ ((findBlockById (blocks s) R = None
         \/ (exists rb, findBlockById (blocks s) R = Some rb
                        /\ forall P, Y.get rb "sys:parent" = VStr P -> P = "")
         \/ (exists rb P,
                findBlockById (blocks s) R = Some rb
                /\ Y.get rb "sys:parent" = VStr P
                /\ forall pb, findBlockById (blocks s) P = Some pb ->
                              indexOfChild (childrenOf pb) R < 0)) ->
        exists e, fst (appendToDocument n s) = Err e).
Proof.
  intros n s pl side R Hpl Href.
  pose proof (explicitParent_reference (blocks s) pl side R Href) as Hex.
  split.
  - intros rb P pb Hrb HP HPne Hpb Hidx Hc Hfresh.
    assert (Hr : resolveParent n s = (Ok (P, R, modeOf side), s)).
    { rewrite resolveParent_unfold, Hpl, Hex. unfold referenceParent.
      rewrite Hrb, HP. apply truthy_true in HPne. rewrite HPne. reflexivity. }
    pose proof (indexOfChildFrom_bound (childrenOf pb) R 0 Hidx) as Hbound.
    fold (indexOfChild (childrenOf pb) R) in Hbound.
    destruct (append_under n s s P R (modeOf side) pb
                (indexOfChild (childrenOf pb) R + offset side) Hr Hpb Hc)
      as [ctx [created [s' [Ha [Hp [Hi [_ [Hplaced _]]]]]]]].
    + unfold insertionIndex.
      destruct side; simpl;
        (destruct (Z.ltb_spec (indexOfChild (childrenOf pb) R) 0); [lia|]);
        do 2 f_equal; lia.
    + destruct side; simpl; lia.
    + exact Hfresh.
    + exists ctx, created, s'. repeat split; assumption.
  - intros Hfail. rewrite appendToDocument_unfold.
    unfold resolveInsertContext, bind.
    rewrite resolveParent_unfold, Hpl, Hex. unfold referenceParent.
    destruct Hfail as [Hnone|[[rb [Hrb Hnop]]|[rb [P [Hrb [HP Hnot]]]]]].
    + rewrite Hnone. simpl. eauto.
    + rewrite Hrb.
      destruct (Y.get rb "sys:parent") as [| | | |P| | | | |]; simpl; eauto.
      rewrite (Hnop P eq_refl). simpl. eauto.
    + rewrite Hrb, HP.
      destruct (JS.truthy P); cbn [rbind]; [|simpl; eauto].
      rewrite placeUnder_unfold.
      destruct (findBlockById (blocks s) P) as [pb|] eqn:Hpb; simpl; [|eauto].
      destruct (if Norm.strict n then _ else _); simpl; [|eauto].
      fold (childrenOf pb). specialize (Hnot pb eq_refl).
      unfold insertionIndex.
      destruct side; simpl;
        (destruct (Z.ltb_spec (indexOfChild (childrenOf pb) R) 0); [|lia]);
        simpl; eauto.
Qed.

(** ** Placement by parent and index (C3) *)

Lemma resolveParent_underParent (n : Norm.t) (s : DocState) (P : string)
    (i : option Z) :
  P <> "" ->
  resolveParent (withPlacement n (underParent P i)) s
  = (Ok (P, "", if JS.defined i then ModeIndex else ModeAppend), s).
Proof.
  intros HP. rewrite resolveParent_unfold. simpl.
  apply truthy_true in HP. rewrite HP. reflexivity.
Qed.

(** C3.  For a placement that names its parent [P] by [parentId], [P] a
    block with [N] children: an append with index [N] has the outcome of the
    append with no index, which pushes the block on the end; an index above
    [N] fails in strict mode (with the out-of-range error when containment
    allows the kind); outside strict mode it is clamped to [N] and the block
    is pushed on the end.  Where the block lands is stated for a generated
    id other than [P]. *)
Theorem index_at_length_is_append :
  forall (n : Norm.t) (s : DocState) (P : string) (pb : Y.Entries),
    P <> "" ->
    findBlockById (blocks s) P = Some pb ->
    let N := Z.of_nat (List.length (childrenOf pb)) in
    let request := fun i => withPlacement n (underParent P i) in
    (* index = N is the append with no index *)
    appendToDocument (request (Some N)) s = appendToDocument (request None) s
    /\ ((Norm.strict n = true ->
         containment (Y.get pb "sys:flavour") (Norm.type n) = Ok tt) ->
        fst (generateId (rng s)) <> P ->
        exists ctx created s',
          appendToDocument (request None) s = (Ok (ctx, created), s')
          /\ Ctx.parentId ctx = P
          /\ Ctx.insertIndex ctx = N
          /\ childPlacedAt s' P pb (List.length (childrenOf pb))
                           (Created.blockId created))
    (* index > N, strict *)
    /\ (forall i, N < i -> Norm.strict n = true ->
        exists e, fst (appendToDocument (request (Some i)) s) = Err e
                  /\ (containment (Y.get pb "sys:flavour") (Norm.type n) = Ok tt ->
                      e = EIndexOutOfRange i N))
    (* index > N, not strict *)
    /\ (forall i, N < i -> Norm.strict n = false ->
        fst (generateId (rng s)) <> P ->
        exists ctx created s',
          appendToDocument (request (Some i)) s = (Ok (ctx, created), s')
          /\ Ctx.parentId ctx = P
          /\ Ctx.insertIndex ctx = N
          /\ childPlacedAt s' P pb (List.length (childrenOf pb))
                           (Created.blockId created)).
Proof.
  intros n s P pb HP Hpb N request.
  split; [|split; [|split]].
  - rewrite !appendToDocument_unfold. unfold resolveInsertContext, bind.
    unfold request. rewrite !resolveParent_underParent by exact HP.
    rewrite !placeUnder_unfold, Hpb. cbn [JS.defined].
    change (Norm.strict (withPlacement n _)) with (Norm.strict n).
    change (Norm.type (withPlacement n _)) with (Norm.type n).
    destruct (if Norm.strict n then _ else _); [|reflexivity].
    cbv zeta. fold (childrenOf pb). unfold insertionIndex. simpl.
    fold N. rewrite Z.gtb_ltb, Z.ltb_irrefl, Z.min_id. simpl. reflexivity.
  - intros Hc Hfresh.
    destruct (append_under (request None) s s P "" ModeAppend pb N)
      as [ctx [created [s' [Ha [Hp [Hi [_ [Hplaced _]]]]]]]];
      try assumption.
    + apply (resolveParent_underParent n s P None HP).
    + reflexivity.
    + unfold N. lia.
    + exists ctx, created, s'. repeat split; try assumption.
      unfold N in Hplaced. now rewrite Nat2Z.id in Hplaced.
  - intros i Hi Hstrict. rewrite appendToDocument_unfold.
    unfold resolveInsertContext, bind, request.
    rewrite resolveParent_underParent by exact HP.
    rewrite placeUnder_unfold, Hpb. cbn [JS.defined].
    change (Norm.strict (withPlacement n _)) with (Norm.strict n).
    change (Norm.type (withPlacement n _)) with (Norm.type n).
    rewrite Hstrict.
    destruct (containment _ _) as [[]|e0]; simpl.
    + fold (childrenOf pb). fold N.
      destruct (Z.gtb_spec i N); [|lia]. simpl.
      eexists. split; reflexivity.
    + exists e0. split; [reflexivity | discriminate].
  - intros i Hi Hstrict Hfresh.
    destruct (append_under (request (Some i)) s s P "" ModeIndex pb N)
      as [ctx [created [s' [Ha [Hp [Hidx [_ [Hplaced _]]]]]]]];
      try assumption.
    + apply (resolveParent_underParent n s P (Some i) HP).
    + change (Norm.strict (request (Some i))) with (Norm.strict n).
      rewrite Hstrict. discriminate.
    + unfold insertionIndex. simpl. fold N.
      change (Norm.strict (withPlacement n _)) with (Norm.strict n).
      rewrite Hstrict, andb_false_r. f_equal. lia.
    + unfold N. lia.
    + exists ctx, created, s'. repeat split; try assumption.
      unfold N in Hplaced. now rewrite Nat2Z.id in Hplaced.
Qed.

(** ** Implicit parent (C4) *)

Lemma childPlacedAt_end (s' : DocState) (p : string) (pb : Y.Entries)
    (id : string) :
  childPlacedAt s' p pb (List.length (childrenOf pb)) id ->
  childAppended s' p pb id.
Proof.
  unfold childPlacedAt, childAppended. now rewrite insert_at_length.
Qed.

Lemma containment_implicit (t : BlockType) :
  containment (VStr (implicitContainer t)) t = Ok tt.
Proof. destruct t; reflexivity. Qed.

Lemma implicitParent_existing (t : BlockType) (s : DocState) (cid : string) :
  foundId (findBlockIdByFlavour (blocks s) (implicitContainer t)) = Some cid ->
  implicitParent t s = (Ok cid, s).
Proof.
  unfold implicitParent, implicitContainer, ensureSurfaceBlock,
    ensureNoteBlock, bind, getS, ret.
  destruct (isCanvasType t); [|destruct (tyEqb t Note)];
    intros ->; reflexivity.
Qed.

Lemma storeUnderPage_ok (pid cid : string) (body pg : Y.Entries)
    (blocks0 : Blocks) (r : Rng) :
  cid <> pid ->
  findBlockById blocks0 pid = Some pg ->
  storeUnderPage pid cid body (mkDocState blocks0 r)
  = (Ok tt,
     mkDocState
       (Y.set (Y.set blocks0 cid (VYMap body)) pid
              (VYMap (Y.set (fst (ensureChildrenArray pg)) "sys:children"
                            (VYArr (Y.push (childrenOf pg) (VStr cid))))))
       r).
Proof.
  intros Hne Hpg. unfold storeUnderPage. cbn [blocks rng].
  rewrite get_set_other by exact Hne.
  apply findBlockById_lookup in Hpg. unfold Y.get at 1. rewrite Hpg.
  unfold childrenOf. destruct (ensureChildrenArray pg). reflexivity.
Qed.

Lemma implicitParent_created (t : BlockType) (s : DocState) (pid : string)
    (pg : Y.Entries) :
  tyEqb t Note = false ->
  foundId (findBlockIdByFlavour (blocks s) (implicitContainer t)) = None ->
  foundId (findBlockIdByFlavour (blocks s) "affine:page") = Some pid ->
  findBlockById (blocks s) pid = Some pg ->
  fst (generateId (rng s)) <> pid ->
  implicitParent t s
  = (Ok (fst (generateId (rng s))),
     mkDocState
       (Y.set (Y.set (blocks s) (fst (generateId (rng s)))
                     (VYMap (containerBody t (fst (generateId (rng s))) pid)))
              pid
              (VYMap (Y.set (fst (ensureChildrenArray pg)) "sys:children"
                            (VYArr (Y.push (childrenOf pg)
                                           (VStr (fst (generateId (rng s)))))))))
       (snd (generateId (rng s)))).
Proof.
  intros Hn Hf Hp Hpg Hne.
  unfold implicitParent, implicitContainer, containerBody in *.
  rewrite Hn in *.
  unfold ensureSurfaceBlock, ensureNoteBlock, bind, getS, ret, freshId.
  destruct (isCanvasType t); rewrite Hf, Hp;
    destruct (generateId (rng s)) as [cid r1]; cbn [fst snd] in *;
    rewrite (storeUnderPage_ok pid cid _ pg) by assumption; reflexivity.
Qed.

Lemma implicitParent_no_page (t : BlockType) (s : DocState) :
  foundId (findBlockIdByFlavour (blocks s) (implicitContainer t)) = None ->
  foundId (findBlockIdByFlavour (blocks s) "affine:page") = None ->
  exists e, implicitParent t s = (Err e, s).
Proof.
  unfold implicitParent, implicitContainer, ensureSurfaceBlock,
    ensureNoteBlock, bind, getS, throw.
  destruct (isCanvasType t); [|destruct (tyEqb t Note)];
    intros -> Hp; try rewrite Hp; eauto.
Qed.

Lemma resolveParent_implicit (n : Norm.t) (s : DocState) :
  Norm.placement n = None ->
  resolveParent n s =
  match implicitParent (Norm.type n) s with
  | (Ok p, s1) => (Ok (p, "", ModeAppend), s1)
  | (Err e, s1) => (Err e, s1)
  end.
Proof. intros H. rewrite resolveParent_unfold, H. reflexivity. Qed.

Lemma containerBody_facts (t : BlockType) (cid pid : string) :
  tyEqb t Note = false ->
  Y.get (containerBody t cid pid) "sys:flavour" = VStr (implicitContainer t)
  /\ Y.get (containerBody t cid pid) "sys:parent" = VStr pid
  /\ Y.get (containerBody t cid pid) "sys:id" = VStr cid
  /\ ensureChildrenArray (containerBody t cid pid)
     = (containerBody t cid pid, []).
Proof.
  unfold containerBody, implicitContainer. intros ->.
  destruct (isCanvasType t); repeat split.
Qed.

(** C4.  With no placement the parent is the first block of the flavour the
    kind asks for: surface for frame and edgeless_text, page for note, note
    for every other kind; the new block is pushed on the end of that block's
    children.  A missing surface or note is first created under the page,
    listed last among the page's children, and the new block becomes its
    only child; a created note carries the default geometry and background.
    With no page to attach to the append fails.  The document is taken to
    store each block under its own id, and the generated ids to differ from
    one another and from the ids involved. *)
Theorem implicit_parent_by_kind :
  forall (n : Norm.t) (s : DocState),
    Norm.placement n = None ->
    let t := Norm.type n in
    let f := implicitContainer t in
    (* which container each kind goes under *)
    (isCanvasType t = true -> f = "affine:surface")
    /\ (t = Note -> f = "affine:page")
    /\ (isCanvasType t = false -> t <> Note -> f = "affine:note")
    (* the container exists: the block is pushed on its children *)
    /\ (forall cid cb,
           foundId (findBlockIdByFlavour (blocks s) f) = Some cid ->
           findBlockById (blocks s) cid = Some cb ->
           Y.get cb "sys:flavour" = VStr f ->
           fst (generateId (rng s)) <> cid ->
           exists ctx created s',
             appendToDocument n s = (Ok (ctx, created), s')
             /\ Ctx.parentId ctx = cid
             /\ childAppended s' cid cb (Created.blockId created))
    (* a missing surface or note is created under the page first *)
    /\ (forall pid pg,
           t <> Note ->
           foundId (findBlockIdByFlavour (blocks s) f) = None ->
           foundId (findBlockIdByFlavour (blocks s) "affine:page") = Some pid ->
           findBlockById (blocks s) pid = Some pg ->
           let cid := fst (generateId (rng s)) in
           let bid := fst (generateId (snd (generateId (rng s)))) in
           cid <> pid -> bid <> cid -> bid <> pid ->
           exists ctx created s',
             appendToDocument n s = (Ok (ctx, created), s')
             /\ Ctx.parentId ctx = cid
             /\ Created.blockId created = bid
             /\ findBlockById (blocks s') cid
                = Some (Y.set (containerBody t cid pid) "sys:children"
                              (VYArr [ VStr bid ]))
             /\ Y.get (containerBody t cid pid) "sys:flavour" = VStr f
             /\ Y.get (containerBody t cid pid) "sys:parent" = VStr pid
             /\ childAppended s' pid pg cid)
    (* no page to hold a note, or to create the container under *)
    /\ (foundId (findBlockIdByFlavour (blocks s) f) = None ->
        foundId (findBlockIdByFlavour (blocks s) "affine:page") = None ->
        exists e, appendToDocument n s = (Err e, s))
    (* the geometry and background a created note starts with *)
    /\ (forall cid pid,
           Y.get (noteBody cid pid) "prop:xywh" = VStr "[0,0,800,95]"
           /\ Y.get (noteBody cid pid) "prop:background"
              = VYMap [ ("light", VStr "#ffffff"); ("dark", VStr "#252525") ]
           /\ Y.get (noteBody cid pid) "prop:displayMode" = VStr "both").
Proof.
  intros n s Hpl t f.
  assert (HnoteF : forall u, u <> Note -> tyEqb u Note = false)
    by (intros u Hu; destruct u; try reflexivity; congruence).
  split; [|split; [|split; [|split; [|split; [|split]]]]].
  - unfold f, implicitContainer. now intros ->.
  - unfold f. now intros ->.
  - unfold f, implicitContainer. intros -> Hn. now rewrite (HnoteF t Hn).
  - intros cid cb Hfound Hcb Hflav Hfresh.
    destruct (append_under n s s cid "" ModeAppend cb
                (Z.of_nat (List.length (childrenOf cb))))
      as [ctx [created [s' [Ha [Hp [_ [_ [Hplaced _]]]]]]]];
      try assumption.
    + rewrite (resolveParent_implicit n s Hpl).
      fold t. now rewrite (implicitParent_existing t s cid Hfound).
    + intros _. rewrite Hflav. apply containment_implicit.
    + reflexivity.
    + lia.
    + exists ctx, created, s'. repeat split; try assumption.
      apply childPlacedAt_end. now rewrite Nat2Z.id in Hplaced.
  - intros pid pg Hnote Hf Hpage Hpg cid bid Hcp Hbc Hbp.
    pose proof (HnoteF t Hnote) as Hn.
    destruct (containerBody_facts t cid pid Hn) as [Bf [Bp [_ Bc]]].
    pose proof (implicitParent_created t s pid pg Hn Hf Hpage Hpg Hcp) as Hi.
    fold cid in Hi.
    set (s1 := mkDocState
                 (Y.set (Y.set (blocks s) cid (VYMap (containerBody t cid pid)))
                        pid
                        (VYMap (Y.set (fst (ensureChildrenArray pg))
                                      "sys:children"
                                      (VYArr (Y.push (childrenOf pg) (VStr cid))))))
                 (snd (generateId (rng s)))) in *.
    assert (Hcid : findBlockById (blocks s1) cid = Some (containerBody t cid pid)).
    { apply findBlockById_get. unfold s1. cbn [blocks].
      rewrite get_set_other by congruence. apply get_set_same. }
    destruct (append_under n s s1 cid "" ModeAppend (containerBody t cid pid) 0)
      as [ctx [created [s' [Ha [Hp [_ [Hid [Hplaced [_ Hrest]]]]]]]]].
    + rewrite (resolveParent_implicit n s Hpl). fold t. now rewrite Hi.
    + exact Hcid.
    + intros _. rewrite Bf. apply containment_implicit.
    + unfold childrenOf. rewrite Bc. reflexivity.
    + unfold childrenOf. rewrite Bc. simpl. lia.
    + exact Hbc.
    + change (fst (generateId (rng s1))) with bid in Hid.
      exists ctx, created, s'. repeat split; try assumption.
      * unfold childPlacedAt, childrenOf in Hplaced.
        rewrite Bc in Hplaced. rewrite Hid in Hplaced. exact Hplaced.
      * unfold childAppended. apply findBlockById_get.
        rewrite Hrest by (rewrite ?Hid; congruence).
        unfold s1. cbn [blocks]. apply get_set_same.
  - intros Hf Hpage.
    destruct (implicitParent_no_page t s Hf Hpage) as [e He].
    exists e. rewrite appendToDocument_unfold.
    unfold resolveInsertContext, bind.
    rewrite (resolveParent_implicit n s Hpl). fold t. now rewrite He.
  - intros cid pid. repeat split.
Qed.

(** ** Transport and handlers (C5, C6) *)

Lemma cleanAck_ackFailure (ack : option Ack) (fallback : string) :
  cleanAck ack -> ackFailure ack fallback = None.
Proof.
  destruct ack as [[e d]|]; simpl; [|reflexivity]. now intros ->.
Qed.

Lemma cleanAck_load (ack : option Ack) (ws d : string) (w : World)
    (rest : list Reply) :
  cleanAck ack ->
  loadDoc ws d (withReplies w (Acked ack :: rest))
  = (Ok (dataOf ack),
     mkWorld (w_rng w) (now w) (ticks w) rest (trace w ++ [EvLoadDoc ws d])%list).
Proof.
  destruct ack as [[e dt]|]; simpl; [|reflexivity]. now intros ->.
Qed.

(** The transport calls on a server that answers as hoped. *)
Lemma connect_ok (url : string) (c b : option string) (rg : Rng)
    (nw : nat -> Z) (tk : nat) (rest : list Reply) (tr : list Event) :
  exists hdrs,
    connectWorkspaceSocket url c b (mkWorld rg nw tk (Connected :: rest) tr)
    = (Ok tt, mkWorld rg nw tk rest (tr ++ [EvConnect url hdrs])%list).
Proof. eexists. reflexivity. Qed.

Lemma join_clean (ws v : string) (ack : option Ack) (rg : Rng)
    (nw : nat -> Z) (tk : nat) (rest : list Reply) (tr : list Event) :
  cleanAck ack ->
  joinWorkspace ws v (mkWorld rg nw tk (Acked ack :: rest) tr)
  = (Ok tt, mkWorld rg nw tk rest (tr ++ [EvJoin ws v])%list).
Proof.
  intros H. unfold joinWorkspace, bind, emit, nextReply, ret. cbn.
  now rewrite (cleanAck_ackFailure ack _ H).
Qed.

Lemma push_clean (ws d : string) (u : Update) (ack : option Ack) (rg : Rng)
    (nw : nat -> Z) (tk : nat) (rest : list Reply) (tr : list Event) :
  cleanAck ack ->
  exists t tk',
    pushDocUpdate ws d u (mkWorld rg nw tk (Acked ack :: rest) tr)
    = (Ok t, mkWorld rg nw tk' rest (tr ++ [EvPushDocUpdate ws d u])%list).
Proof.
  intros H. unfold pushDocUpdate, bind, emit, nextReply, ret, dateNow. cbn.
  rewrite (cleanAck_ackFailure ack _ H).
  destruct (timestamp (dataOf ack)) as [t|]; [destruct (t =? 0)|];
    do 2 eexists; reflexivity.
Qed.

Lemma load_not_found (ws d : string) (message : option string)
    (data : option AckData) (rg : Rng) (nw : nat -> Z) (tk : nat)
    (rest : list Reply) (tr : list Event) :
  loadDoc ws d (mkWorld rg nw tk (notFoundAck message data :: rest) tr)
  = (Ok noData, mkWorld rg nw tk rest (tr ++ [EvLoadDoc ws d])%list).
Proof. reflexivity. Qed.

Lemma generateIdW_run (rg : Rng) (nw : nat -> Z) (tk : nat)
    (rs : list Reply) (tr : list Event) :
  generateIdW (mkWorld rg nw tk rs tr)
  = (Ok (fst (generateId rg)), mkWorld (snd (generateId rg)) nw tk rs tr).
Proof. unfold generateIdW. cbn. now destruct (generateId rg). Qed.

(** create_doc when the workspace root document is reported missing: both
    pushes are sent and the second carries the new catalog entry. *)
Lemma create_on_missing_index (cfg : Config) (w : World) (rest : list Reply)
    (parsed : CreateDoc.input) (ws : string) (join push1 push2 : option Ack)
    (message : option string) (data : option AckData) :
  pickWorkspace (CreateDoc.workspaceId parsed) (defaultWorkspaceId cfg)
  = Some ws ->
  cleanAck join -> cleanAck push1 -> cleanAck push2 ->
  exists docId u1 entry hdrs w',
    createDocHandler cfg parsed
      (withReplies w (Connected :: Acked join :: Acked push1
                      :: notFoundAck message data :: Acked push2 :: rest))
    = (Ok (CreateDoc.mkOutput docId (titleOrUntitled (CreateDoc.title parsed))),
       w')
    /\ trace w'
       = (trace w
          ++ [ EvConnect (wsUrlFromGraphQLEndpoint (endpoint cfg)) hdrs;
               EvJoin ws (clientVersion cfg);
               EvPushDocUpdate ws docId u1;
               EvLoadDoc ws ws;
               EvPushDocUpdate ws ws
                 (mkUpdate emptyDoc
                           (mkDoc [] (Y.set [] "pages" (VYArr [ entry ]))));
               EvDisconnect ])%list.
Proof.
  intros Hws Hjoin Hp1 Hp2.
  unfold createDocHandler. rewrite Hws.
  unfold tryFinally, bind, withReplies, liftRes, ret.
  destruct (connect_ok (wsUrlFromGraphQLEndpoint (endpoint cfg))
              (cookie cfg) (bearer cfg) (w_rng w) (now w) (ticks w)
              (Acked join :: Acked push1 :: notFoundAck message data
               :: Acked push2 :: rest) (trace w)) as [hdrs ->].
  rewrite join_clean by exact Hjoin.
  rewrite !generateIdW_run.
  destruct (given (CreateDoc.content parsed));
    [rewrite generateIdW_run|]; cbv beta iota.
  all: unfold dateNow at 1; cbn [w_rng now ticks replies trace].
  all: match goal with
       | |- context [pushDocUpdate ?a ?b ?u
                       (mkWorld ?rg ?nw ?tk (Acked ?ack :: ?rs) ?tr)] =>
           destruct (push_clean a b u ack rg nw tk rs tr Hp1) as [t1 [tk1 ->]]
       end.
  all: rewrite load_not_found.
  all: unfold dateNow at 1;
    cbn [w_rng now ticks replies trace missing noData JS.orElse emptyDoc
         d_meta d_blocks].
  all: change (addPageEntry [] ?e) with (Ok (Y.set [] "pages" (VYArr [ e ])));
    cbv beta iota.
  all: match goal with
       | |- context [pushDocUpdate ?a ?b ?u
                       (mkWorld ?rg ?nw ?tk (Acked ?ack :: ?rs) ?tr)] =>
           destruct (push_clean a b u ack rg nw tk rs tr Hp2) as [t2 [tk2 ->]]
       end.
  all: do 5 eexists; split; [reflexivity|].
  all: cbn [trace disconnect]; rewrite <- !app_assoc; reflexivity.
Qed.

(** C6.  [loadDoc] resolves to an empty snapshot on a DOC_NOT_FOUND error,
    and rejects on any other reported error and when no acknowledgement
    arrives.  So [readDocHandler] answers that the document does not exist,
    and [createDocHandler] goes on to push a catalog that holds the new
    entry. *)
Theorem load_not_found_is_not_an_error :
  forall (cfg : Config) (w : World) (rest : list Reply),
    (* the transport *)
    (forall ws d message data,
        loadDoc ws d (withReplies w (notFoundAck message data :: rest))
        = (Ok noData,
           mkWorld (w_rng w) (now w) (ticks w) rest
                   (trace w ++ [EvLoadDoc ws d])%list)
        /\ missing noData = None)
    /\ (forall ws d name message data,
           name <> Some "DOC_NOT_FOUND" ->
           fst (loadDoc ws d
                  (withReplies w
                     (Acked (Some (mkAck (Some (mkAckError name message)) data))
                      :: rest)))
           = Err (ELoadFailed (JS.orStr (JS.orElse message "")
                                         "load-doc failed")))
    /\ (forall ws d,
           fst (loadDoc ws d (withReplies w (Silence :: rest)))
           = Err ELoadTimeout
           /\ fst (loadDoc ws d (withReplies w [])) = Err ELoadTimeout)
    (* read_doc on a document that does not exist *)
    /\ (forall workspaceId ws docId join message data,
           pickWorkspace workspaceId (defaultWorkspaceId cfg) = Some ws ->
           cleanAck join ->
           fst (readDocHandler cfg workspaceId docId
                  (withReplies w (Connected :: Acked join
                                  :: notFoundAck message data :: rest)))
           = Ok (ReadDoc.mkOutput docId None false 0%nat [] ""))
    (* create_doc on a workspace whose root document does not exist *)
    /\ (forall parsed ws join push1 push2 message data,
           pickWorkspace (CreateDoc.workspaceId parsed)
                         (defaultWorkspaceId cfg) = Some ws ->
           cleanAck join -> cleanAck push1 -> cleanAck push2 ->
           let run :=
             createDocHandler cfg parsed
               (withReplies w (Connected :: Acked join :: Acked push1
                               :: notFoundAck message data
                               :: Acked push2 :: rest)) in
           exists out docUpdate indexUpdate,
             fst run = Ok out
             /\ pushesOf (trace (snd run))
                = (pushesOf (trace w)
                   ++ [ EvPushDocUpdate ws (CreateDoc.docId out) docUpdate;
                        EvPushDocUpdate ws ws indexUpdate ])%list
             /\ since indexUpdate = emptyDoc
             /\ exists entry,
                  Y.get (d_meta (upto indexUpdate)) "pages" = VYArr [ entry ]).
Proof.
  intros cfg w rest. split; [|split; [|split; [|split]]].
  - intros ws d message data. split; reflexivity.
  - intros ws d name message data Hname.
    unfold loadDoc, bind, emit, nextReply, withReplies, throw. cbn.
    destruct name as [nm|]; [|reflexivity].
    destruct (String.eqb_spec nm "DOC_NOT_FOUND"); [congruence | reflexivity].
  - intros ws d. split; reflexivity.
  - intros workspaceId ws docId join message data Hws Hjoin.
    unfold readDocHandler. rewrite Hws.
    unfold tryFinally, bind, connectWorkspaceSocket, joinWorkspace, loadDoc,
      emit, nextReply, withReplies, notFoundAck, ret, throw.
    cbn. rewrite (cleanAck_ackFailure join _ Hjoin). reflexivity.
  - intros parsed ws join push1 push2 message data Hws Hjoin Hp1 Hp2 run.
    destruct (create_on_missing_index cfg w rest parsed ws join push1 push2
                message data Hws Hjoin Hp1 Hp2)
      as [docId [u1 [entry [hdrs [w' [Hrun Htrace]]]]]].
    fold run in Hrun. rewrite Hrun. cbn [fst snd]. rewrite Htrace.
    do 3 eexists. split; [reflexivity|].
    split; [unfold pushesOf; rewrite filter_app; reflexivity|].
    split; [reflexivity|]. eexists. reflexivity.
Qed.

(** What each transport call adds to the trace, whatever the server
    answers. *)
Lemma connect_trace (url : string) (c b : option string) (w w' : World)
    (r : Res unit) :
  connectWorkspaceSocket url c b w = (r, w') ->
  exists hdrs,
    (r = Ok tt /\ trace w' = (trace w ++ [EvConnect url hdrs])%list)
    \/ (exists e, r = Err e /\ isPushError e = false
                  /\ trace w' = (trace w ++ [EvConnect url hdrs; EvDisconnect])%list).
Proof.
  unfold connectWorkspaceSocket, bind, emit, nextReply, ret, throw.
  destruct w as [rg nw tk rs tr]. cbn.
  destruct rs as [|[| |ack|] rs]; cbn; intros [= <- <-]; eexists; cbn;
    rewrite <- ?app_assoc;
    first [ left; split; reflexivity
          | right; eexists; repeat split; reflexivity ].
Qed.

Lemma join_trace (ws v : string) (w w' : World) (r : Res unit) :
  joinWorkspace ws v w = (r, w') ->
  trace w' = (trace w ++ [EvJoin ws v])%list
  /\ (r = Ok tt \/ exists e, r = Err e /\ isPushError e = false).
Proof.
  unfold joinWorkspace, bind, emit, nextReply, ret, throw.
  destruct w as [rg nw tk rs tr]. cbn.
  destruct rs as [|[| |ack|] rs]; cbn;
    try destruct (ackFailure ack "join failed"); cbn;
    intros [= <- <-]; cbn; eauto 8.
Qed.

Lemma load_trace (ws d : string) (w w' : World) (r : Res AckData) :
  loadDoc ws d w = (r, w') ->
  trace w' = (trace w ++ [EvLoadDoc ws d])%list
  /\ ((exists a, r = Ok a) \/ exists e, r = Err e /\ isPushError e = false).
Proof.
  unfold loadDoc, bind, emit, nextReply, ret, throw.
  destruct w as [rg nw tk rs tr]. cbn.
  destruct rs as [|[| |[[[e|] dt]|]|] rs]; cbn;
    try (destruct (match err_name e with
                   | Some n => (n =? "DOC_NOT_FOUND")%string
                   | None => false
                   end)); cbn;
    intros [= <- <-]; cbn; eauto 8.
Qed.

Lemma push_trace (ws d : string) (u : Update) (w w' : World) (r : Res Z) :
  pushDocUpdate ws d u w = (r, w') ->
  trace w' = (trace w ++ [EvPushDocUpdate ws d u])%list
  /\ ((exists t, r = Ok t) \/ exists e, r = Err e /\ isPushError e = true).
Proof.
  unfold pushDocUpdate, bind, emit, nextReply, ret, throw, dateNow.
  destruct w as [rg nw tk rs tr]. cbn.
  destruct rs as [|[| |ack|] rs]; cbn;
    try destruct (ackFailure ack "push-doc-update failed"); cbn;
    try destruct (timestamp (dataOf ack)) as [t|]; cbn;
    try destruct (t =? 0); cbn;
    intros [= <- <-]; cbn; eauto 8.
Qed.

Lemma onDocument_trace {A : Type} (blocks0 : Blocks) (m : M DocState A)
    (w w' : World) (r : Res (A * Blocks)) :
  onDocument blocks0 m w = (r, w') -> trace w' = trace w.
Proof.
  unfold onDocument. destruct (m _) as [[a|e] s]; intros [= <- <-]; reflexivity.
Qed.

Lemma generateIdW_trace (w w' : World) (r : Res string) :
  generateIdW w = (r, w') -> trace w' = trace w /\ exists id, r = Ok id.
Proof.
  unfold generateIdW. destruct (generateId (w_rng w)).
  intros [= <- <-]. eauto.
Qed.

Lemma dateNow_trace (w w' : World) (r : Res Z) :
  dateNow w = (r, w') -> trace w' = trace w /\ exists t, r = Ok t.
Proof. unfold dateNow. intros [= <- <-]. eauto. Qed.

(** Run the next transport call of a handler and record what it added to the
    trace. *)
Ltac run_call :=
  match goal with
  | |- context [connectWorkspaceSocket ?u ?c ?b ?w] =>
      let r := fresh "r" in let w1 := fresh "w" in let H := fresh "Hcall" in
      destruct (connectWorkspaceSocket u c b w) as [r w1] eqn:H;
      apply connect_trace in H;
      destruct H as [? [[-> H]|[? [-> [? H]]]]]
  | |- context [joinWorkspace ?a ?b ?w] =>
      let r := fresh "r" in let w1 := fresh "w" in let H := fresh "Hcall" in
      destruct (joinWorkspace a b w) as [r w1] eqn:H;
      apply join_trace in H;
      destruct H as [H [->|[? [-> ?]]]]
  | |- context [loadDoc ?a ?b ?w] =>
      let r := fresh "r" in let w1 := fresh "w" in let H := fresh "Hcall" in
      destruct (loadDoc a b w) as [r w1] eqn:H;
      apply load_trace in H;
      destruct H as [H [[? ->]|[? [-> ?]]]]
  | |- context [pushDocUpdate ?a ?b ?u ?w] =>
      let r := fresh "r" in let w1 := fresh "w" in let H := fresh "Hcall" in
      destruct (pushDocUpdate a b u w) as [r w1] eqn:H;
      apply push_trace in H;
      destruct H as [H [[? ->]|[? [-> ?]]]]
  | |- context [onDocument ?b ?m ?w] =>
      let r := fresh "r" in let w1 := fresh "w" in let H := fresh "Hcall" in
      destruct (onDocument b m w) as [[[[? ?] ?]|?] w1] eqn:H;
      apply onDocument_trace in H
  | |- context [generateIdW ?w] =>
      let r := fresh "r" in let w1 := fresh "w" in let H := fresh "Hcall" in
      destruct (generateIdW w) as [r w1] eqn:H;
      apply generateIdW_trace in H;
      destruct H as [H [? ->]]
  | |- context [dateNow ?w] =>
      let r := fresh "r" in let w1 := fresh "w" in let H := fresh "Hcall" in
      destruct (dateNow w) as [r w1] eqn:H;
      apply dateNow_trace in H;
      destruct H as [H [? ->]]
  end; cbv beta iota.

(** Close a leaf: collect the trace equations into one list of additions and
    compute the statements about it. *)
Ltac close_trace :=
  intros [= <- <-];
  cbn [fst snd trace disconnect emit deleteDoc];
  repeat match goal with
         | H : trace _ = _ |- _ => rewrite H; clear H
         end;
  rewrite <- ?app_assoc;
  eexists; split; [reflexivity|]; cbn;
  repeat split; intros; try discriminate; try congruence; auto.

(** A run that ends before anything is sent. *)
Ltac no_events :=
  intros [= <- <-]; exists []; rewrite app_nil_r; cbn;
  repeat split; intros; try discriminate; auto.

(** C5, as stated, fails: create_doc has pushed the new document when the
    load of the workspace index fails, and the operation fails with that
    push acknowledged. *)
Lemma create_doc_fails_after_a_push :
  let run :=
    createDocHandler demoConfig (CreateDoc.mkInput None (Some "Demo") None)
                     indexLoadFails in
  fst run = Err (ELoadFailed "boom")
  /\ map verb (trace (snd run))
     = [ "connect"; "space:join"; "space:push-doc-update"; "space:load-doc";
         "disconnect" ]
  /\ List.length (pushesOf (trace (snd run))) = 1%nat
  /\ replies (snd run) = [].
Proof. vm_compute. repeat split. Qed.

(** C5, amended.  [appendBlockInternal] sends at most one push and nothing
    but the disconnect after it; when it fails with anything but the push's
    own rejection, no push was sent.  [deleteDocHandler] likewise, its push
    followed only by the delete notice.  [readDocHandler] never pushes.
    [createDocHandler] sends up to two pushes, and both when it succeeds. *)
Theorem push_is_last_for_append_and_delete :
  forall (urlParses : string -> bool) (cfg : Config) (w : World),
    (forall parsed,
        let run := appendBlockInternal urlParses cfg parsed w in
        exists added,
          trace (snd run) = (trace w ++ added)%list
          /\ (afterFirstPush added = None
              \/ afterFirstPush added = Some [ EvDisconnect ])
          /\ (forall e, fst run = Err e -> isPushError e = false ->
                        pushesOf added = [])
          /\ (isOk (fst run) = true -> List.length (pushesOf added) = 1%nat)
          /\ (List.length (pushesOf added) <= 1)%nat)
    /\ (forall workspaceId docId,
           let run := deleteDocHandler cfg workspaceId docId w in
           exists added,
             trace (snd run) = (trace w ++ added)%list
             /\ (afterFirstPush added = None
                 \/ afterFirstPush added = Some [ EvDisconnect ]
                 \/ exists ws,
                      afterFirstPush added
                      = Some [ EvDeleteDoc ws docId; EvDisconnect ])
             /\ (forall e, fst run = Err e -> isPushError e = false ->
                           pushesOf added = [])
             /\ (List.length (pushesOf added) <= 1)%nat)
    /\ (forall workspaceId docId,
           let run := readDocHandler cfg workspaceId docId w in
           exists added,
             trace (snd run) = (trace w ++ added)%list
             /\ pushesOf added = [])
    /\ (forall parsed,
           let run := createDocHandler cfg parsed w in
           exists added,
             trace (snd run) = (trace w ++ added)%list
             /\ (List.length (pushesOf added) <= 2)%nat
             /\ (isOk (fst run) = true ->
                 List.length (pushesOf added) = 2%nat)).
Proof.
  intros urlParses cfg w. split; [|split; [|split]].
  - intros parsed run. destruct run as [r w'] eqn:Hrun.
    cbn [fst snd]. subst run. revert Hrun.
    unfold appendBlockInternal, bind at 1, liftRes.
    destruct (normalizeAppendBlockInput urlParses parsed) as [n|e];
      [|no_events].
    destruct (pickWorkspace _ _) as [ws|]; [|no_events].
    unfold tryFinally, bind, ret.
    run_call; [|close_trace].
    run_call; [|close_trace].
    run_call; [|close_trace].
    run_call; [|close_trace].
    run_call; close_trace.
  - intros workspaceId docId run. destruct run as [r w'] eqn:Hrun.
    cbn [fst snd]. subst run. revert Hrun.
    unfold deleteDocHandler.
    destruct (pickWorkspace _ _) as [ws|]; [|no_events].
    unfold tryFinally, bind, ret, liftRes.
    run_call; [|close_trace].
    run_call; [|close_trace].
    run_call; [|close_trace].
    destruct (removePageEntry _ _); [|close_trace].
    run_call; [|close_trace].
    close_trace. right. right. eexists. reflexivity.
  - intros workspaceId docId run. destruct run as [r w'] eqn:Hrun.
    cbn [fst snd]. subst run. revert Hrun.
    unfold readDocHandler.
    destruct (pickWorkspace _ _) as [ws|]; [|no_events].
    unfold tryFinally, bind, ret.
    run_call; [|close_trace].
    run_call; [|close_trace].
    run_call; [|close_trace].
    destruct (missing _); close_trace.
  - intros parsed run. destruct run as [r w'] eqn:Hrun.
    cbn [fst snd]. subst run. revert Hrun.
    unfold createDocHandler.
    destruct (pickWorkspace _ _) as [ws|]; [|no_events].
    unfold tryFinally, bind, ret, liftRes.
    run_call; [|close_trace].
    run_call; [|close_trace].
    do 4 run_call.
    destruct (given (CreateDoc.content parsed)); [run_call|];
      run_call; (run_call; [|close_trace]);
      (run_call; [|close_trace]); run_call;
      (destruct (addPageEntry _ _); [|close_trace]);
      run_call; close_trace.
Qed.

(** The resolver treats the two database kinds alike: same document
    afterwards, same context when it succeeds. *)
Lemma placeUnder_database_kinds (n : Norm.t) (target : string * string * Mode)
    (s : DocState) :
  snd (placeUnder (withType n DataView) target s)
  = snd (placeUnder (withType n Database) target s)
  /\ match fst (placeUnder (withType n DataView) target s),
           fst (placeUnder (withType n Database) target s) with
     | Ok c1, Ok c2 => c1 = c2
     | Err _, Err _ => True
     | _, _ => False
     end.
Proof.
  destruct target as [[p ref] mode]. rewrite !placeUnder_unfold.
  cbn [Norm.strict Norm.type Norm.placement withType].
  destruct (findBlockById (blocks s) p) as [pb|];
    [|split; [reflexivity | exact I]].
  destruct (Norm.strict n);
    [unfold containment;
     destruct (strIs (Y.get pb "sys:flavour") "affine:page");
     destruct (strIs (Y.get pb "sys:flavour") "affine:surface")|];
    cbn;
    try (destruct (insertionIndex _ _ _ _ _ _); cbn);
    (split; [reflexivity | first [reflexivity | exact I]]).
Qed.

Lemma resolve_database_kinds (n : Norm.t) (s : DocState) :
  snd (resolveInsertContext (withType n DataView) s)
  = snd (resolveInsertContext (withType n Database) s)
  /\ match fst (resolveInsertContext (withType n DataView) s),
           fst (resolveInsertContext (withType n Database) s) with
     | Ok c1, Ok c2 => c1 = c2
     | Err _, Err _ => True
     | _, _ => False
     end.
Proof.
  unfold resolveInsertContext, bind. rewrite !resolveParent_unfold.
  cbn [Norm.placement Norm.type withType].
  change (implicitParent DataView) with ensureNoteBlock.
  change (implicitParent Database) with ensureNoteBlock.
  destruct (explicitParent _ _) as [[[[p|] ref] mode]|e];
    [| |split; [reflexivity|exact I]].
  - pose proof (placeUnder_database_kinds n (p, ref, mode) s) as H.
    destruct (placeUnder (withType n DataView) _ _) as [[c1|e1] s1],
             (placeUnder (withType n Database) _ _) as [[c2|e2] s2];
      exact H.
  - destruct (ensureNoteBlock s) as [[p|e] s1]; [|split; [reflexivity|exact I]].
    pose proof (placeUnder_database_kinds n (p, ref, mode) s1) as H.
    destruct (placeUnder (withType n DataView) _ _) as [[c1|e1] s2],
             (placeUnder (withType n Database) _ _) as [[c2|e2] s3];
      exact H.
Qed.

Lemma createBlock_database_kinds (p : string) (n : Norm.t) (r : Rng) :
  Created.block (fst (createBlock p (withType n DataView) r))
  = Created.block (fst (createBlock p (withType n Database) r))
  /\ Created.blockId (fst (createBlock p (withType n DataView) r))
     = Created.blockId (fst (createBlock p (withType n Database) r))
  /\ snd (createBlock p (withType n DataView) r)
     = snd (createBlock p (withType n Database) r).
Proof.
  unfold createBlock. destruct (generateId r) as [blockId r1]. simpl.
  repeat split.
Qed.

Lemma append_database_kinds (n : Norm.t) (s : DocState) :
  snd (appendToDocument (withType n DataView) s)
  = snd (appendToDocument (withType n Database) s)
  /\ isOk (fst (appendToDocument (withType n DataView) s))
     = isOk (fst (appendToDocument (withType n Database) s)).
Proof.
  rewrite !appendToDocument_unfold.
  pose proof (resolve_database_kinds n s) as [Hs Hr].
  destruct (resolveInsertContext (withType n DataView) s) as [[c1|e1] s1],
           (resolveInsertContext (withType n Database) s) as [[c2|e2] s2];
    cbn [fst snd] in *; subst; try contradiction; [|split; reflexivity].
  destruct (createBlock_database_kinds (Ctx.parentId c2) n (rng s2))
    as [Hb [Hi Hg]].
  cbn [fst snd]. split; [|reflexivity].
  rewrite Hg. unfold linkBlock. rewrite Hb, Hi. reflexivity.
Qed.

(** C7.  A [data_view] request builds the block a [database] request with
    the same normalised fields builds: same id, same body (flavour
    [affine:database], [sys:version] 1, the same properties), same use of
    the random source.  Only the reported block type differs: absent for
    [database], ["data_view_fallback"] for [data_view].  The document is the
    same after either append, and either both appends succeed or both
    fail. *)
Theorem data_view_is_database_body :
  forall (parentId : string) (n : Norm.t) (r : Rng) (s : DocState),
    let db := fst (createBlock parentId (withType n Database) r) in
    let dv := fst (createBlock parentId (withType n DataView) r) in
    Created.block dv = Created.block db
    /\ Created.blockId dv = Created.blockId db
    /\ Created.flavour dv = "affine:database"
    /\ Created.flavour db = "affine:database"
    /\ Y.get (Created.block dv) "sys:flavour" = VStr "affine:database"
    /\ Y.get (Created.block dv) "sys:version" = VNum 1
    /\ snd (createBlock parentId (withType n DataView) r)
       = snd (createBlock parentId (withType n Database) r)
    /\ Created.blockType db = None
    /\ Created.blockType dv = Some "data_view_fallback"
    /\ snd (appendToDocument (withType n DataView) s)
       = snd (appendToDocument (withType n Database) s)
    /\ isOk (fst (appendToDocument (withType n DataView) s))
       = isOk (fst (appendToDocument (withType n Database) s)).
Proof.
  intros parentId n r s db dv.
  destruct (append_database_kinds n s) as [Hdoc Hok].
  unfold db, dv, createBlock.
  destruct (generateId r) as [blockId r1]. cbn [fst snd Norm.type withType].
  repeat split; try reflexivity; assumption.
Qed.

(** ** Instances on a concrete document *)

(** C1 on the demo document: a strict paragraph placed after the note. *)
Lemma strict_containment_instance :
  (exists e,
      fst (resolveInsertContext strictParagraphAfterNote demoDocument) = Err e
      /\ isContainmentError e = true)
  /\ violatesContainment (VStr "affine:page") Paragraph
  /\ appendToDocument strictParagraphAfterNote demoDocument
     = (Err (ECannotAppendUnderPage Paragraph), demoDocument).
Proof.
  destruct (strict_containment_checked_before_building
              strictParagraphAfterNote demoDocument) as [Hiff Hkeep].
  assert (Hfail : exists e,
             fst (resolveInsertContext strictParagraphAfterNote demoDocument)
             = Err e /\ isContainmentError e = true)
    by (eexists; split; reflexivity).
  split; [exact Hfail|]. split.
  - exact (proj1 (Hiff "P" "N" ModeAfter demoDocument demoPage
                       eq_refl eq_refl eq_refl) Hfail).
  - exact (proj2 (Hkeep (ECannotAppendUnderPage Paragraph) demoDocument
                        eq_refl eq_refl)).
Defined.

(** C2 on the demo document: a note placed after the surface lands at
    index 1 of the page's children. *)
Lemma placement_by_reference_instance :
  exists ctx created s',
    appendToDocument noteAfterSurface demoDocument = (Ok (ctx, created), s')
    /\ Ctx.parentId ctx = "P"
    /\ Ctx.insertIndex ctx = 1
    /\ childPlacedAt s' "P" demoPage 1 (Created.blockId created).
Proof.
  destruct (placement_by_reference noteAfterSurface demoDocument
              (mkPlacement None (Some "S") None None) After "S" eq_refl)
    as [Hok _].
  { split; [discriminate | reflexivity]. }
  destruct (Hok demoSurface "P" demoPage eq_refl eq_refl)
    as [ctx [created [s' H]]];
    try reflexivity; try (vm_compute; discriminate).
  exists ctx, created, s'. exact H.
Defined.

(** C3 on the demo document: the note has no children, so index 0 is the
    plain append and index 5 is rejected. *)
Lemma index_at_length_instance :
  appendToDocument (withPlacement plainParagraph (underParent "N" (Some 0)))
                        demoDocument
    = appendToDocument (withPlacement plainParagraph (underParent "N" None))
                       demoDocument
  /\ exists e,
       fst (appendToDocument
              (withPlacement plainParagraph (underParent "N" (Some 5)))
              demoDocument) = Err e.
Proof.
  destruct (index_at_length_is_append plainParagraph demoDocument "N" demoNote
              ltac:(discriminate) eq_refl) as [Hsame [_ [Hstrict _]]].
  split; [exact Hsame|].
  destruct (Hstrict 5 ltac:(reflexivity) eq_refl) as [e [He _]].
  exists e. exact He.
Defined.

(** C4 on the demo document: a paragraph with no placement goes under the
    note. *)
Lemma implicit_parent_instance :
  exists ctx created s',
    appendToDocument plainParagraph demoDocument = (Ok (ctx, created), s')
    /\ Ctx.parentId ctx = "N"
    /\ childAppended s' "N" demoNote (Created.blockId created).
Proof.
  destruct (implicit_parent_by_kind plainParagraph demoDocument eq_refl)
    as [_ [_ [_ [Hexists _]]]].
  destruct (Hexists "N" demoNote eq_refl eq_refl eq_refl)
    as [ctx [created [s' H]]]; [vm_compute; discriminate|].
  exists ctx, created, s'. exact H.
Defined.

(** C5 on a run against a server that reports the document missing. *)
Lemma push_is_last_instance :
  exists added,
    trace (snd (appendBlockInternal (fun _ => true) demoConfig
                  (bareRequest "doc" "paragraph") documentMissing))
    = (trace documentMissing ++ added)%list
    /\ (afterFirstPush added = None
        \/ afterFirstPush added = Some [ EvDisconnect ]).
Proof.
  destruct (proj1 (push_is_last_for_append_and_delete
                     (fun _ => true) demoConfig documentMissing)
                  (bareRequest "doc" "paragraph"))
    as [added [Htrace [Hlast _]]].
  exists added. split; [exact Htrace | exact Hlast].
Defined.

(** C6 on a run of read_doc against a server that reports the document
    missing. *)
Lemma load_not_found_instance :
  fst (readDocHandler demoConfig None "doc" documentMissing)
  = Ok (ReadDoc.mkOutput "doc" None false 0%nat [] "").
Proof.
  exact (proj1 (proj2 (proj2 (proj2
           (load_not_found_is_not_an_error demoConfig documentMissing []))))
           None "ws-1" "doc" None None None eq_refl I).
Defined.

(** C8 on an image request with no blob id. *)
Lemma media_instance :
  exists e,
    normalizeAppendBlockInput (fun _ => true) imageWithoutSource = Err e.
Proof.
  exact (proj1 (media_needs_sourceId_and_name_is_defaulted
                  (fun _ => true) imageWithoutSource
                  (mkTypeInfo Image None None None) eq_refl
                  (or_intror eq_refl))
               eq_refl).
Defined.

(** C9 on a request that names both references and an index. *)
Lemma conflicting_placement_instance :
  exists e,
    normalizeAppendBlockInput (fun _ => true) contradictoryPlacement = Err e
    /\ appendBlockInternal (fun _ => true) demoConfig contradictoryPlacement
                           documentMissing
       = (Err e, documentMissing).
Proof.
  exact (proj1 (proj1 (conflicting_placement_rejected_locally
                         (fun _ => true) demoConfig)
                      contradictoryPlacement
                      (mkPlacement None (Some "a") (Some "b") (Some 0))
                      documentMissing eq_refl
                      (or_introl (conj eq_refl eq_refl)))).
Defined.

(** C10 on [bulleted_list] with style todo and [heading1] with level 3. *)
Lemma alias_precedence_instance :
  (exists n,
      normalizeAppendBlockInput (fun _ => true) bulletedSaysTodo = Ok n
      /\ Norm.listStyle n = "bulleted")
  /\ (exists n,
         normalizeAppendBlockInput (fun _ => true) heading1SaysLevel3 = Ok n
         /\ Norm.headingLevel n = 3).
Proof.
  destruct (alias_precedence_list_versus_heading (fun _ => true))
    as [Hlist Hheading].
  split.
  - destruct (normalizeAppendBlockInput (fun _ => true) bulletedSaysTodo)
      as [n|e] eqn:E; [|vm_compute in E; discriminate].
    exists n. split; [reflexivity|].
    exact (proj2 (Hlist (bareRequest "doc" "bulleted_list")
                        (mkTypeInfo ListT (Some bulleted_list) None
                                    (Some "bulleted"))
                        "bulleted" "todo" eq_refl eq_refl) n E).
  - destruct (normalizeAppendBlockInput (fun _ => true) heading1SaysLevel3)
      as [n|e] eqn:E; [|vm_compute in E; discriminate].
    exists n. split; [reflexivity|].
    exact (proj1 (Hheading heading1SaysLevel3
                           (mkTypeInfo Heading (Some heading1) (Some 1) None)
                           1 3 n eq_refl eq_refl eq_refl E)).
Defined.

(* ================================================================== *)
(** * Further properties of the code *)
(* ================================================================== *)

(** ** Block schema: what a validated request guarantees *)

(** Expose the checks a successful validation has passed: each condition of
    the chain becomes a hypothesis that it is false. *)
Ltac passed_checks H :=
  repeat (cbn [throwIf rbind] in H;
          match type of H with
          | context [throwIf ?c _] =>
              let E := fresh "Hchk" in
              destruct c eqn:E; [discriminate H|]
          | context [if ?c then Err _ else _] =>
              let E := fresh "Hchk" in
              destruct c eqn:E; [discriminate H|]
          end).

Lemma in_includes (x : string) (l : list string) :
  JS.includes x l = true -> In x l.
Proof.
  unfold JS.includes. rewrite existsb_exists. intros [y [Hy He]].
  apply String.eqb_eq in He. now subst.
Qed.

Lemma truthy_false (s : string) : JS.truthy s = false <-> s = "".
Proof.
  unfold JS.truthy. rewrite negb_false_iff. apply String.eqb_eq.
Qed.

Lemma orStr_truthy (s d : string) :
  JS.truthy d = true -> JS.truthy (JS.orStr s d) = true.
Proof. unfold JS.orStr. destruct (JS.truthy s) eqn:E; auto. Qed.

Lemma validated_fields (urlParses : string -> bool) (n : Norm.t) (raw : Raw.t) :
  validateNormalizedAppendBlockInput urlParses n raw = Ok tt ->
  (Norm.type n = Heading -> 1 <= Norm.headingLevel n <= 6)
  /\ (Norm.type n = ListT ->
      In (Norm.listStyle n) APPEND_BLOCK_LIST_STYLE_VALUES)
  /\ (Norm.type n = Code -> (String.length (Norm.language n) <= 64)%nat)
  /\ (urlAllowed (Norm.type n) = true ->
      Norm.url n <> "" /\ urlParses (Norm.url n) = true)
  /\ (Norm.type n = Bookmark ->
      In (Norm.bookmarkStyle n) APPEND_BLOCK_BOOKMARK_STYLE_VALUES)
  /\ (Norm.type n = Image \/ Norm.type n = Attachment ->
      Norm.sourceId n <> "")
  /\ (Norm.type n = EmbedLinkedDoc \/ Norm.type n = EmbedSyncedDoc ->
      Norm.pageId n <> "")
  /\ (Norm.type n = SurfaceRef ->
      Norm.reference n <> "" /\ Norm.refFlavour n <> "")
  /\ (Norm.type n = Frame \/ Norm.type n = EdgelessText \/ Norm.type n = Note ->
      1 <= Norm.width n <= 10000 /\ 1 <= Norm.height n <= 10000)
  /\ (Norm.type n = Table ->
      1 <= Norm.rows n <= 20 /\ 1 <= Norm.columns n <= 20).
Proof.
  intros Hv. unfold validateNormalizedAppendBlockInput in Hv.
  destruct (Norm.type n) eqn:Ety;
    cbn [tyEqb BlockType_beq negb orb andb prefix typeName urlAllowed existsb
         requiresUrl] in Hv;
    passed_checks Hv.
  all: repeat split; intros;
    repeat match goal with
           | H : _ \/ _ |- _ => destruct H
           end;
    try discriminate.
  all: repeat match goal with
         | H : negb _ = false |- _ => apply negb_false_iff in H
         | H : (_ || _)%bool = false |- _ => apply orb_false_iff in H; destruct H
         | H : JS.includes _ _ = true |- _ => apply in_includes in H
         | H : JS.truthy _ = true |- _ => apply truthy_true in H
         end;
    try assumption; try lia.
  all: try (apply Nat.ltb_ge; assumption).
Qed.

Lemma normalize_inv (urlParses : string -> bool) (parsed : Raw.t) (n : Norm.t) :
  normalizeAppendBlockInput urlParses parsed = Ok n ->
  exists ti pl,
    normalizeBlockTypeInput (Raw.type parsed) = Ok ti
    /\ normalizePlacement (Raw.placement parsed) = Ok pl
    /\ n = buildNormalized parsed ti pl
    /\ validateNormalizedAppendBlockInput urlParses n parsed = Ok tt.
Proof.
  unfold normalizeAppendBlockInput. intros H.
  destruct (normalizeBlockTypeInput _) as [ti|]; [|discriminate].
  cbn [rbind] in H.
  destruct (normalizePlacement _) as [pl|]; [|discriminate].
  cbn [rbind] in H.
  destruct (validateNormalizedAppendBlockInput _ _ _) as [[]|] eqn:Hv;
    [|discriminate].
  cbn [rbind] in H. injection H as <-.
  exists ti, pl. repeat split; assumption || reflexivity.
Qed.

(** X1: whatever the request, a normalised request that passed validation has
    every numeric field inside its range and every field its block type
    needs filled in. *)
Theorem validated_request_is_in_range :
  forall (urlParses : string -> bool) (parsed : Raw.t) (n : Norm.t),
    normalizeAppendBlockInput urlParses parsed = Ok n ->
    1 <= Norm.headingLevel n <= 6
    /\ 0 <= Norm.size n
    /\ Norm.name n <> "" /\ Norm.mimeType n <> "" /\ Norm.background n <> ""
    /\ Norm.language n <> ""
    /\ (Norm.type n = ListT ->
        In (Norm.listStyle n) APPEND_BLOCK_LIST_STYLE_VALUES)
    /\ (Norm.type n = Code -> (String.length (Norm.language n) <= 64)%nat)
    /\ (urlAllowed (Norm.type n) = true ->
        Norm.url n <> "" /\ urlParses (Norm.url n) = true)
    /\ (Norm.type n = Bookmark ->
        In (Norm.bookmarkStyle n) APPEND_BLOCK_BOOKMARK_STYLE_VALUES)
    /\ (Norm.type n = Image \/ Norm.type n = Attachment ->
        Norm.sourceId n <> "")
    /\ (Norm.type n = EmbedLinkedDoc \/ Norm.type n = EmbedSyncedDoc ->
        Norm.pageId n <> "")
    /\ (Norm.type n = SurfaceRef ->
        Norm.reference n <> "" /\ Norm.refFlavour n <> "")
    /\ (Norm.type n = Frame \/ Norm.type n = EdgelessText \/ Norm.type n = Note ->
        1 <= Norm.width n <= 10000 /\ 1 <= Norm.height n <= 10000)
    /\ (Norm.type n = Table ->
        1 <= Norm.rows n <= 20 /\ 1 <= Norm.columns n <= 20).
Proof.
  intros urlParses parsed n H.
  destruct (normalize_inv _ _ _ H) as [ti [pl [_ [_ [Hn Hv]]]]].
  destruct (validated_fields _ _ _ Hv)
    as [_ [H2 [H3 [H4 [H5 [H6 [H7 [H8 [H9 H10]]]]]]]]].
  split; [subst n; cbn; lia|].
  split; [subst n; cbn; unfold flooredAtLeast; destruct (Raw.size parsed); lia|].
  split; [subst n; apply truthy_true, trimmedOr_truthy; reflexivity|].
  split; [subst n; apply truthy_true, trimmedOr_truthy; reflexivity|].
  split; [subst n; apply truthy_true, trimmedOr_truthy; reflexivity|].
  split; [subst n; apply truthy_true, orStr_truthy; reflexivity|].
  repeat split; auto; try (apply H4; assumption); try (apply H8; assumption);
    try (apply H9; assumption); try (apply H10; assumption).
Qed.

Lemma validated_request_instance :
  exists n,
    normalizeAppendBlockInput (fun _ => true) tableOfFourRows = Ok n
    /\ Norm.type n = Table
    /\ 1 <= Norm.rows n <= 20 /\ 1 <= Norm.columns n <= 20.
Proof.
  destruct (normalizeAppendBlockInput (fun _ => true) tableOfFourRows)
    as [n|e] eqn:E; [|vm_compute in E; discriminate].
  exists n. split; [reflexivity|].
  assert (Ht : Norm.type n = Table) by (vm_compute in E; now injection E as <-).
  split; [exact Ht|].
  exact (proj2 (proj2 (proj2 (proj2 (proj2 (proj2 (proj2 (proj2 (proj2 (proj2
           (proj2 (proj2 (proj2 (proj2
             (validated_request_is_in_range (fun _ => true) tableOfFourRows n E)
           ))))))))))))) Ht).
Defined.

Lemma strict_fields (urlParses : string -> bool) (n : Norm.t) (raw : Raw.t) :
  validateNormalizedAppendBlockInput urlParses n raw = Ok tt ->
  Norm.strict n = true ->
  (Raw.level raw <> None -> Norm.type n = Heading)
  /\ (Raw.style raw <> None -> Norm.type n = ListT)
  /\ (Raw.checked raw <> None ->
      Norm.type n = ListT /\ Norm.listStyle n = "todo")
  /\ (Raw.language raw <> None -> Norm.type n = Code)
  /\ (Raw.caption raw <> None ->
      Norm.type n = Code \/ Norm.type n = Bookmark \/ Norm.type n = Image
      \/ Norm.type n = Attachment \/ Norm.type n = SurfaceRef
      \/ prefix "embed_" (typeName (Norm.type n)) = true)
  /\ (hasText (Raw.text raw) = true -> Norm.type n <> Divider)
  /\ (Raw.url raw <> None -> urlAllowed (Norm.type n) = true)
  /\ (Raw.bookmarkStyle raw <> None -> Norm.type n = Bookmark)
  /\ (Raw.sourceId raw <> None \/ Raw.name raw <> None
      \/ Raw.mimeType raw <> None \/ Raw.embed raw <> None
      \/ Raw.size raw <> None ->
      Norm.type n = Image \/ Norm.type n = Attachment)
  /\ (Raw.latex raw <> None -> Norm.type n = Latex)
  /\ (Norm.type n = Latex -> Norm.latex n <> "")
  /\ (Raw.pageId raw <> None ->
      Norm.type n = EmbedLinkedDoc \/ Norm.type n = EmbedSyncedDoc)
  /\ (Raw.html raw <> None \/ Raw.design raw <> None ->
      Norm.type n = EmbedHtml)
  /\ (Norm.type n = EmbedHtml -> Norm.html n <> "" \/ Norm.design n <> "")
  /\ (Raw.iframeUrl raw <> None ->
      Norm.type n = EmbedIframe /\ Norm.iframeUrl n <> "")
  /\ (Raw.reference raw <> None \/ Raw.refFlavour raw <> None ->
      Norm.type n = SurfaceRef)
  /\ (Raw.width raw <> None \/ Raw.height raw <> None ->
      Norm.type n = Frame \/ Norm.type n = EdgelessText \/ Norm.type n = Note)
  /\ (Raw.background raw <> None ->
      Norm.type n = Frame \/ Norm.type n = Note)
  /\ (Raw.rows raw <> None \/ Raw.columns raw <> None -> Norm.type n = Table).
Proof.
  intros Hv Hs. unfold validateNormalizedAppendBlockInput in Hv.
  rewrite Hs in Hv.
  destruct (Norm.type n) eqn:Ety;
    cbn [tyEqb BlockType_beq negb orb andb prefix typeName urlAllowed existsb
         requiresUrl] in Hv;
    rewrite ?andb_true_r in Hv;
    passed_checks Hv.
  all: unfold JS.defined in *.
  all: repeat split; intros;
    repeat match goal with
           | H : _ \/ _ |- _ => destruct H
           end;
    try discriminate; try reflexivity; auto 7.
  all: repeat match goal with
         | H : (_ || _)%bool = false |- _ => apply orb_false_iff in H; destruct H
         end.
  all: repeat match goal with
         | H : ?o <> None |- _ =>
             destruct o; [clear H | exfalso; apply H; reflexivity]
         end;
    try discriminate.
  all: cbn [negb andb orb] in *; rewrite ?andb_true_r in *; try discriminate.
  all: repeat match goal with
         | H : negb _ = false |- _ => apply negb_false_iff in H
         | H : (negb _ && negb _)%bool = false |- _ =>
             apply andb_false_iff in H; destruct H
         | H : JS.truthy _ = true |- _ => apply truthy_true in H
         | H : (_ =? _)%string = true |- _ => apply String.eqb_eq in H
         end;
    auto; try congruence.
Qed.

(** X2: in strict mode the field set of a request is closed: a request that
    passed validation gives an optional field only when its block type has
    that field. *)
Theorem strict_request_has_no_foreign_field :
  forall (urlParses : string -> bool) (parsed : Raw.t) (n : Norm.t),
    normalizeAppendBlockInput urlParses parsed = Ok n ->
    Raw.strict parsed <> Some false ->
    Norm.strict n = true
    /\ (Raw.level parsed <> None -> Norm.type n = Heading)
    /\ (Raw.style parsed <> None -> Norm.type n = ListT)
    /\ (Raw.checked parsed <> None ->
        Norm.type n = ListT /\ Norm.listStyle n = "todo")
    /\ (Raw.language parsed <> None -> Norm.type n = Code)
    /\ (Raw.caption parsed <> None ->
        Norm.type n = Code \/ Norm.type n = Bookmark \/ Norm.type n = Image
        \/ Norm.type n = Attachment \/ Norm.type n = SurfaceRef
        \/ prefix "embed_" (typeName (Norm.type n)) = true)
    /\ (hasText (Raw.text parsed) = true -> Norm.type n <> Divider)
    /\ (Raw.url parsed <> None -> urlAllowed (Norm.type n) = true)
    /\ (Raw.bookmarkStyle parsed <> None -> Norm.type n = Bookmark)
    /\ (Raw.sourceId parsed <> None \/ Raw.name parsed <> None
        \/ Raw.mimeType parsed <> None \/ Raw.embed parsed <> None
        \/ Raw.size parsed <> None ->
        Norm.type n = Image \/ Norm.type n = Attachment)
    /\ (Raw.latex parsed <> None -> Norm.type n = Latex)
    /\ (Norm.type n = Latex -> Norm.latex n <> "")
    /\ (Raw.pageId parsed <> None ->
        Norm.type n = EmbedLinkedDoc \/ Norm.type n = EmbedSyncedDoc)
    /\ (Raw.html parsed <> None \/ Raw.design parsed <> None ->
        Norm.type n = EmbedHtml)
    /\ (Norm.type n = EmbedHtml -> Norm.html n <> "" \/ Norm.design n <> "")
    /\ (Raw.iframeUrl parsed <> None ->
        Norm.type n = EmbedIframe /\ Norm.iframeUrl n <> "")
    /\ (Raw.reference parsed <> None \/ Raw.refFlavour parsed <> None ->
        Norm.type n = SurfaceRef)
    /\ (Raw.width parsed <> None \/ Raw.height parsed <> None ->
        Norm.type n = Frame \/ Norm.type n = EdgelessText \/ Norm.type n = Note)
    /\ (Raw.background parsed <> None ->
        Norm.type n = Frame \/ Norm.type n = Note)
    /\ (Raw.rows parsed <> None \/ Raw.columns parsed <> None ->
        Norm.type n = Table).
Proof.
  intros urlParses parsed n H Hs.
  destruct (normalize_inv _ _ _ H) as [ti [pl [_ [_ [Hn Hv]]]]].
  assert (Hstrict : Norm.strict n = true).
  { subst n. cbn. destruct (Raw.strict parsed) as [[|]|]; congruence. }
  split; [exact Hstrict|].
  exact (strict_fields _ _ _ Hv Hstrict).
Qed.

Lemma strict_request_instance :
  exists n,
    normalizeAppendBlockInput (fun _ => true) headingWithLevel = Ok n
    /\ Norm.strict n = true /\ Norm.type n = Heading.
Proof.
  destruct (normalizeAppendBlockInput (fun _ => true) headingWithLevel)
    as [n|e] eqn:E; [|vm_compute in E; discriminate].
  exists n. split; [reflexivity|].
  destruct (strict_request_has_no_foreign_field
              (fun _ => true) headingWithLevel n E ltac:(discriminate))
    as [Hs [Hl _]].
  split; [exact Hs | apply Hl; discriminate].
Defined.

Lemma relaxed_validates (urlParses : string -> bool) (n : Norm.t)
    (raw : Raw.t) (strict : option bool) :
  validateNormalizedAppendBlockInput urlParses n raw = Ok tt ->
  validateNormalizedAppendBlockInput urlParses (relaxed n)
                                     (withStrict raw strict) = Ok tt.
Proof.
  intros Hv. unfold validateNormalizedAppendBlockInput in *.
  cbn [relaxed withStrict Norm.type Norm.strict Norm.headingLevel
       Norm.listStyle Norm.language Norm.url Norm.bookmarkStyle Norm.sourceId
       Norm.name Norm.mimeType Norm.latex Norm.pageId Norm.html Norm.design
       Norm.iframeUrl Norm.reference Norm.refFlavour Norm.width Norm.height
       Norm.rows Norm.columns
       Raw.level Raw.checked Raw.style Raw.language Raw.caption Raw.text
       Raw.bookmarkStyle Raw.url Raw.sourceId Raw.name Raw.mimeType Raw.embed
       Raw.size Raw.latex Raw.pageId Raw.html Raw.design Raw.iframeUrl
       Raw.reference Raw.refFlavour Raw.width Raw.height Raw.background
       Raw.rows Raw.columns].
  rewrite ?andb_false_r.
  destruct (Norm.type n) eqn:Ety;
    cbn [tyEqb BlockType_beq negb orb andb prefix typeName urlAllowed existsb
         requiresUrl throwIf rbind] in *;
    passed_checks Hv; reflexivity.
Qed.

(** X3: strict mode only removes requests.  A request that is accepted is
    accepted as well with [strict: false], and normalises to the same
    fields. *)
Theorem strict_mode_only_rejects :
  forall (urlParses : string -> bool) (parsed : Raw.t) (n : Norm.t),
    normalizeAppendBlockInput urlParses parsed = Ok n ->
    normalizeAppendBlockInput urlParses (withStrict parsed (Some false))
    = Ok (relaxed n).
Proof.
  intros urlParses parsed n H.
  destruct (normalize_inv _ _ _ H) as [ti [pl [Hti [Hpl [Hn Hv]]]]].
  unfold normalizeAppendBlockInput.
  change (Raw.type (withStrict parsed (Some false))) with (Raw.type parsed).
  change (Raw.placement (withStrict parsed (Some false)))
    with (Raw.placement parsed).
  rewrite Hti, Hpl. cbn [rbind].
  change (buildNormalized (withStrict parsed (Some false)) ti pl)
    with (relaxed (buildNormalized parsed ti pl)).
  rewrite <- Hn. rewrite (relaxed_validates _ _ _ (Some false) Hv).
  reflexivity.
Qed.

Lemma strict_mode_only_rejects_instance :
  exists n,
    normalizeAppendBlockInput (fun _ => true) headingWithLevel = Ok n
    /\ normalizeAppendBlockInput (fun _ => true)
         (withStrict headingWithLevel (Some false)) = Ok (relaxed n).
Proof.
  destruct (normalizeAppendBlockInput (fun _ => true) headingWithLevel)
    as [n|e] eqn:E; [|vm_compute in E; discriminate].
  exists n. split; [reflexivity|].
  exact (strict_mode_only_rejects (fun _ => true) headingWithLevel n E).
Defined.

(** X4: the names [normalizeBlockTypeInput] accepts are the twenty-six
    canonical names and the six legacy names, whatever the case and the
    surrounding blanks; every other input is rejected with the input
    quoted. *)
Theorem type_names_accepted :
  (forall t, normalizeBlockTypeInput (typeName t)
             = Ok (mkTypeInfo t None None None))
  /\ (forall l, exists t h s,
         normalizeBlockTypeInput (legacyName l) = Ok (mkTypeInfo t (Some l) h s)
         /\ In (l, t) APPEND_BLOCK_LEGACY_ALIAS_MAP)
  /\ (forall input ti,
         normalizeBlockTypeInput input = Ok ti ->
         match ti_legacyType ti with
         | None => typeName (ti_type ti)
         | Some l => legacyName l
         end = JS.toLowerCase (JS.trim input))
  /\ (forall input e,
         normalizeBlockTypeInput input = Err e ->
         e = EUnsupportedType input
         /\ (forall t, typeName t <> JS.toLowerCase (JS.trim input))
         /\ (forall l, legacyName l <> JS.toLowerCase (JS.trim input))).
Proof.
  split; [|split; [|split]].
  - intros t. destruct t; reflexivity.
  - intros l. destruct l; do 3 eexists; (split; [reflexivity|]);
      cbn; tauto.
  - intros input ti. unfold normalizeBlockTypeInput.
    destruct (find _ APPEND_BLOCK_CANONICAL_TYPE_VALUES) as [t|] eqn:F1.
    + intros [= <-]. apply find_some in F1. cbn.
      now apply String.eqb_eq.
    + destruct (find _ APPEND_BLOCK_LEGACY_ALIAS_MAP) as [[l t]|] eqn:F2;
        [|discriminate].
      intros [= <-]. apply find_some in F2. cbn.
      now apply String.eqb_eq.
  - intros input e. unfold normalizeBlockTypeInput.
    destruct (find _ APPEND_BLOCK_CANONICAL_TYPE_VALUES) as [t|] eqn:F1;
      [discriminate|].
    destruct (find _ APPEND_BLOCK_LEGACY_ALIAS_MAP) as [[l t]|] eqn:F2;
      [discriminate|].
    intros [= <-]. split; [reflexivity|]. split.
    + intros t. apply String.eqb_neq.
      apply (find_none _ _ F1 t). destruct t; cbn; tauto.
    + intros l. apply String.eqb_neq.
      destruct l;
        [ apply (find_none _ _ F2 (heading1, Heading))
        | apply (find_none _ _ F2 (heading2, Heading))
        | apply (find_none _ _ F2 (heading3, Heading))
        | apply (find_none _ _ F2 (bulleted_list, ListT))
        | apply (find_none _ _ F2 (numbered_list, ListT))
        | apply (find_none _ _ F2 (todo, ListT)) ];
        cbn; tauto.
Qed.

Lemma type_names_instance :
  typeName Heading = JS.toLowerCase (JS.trim "  HEADING ")
  /\ legacyName todo = JS.toLowerCase (JS.trim "Todo")
  /\ normalizeBlockTypeInput "mind map" = Err (EUnsupportedType "mind map")
  /\ typeName Table <> JS.toLowerCase (JS.trim "mind map").
Proof.
  destruct type_names_accepted as [_ [_ [Hok Herr]]].
  split; [exact (Hok "  HEADING " (mkTypeInfo Heading None None None) eq_refl)|].
  split; [exact (Hok "Todo" (mkTypeInfo ListT (Some todo) None (Some "todo"))
                     eq_refl)|].
  split; [reflexivity|].
  exact (proj1 (proj2 (Herr "mind map" (EUnsupportedType "mind map") eq_refl))
               Table).
Defined.

(** [trim] is idempotent. *)
Lemma trimStart_head (s : string) (c : ascii) (r : string) :
  JS.trimStart s = String c r -> JS.isSpace c = false.
Proof.
  induction s as [|d s IH]; cbn; [discriminate|].
  destruct (JS.isSpace d) eqn:E; [exact IH|]. now intros [= <- _].
Qed.

Lemma trimEnd_idempotent (s : string) : JS.trimEnd (JS.trimEnd s) = JS.trimEnd s.
Proof.
  induction s as [|c r IH]; [reflexivity|].
  cbn. destruct (JS.trimEnd r) as [|d t] eqn:E.
  - destruct (JS.isSpace c) eqn:Ec; cbn; [reflexivity|]. now rewrite Ec.
  - cbn [JS.trimEnd] in *. fold JS.trimEnd in *.
    change (JS.trimEnd (String c (String d t)))
      with (match JS.trimEnd (String d t) with
            | EmptyString =>
                if JS.isSpace c then EmptyString else String c EmptyString
            | r' => String c r'
            end).
    rewrite IH. reflexivity.
Qed.

Lemma trimEnd_head (c : ascii) (r : string) :
  JS.isSpace c = false -> exists r', JS.trimEnd (String c r) = String c r'.
Proof.
  intros Hc. cbn. destruct (JS.trimEnd r); [rewrite Hc|]; eauto.
Qed.

Lemma trim_idempotent (s : string) : JS.trim (JS.trim s) = JS.trim s.
Proof.
  unfold JS.trim. destruct (JS.trimStart s) as [|c r] eqn:E; [reflexivity|].
  pose proof (trimStart_head _ _ _ E) as Hc.
  destruct (trimEnd_head c r Hc) as [r' Hr]. rewrite Hr.
  cbn [JS.trimStart]. rewrite Hc. rewrite <- Hr. apply trimEnd_idempotent.
Qed.

Lemma keepTrimmed_some (o : option string) (id : string) :
  keepTrimmed o = Some id -> id <> "" /\ JS.trim id = id.
Proof.
  destruct o as [s|]; cbn; [|discriminate].
  destruct (JS.truthy (JS.trim s)) eqn:E; [|discriminate].
  intros [= <-]. split; [now apply truthy_true | apply trim_idempotent].
Qed.

Lemma keepTrimmed_idempotent (o : option string) :
  keepTrimmed (keepTrimmed o) = keepTrimmed o.
Proof.
  destruct (keepTrimmed o) as [id|] eqn:E; [|reflexivity].
  destruct (keepTrimmed_some _ _ E) as [Hne Htrim].
  cbn. rewrite Htrim. apply truthy_true in Hne. now rewrite Hne.
Qed.

Lemma given_kept (o : option string) :
  given (keepTrimmed o) = JS.defined (keepTrimmed o).
Proof.
  destruct (keepTrimmed o) as [id|] eqn:E; [|reflexivity].
  destruct (keepTrimmed_some _ _ E) as [Hne _]. cbn. now apply truthy_true.
Qed.

(** X5: what [normalizePlacement] returns is consistent: ids are stored
    trimmed and not empty, at most one reference is named, an index is
    non-negative and comes without a reference, and normalising it again
    changes nothing.  A placement that names nothing (absent or blank ids, no
    index) is treated as no placement. *)
Theorem normalized_placement_is_consistent :
  forall (pl : AppendPlacement),
    (forall pl',
        normalizePlacement (Some pl) = Ok (Some pl') ->
        (forall id,
            parentId pl' = Some id \/ afterBlockId pl' = Some id
            \/ beforeBlockId pl' = Some id ->
            id <> "" /\ JS.trim id = id)
        /\ (afterBlockId pl' = None \/ beforeBlockId pl' = None)
        /\ (forall i, index pl' = Some i ->
                      0 <= i /\ afterBlockId pl' = None
                      /\ beforeBlockId pl' = None)
        /\ (parentId pl' <> None \/ afterBlockId pl' <> None
            \/ beforeBlockId pl' <> None \/ index pl' <> None)
        /\ normalizePlacement (Some pl') = Ok (Some pl'))
    /\ (normalizePlacement (Some pl) = Ok None <->
        JS.trimmedTruthy (parentId pl) = false
        /\ JS.trimmedTruthy (afterBlockId pl) = false
        /\ JS.trimmedTruthy (beforeBlockId pl) = false
        /\ index pl = None).
Proof.
  intros pl. split.
  - intros pl'. unfold normalizePlacement.
    cbn [parentId afterBlockId beforeBlockId index].
    rewrite !given_kept.
    destruct (keepTrimmed (parentId pl)) as [p|] eqn:Ep;
      destruct (keepTrimmed (afterBlockId pl)) as [a|] eqn:Ea;
      destruct (keepTrimmed (beforeBlockId pl)) as [b|] eqn:Eb;
      destruct (index pl) as [i|] eqn:Ei;
      cbn [JS.defined andb orb negb throwIf rbind];
      try destruct (i <? 0) eqn:Hi;
      cbn [JS.defined andb orb negb throwIf rbind];
      try discriminate;
      intros [= <-];
      cbn [parentId afterBlockId beforeBlockId index];
      rewrite ?Ep, ?Ea, ?Eb;
      cbn [keepTrimmed];
      repeat match goal with
             | H : keepTrimmed _ = Some ?x |- _ =>
                 let H1 := fresh in let H2 := fresh in
                 destruct (keepTrimmed_some _ _ H) as [H1 H2];
                 pose proof (proj2 (truthy_true _) H1);
                 clear H
             end;
      repeat match goal with
             | H : JS.trim ?x = ?x |- _ => rewrite !H
             end;
      repeat match goal with
             | H : JS.truthy ?x = true |- _ => rewrite !H
             end;
      cbn [JS.defined given andb orb negb throwIf rbind index
           parentId afterBlockId beforeBlockId];
      rewrite ?Hi;
      cbn [JS.defined given andb orb negb throwIf rbind];
      (split; [intros id [Hid|[Hid|Hid]]; try discriminate;
               injection Hid as <-; split; assumption|]);
      (split; [auto|]);
      (split; [intros j Hj; try discriminate; injection Hj as <-;
               repeat split; try reflexivity; apply Z.ltb_ge; assumption|]);
      (split; [|reflexivity]);
      first [ left; discriminate | right; left; discriminate
            | right; right; left; discriminate
            | right; right; right; discriminate ].
  - unfold normalizePlacement.
    cbn [parentId afterBlockId beforeBlockId index].
    rewrite <- !given_keepTrimmed, !given_kept.
    destruct (keepTrimmed (parentId pl)) as [p|];
      destruct (keepTrimmed (afterBlockId pl)) as [a|];
      destruct (keepTrimmed (beforeBlockId pl)) as [b|];
      destruct (index pl) as [i|];
      cbn [JS.defined andb orb negb throwIf rbind];
      try destruct (i <? 0) eqn:Hi;
      cbn [JS.defined andb orb negb throwIf rbind];
      split; try discriminate; try tauto;
      intros [? [? [? ?]]]; discriminate.
Qed.

Lemma normalized_placement_instance :
  normalizePlacement (Some paddedParent)
  = Ok (Some (mkPlacement (Some "N") None None (Some 2)))
  /\ normalizePlacement (Some (mkPlacement (Some "N") None None (Some 2)))
     = Ok (Some (mkPlacement (Some "N") None None (Some 2)))
  /\ normalizePlacement (Some (mkPlacement (Some " ") None None None)) = Ok None.
Proof.
  split; [reflexivity|]. split.
  - exact (proj2 (proj2 (proj2 (proj2
             (proj1 (normalized_placement_is_consistent paddedParent)
                    (mkPlacement (Some "N") None None (Some 2)) eq_refl))))).
  - apply (proj2 (normalized_placement_is_consistent
                    (mkPlacement (Some " ") None None None))).
    repeat split.
Defined.

(** ** Identifier generator and block factory *)

Lemma list_ascii_app (a b : string) :
  list_ascii_of_string (a ++ b)
  = (list_ascii_of_string a ++ list_ascii_of_string b)%list.
Proof. induction a as [|c a IH]; cbn; [reflexivity | now rewrite IH]. Qed.

Lemma length_app_string (a b : string) :
  String.length (a ++ b) = (String.length a + String.length b)%nat.
Proof. induction a as [|c a IH]; cbn; [reflexivity | now rewrite IH]. Qed.

Lemma charAt_chars (i : nat) :
  (i < 64)%nat ->
  exists c, charAt chars i = String c ""
            /\ existsb (Ascii.eqb c) (list_ascii_of_string chars) = true.
Proof.
  intros Hi.
  do 64 (destruct i as [|i]; [eexists; split; reflexivity|]).
  lia.
Qed.

Lemma generateIdLoop_shape (k : nat) (r : Rng) (id : string) :
  String.length (fst (generateIdLoop k r id)) = (String.length id + k)%nat
  /\ (fromAlphabet id -> fromAlphabet (fst (generateIdLoop k r id)))
  /\ drawn (snd (generateIdLoop k r id)) = (drawn r + k)%nat
  /\ draw (snd (generateIdLoop k r id)) = draw r.
Proof.
  revert r id. induction k as [|k IH]; intros r id.
  - cbn. repeat split; auto; lia.
  - cbn [generateIdLoop].
    destruct (charAt_chars (Nat.modulo (draw r (drawn r)) 64))
      as [c [Hc Hin]].
    { apply Nat.mod_upper_bound. discriminate. }
    change (String.length chars) with 64%nat. rewrite Hc.
    destruct (IH (mkRng (draw r) (S (drawn r))) (id ++ String c "")%string)
      as [Hlen [Hal [Hd Hf]]].
    rewrite Hlen, Hd, Hf. rewrite length_app_string. cbn.
    repeat split; try lia.
    intros Hid. apply Hal. intros x. rewrite list_ascii_app, in_app_iff.
    intros [Hx|[<-|[]]]; [now apply Hid|].
    apply existsb_exists in Hin. destruct Hin as [y [Hy He]].
    apply Ascii.eqb_eq in He. now subst.
Qed.

Lemma generateId_length (r : Rng) :
  String.length (fst (generateId r)) = 10%nat.
Proof. apply (generateIdLoop_shape 10 r ""). Qed.

Lemma generateId_truthy (r : Rng) : JS.truthy (fst (generateId r)) = true.
Proof.
  apply truthy_true. intros E. pose proof (generateId_length r) as H.
  rewrite E in H. discriminate.
Qed.

(** X6: an identifier has ten characters, all of them from the sixty-four of
    the alphabet, and costs ten draws of the random source. *)
Theorem generateId_shape :
  forall (r : Rng),
    String.length (fst (generateId r)) = 10%nat
    /\ fromAlphabet (fst (generateId r))
    /\ fst (generateId r) <> ""
    /\ drawn (snd (generateId r)) = (drawn r + 10)%nat
    /\ draw (snd (generateId r)) = draw r.
Proof.
  intros r.
  destruct (generateIdLoop_shape 10 r "") as [Hlen [Hal [Hd Hf]]].
  split; [exact Hlen|]. split; [apply Hal; intros c []|].
  split; [|split; assumption].
  apply truthy_true, generateId_truthy.
Qed.

Lemma generateId_instance :
  String.length (fst (generateId (mkRng (fun i => 7 * i)%nat 3))) = 10%nat
  /\ drawn (snd (generateId (mkRng (fun i => 7 * i)%nat 3))) = 13%nat.
Proof.
  destruct (generateId_shape (mkRng (fun i => 7 * i)%nat 3))
    as [Hlen [_ [_ [Hd _]]]].
  split; assumption.
Defined.

Lemma createBlock_sys (parentId : string) (normalized : Norm.t) (r : Rng) :
    let created := fst (createBlock parentId normalized r) in
    Created.blockId created = fst (generateId r)
    /\ Y.get (Created.block created) "sys:id"
       = VStr (Created.blockId created)
    /\ Y.get (Created.block created) "sys:flavour"
       = VStr (Created.flavour created)
    /\ Y.get (Created.block created) "sys:version" = VNum 1
    /\ blockVersion (Created.flavour created) = 1
    /\ Y.get (Created.block created) "sys:parent" = VStr parentId
    /\ Y.get (Created.block created) "sys:children" = VYArr []
    /\ prefix "affine:" (Created.flavour created) = true
    /\ Created.flavour created <> "affine:page"
    /\ Created.flavour created <> "affine:surface".
Proof.
  cbv zeta. unfold createBlock.
  destruct (generateId r) as [blockId r1]. cbn [fst].
  destruct (Norm.type normalized);
    try (destruct (tableAxis _ _ _ _ _ _) as [rows r2];
         destruct (tableAxis _ _ _ _ _ _) as [columns r3]);
    try destruct (given (Norm.caption normalized));
    cbn; repeat split; discriminate.
Qed.

(** X7: whatever the type, the block [createBlock] builds carries the
    generated id as [sys:id], the flavour it reports as [sys:flavour],
    version 1, the parent it was given as [sys:parent] and an empty
    [sys:children] array; it never builds a page or a surface. *)
Theorem created_block_system_fields :
  forall (parentId : string) (normalized : Norm.t) (r : Rng),
    let created := fst (createBlock parentId normalized r) in
    Created.blockId created = fst (generateId r)
    /\ Y.get (Created.block created) "sys:id"
       = VStr (Created.blockId created)
    /\ Y.get (Created.block created) "sys:flavour"
       = VStr (Created.flavour created)
    /\ Y.get (Created.block created) "sys:version" = VNum 1
    /\ blockVersion (Created.flavour created) = 1
    /\ Y.get (Created.block created) "sys:parent" = VStr parentId
    /\ Y.get (Created.block created) "sys:children" = VYArr []
    /\ prefix "affine:" (Created.flavour created) = true
    /\ Created.flavour created <> "affine:page"
    /\ Created.flavour created <> "affine:surface".
Proof. exact createBlock_sys. Qed.

Lemma created_block_instance :
  Y.get (Created.block (fst (createBlock "N" plainParagraph
                               (mkRng (fun i => i) 0)))) "sys:parent"
  = VStr "N".
Proof.
  exact (proj1 (proj2 (proj2 (proj2 (proj2 (proj2
           (created_block_system_fields "N" plainParagraph
              (mkRng (fun i => i) 0)))))))).
Defined.

(** ** Tree navigator *)

(** X8: [findBlockIdByFlavour] answers with the [sys:id] of a block of the
    map that has the flavour, the first in insertion order, and with nothing
    exactly when no block has it. *)
Theorem findBlockIdByFlavour_finds_first :
  forall (blocks : Blocks) (flavour : string),
    (forall id,
        findBlockIdByFlavour blocks flavour = Some id ->
        exists before key block after,
          blocks = (before ++ (key, VYMap block) :: after)%list
          /\ Y.get block "sys:flavour" = VStr flavour
          /\ id = stringOf (Y.get block "sys:id")
          /\ findBlockIdByFlavour before flavour = None)
    /\ (findBlockIdByFlavour blocks flavour = None <->
        forall key block,
          In (key, VYMap block) blocks ->
          Y.get block "sys:flavour" <> VStr flavour).
Proof.
  intros blocks0 flavour. split.
  - induction blocks0 as [|[k v] rest IH]; intros id; cbn; [discriminate|].
    assert (Hrest : findBlockIdByFlavour rest flavour = Some id ->
                    (forall b, v = VYMap b ->
                               strIs (Y.get b "sys:flavour") flavour = false) ->
                    exists before key block after,
                      ((k, v) :: rest = before ++ (key, VYMap block) :: after)%list
                      /\ Y.get block "sys:flavour" = VStr flavour
                      /\ id = stringOf (Y.get block "sys:id")
                      /\ findBlockIdByFlavour before flavour = None).
    { intros H Hv. destruct (IH id H) as [bf [key [b [af [E [Hf [Hid Hn]]]]]]].
      exists ((k, v) :: bf)%list, key, b, af. rewrite E.
      repeat split; auto. cbn.
      destruct v; auto. now rewrite (Hv _ eq_refl). }
    destruct v; try (intros H; apply Hrest; [exact H | intros; discriminate]).
    destruct (strIs (Y.get entries "sys:flavour") flavour) eqn:E.
    + intros [= <-]. exists [], k, entries, rest.
      repeat split. now apply strIs_true.
    + intros H. apply Hrest; [exact H|]. now intros b [= <-].
  - induction blocks0 as [|[k v] rest IH]; cbn.
    + split; [intros _ key block [] | reflexivity].
    + destruct v;
        try (rewrite IH; split;
             [ intros H key block [Hin|Hin]; [discriminate | eauto]
             | intros H key block Hin; apply (H key block); now right ]).
      destruct (strIs_spec (Y.get entries "sys:flavour") flavour) as [E|E].
      * split; [discriminate|]. intros H. exfalso.
        apply (H k entries); [now left | exact E].
      * rewrite IH. split.
        -- intros H key block [[= <- <-]|Hin]; [exact E | eauto].
        -- intros H key block Hin. apply (H key block). now right.
Qed.

Lemma findBlockIdByFlavour_instance :
  exists before key block after,
    blocks demoDocument = (before ++ (key, VYMap block) :: after)%list
    /\ Y.get block "sys:flavour" = VStr "affine:note"
    /\ "N" = stringOf (Y.get block "sys:id").
Proof.
  destruct (proj1 (findBlockIdByFlavour_finds_first (blocks demoDocument)
                     "affine:note") "N" eq_refl)
    as [bf [k [b [af [E [Hf [Hid _]]]]]]].
  exists bf, k, b, af. repeat split; assumption.
Defined.

Lemma find_set_same_sys (m : Blocks) (k f : string) (b b' : Y.Entries) :
  Y.get m k = VYMap b ->
  Y.get b' "sys:flavour" = Y.get b "sys:flavour" ->
  Y.get b' "sys:id" = Y.get b "sys:id" ->
  findBlockIdByFlavour (Y.set m k (VYMap b')) f = findBlockIdByFlavour m f.
Proof.
  intros Hget Hf Hid. unfold Y.get in Hget.
  induction m as [|[k' v'] rest IH]; cbn in *; [discriminate|].
  destruct (k' =? k)%string eqn:E.
  - subst v'. cbn. now rewrite Hf, Hid.
  - cbn. rewrite (IH Hget). reflexivity.
Qed.

Lemma find_set_new (m : Blocks) (k f : string) (b : Y.Entries) :
  findBlockIdByFlavour m f = None ->
  Y.get b "sys:flavour" = VStr f ->
  findBlockIdByFlavour (Y.set m k (VYMap b)) f
  = Some (stringOf (Y.get b "sys:id")).
Proof.
  intros Hnone Hf. apply strIs_true in Hf.
  induction m as [|[k' v'] rest IH]; cbn in *; [now rewrite Hf|].
  destruct (k' =? k)%string eqn:E; cbn; [now rewrite Hf|].
  destruct v'; auto.
  destruct (strIs (Y.get entries "sys:flavour") f); [discriminate | auto].
Qed.

Lemma storeUnderPage_find (pid cid f : string) (body : Y.Entries)
    (s s1 : DocState) :
  storeUnderPage pid cid body s = (Ok tt, s1) ->
  findBlockIdByFlavour (blocks s) f = None ->
  Y.get body "sys:flavour" = VStr f ->
  Y.get body "sys:id" = VStr cid ->
  findBlockIdByFlavour (blocks s1) f = Some cid.
Proof.
  unfold storeUnderPage. intros H Hnone Hf Hid.
  destruct (Y.get (Y.set (blocks s) cid (VYMap body)) pid) as [| | | | | | |page| |]
    eqn:Hpage; try discriminate.
  destruct (ensureChildrenArray page) as [page1 cs] eqn:Hen.
  injection H as <-. cbn [blocks].
  rewrite (find_set_same_sys _ pid f page _ Hpage).
  - rewrite (find_set_new _ cid f body Hnone Hf). now rewrite Hid.
  - rewrite get_set_other by discriminate.
    change page1 with (fst (page1, cs)). rewrite <- Hen.
    apply ensureChildrenArray_get. discriminate.
  - rewrite get_set_other by discriminate.
    change page1 with (fst (page1, cs)). rewrite <- Hen.
    apply ensureChildrenArray_get. discriminate.
Qed.

Lemma foundId_none (o : option string) :
  o <> Some "" -> foundId o = None -> o = None.
Proof.
  destruct o as [id|]; cbn; [|reflexivity].
  destruct (JS.truthy id) eqn:E; [discriminate|].
  apply truthy_false in E. subst. congruence.
Qed.

Lemma ensure_again (f : string) (nf : Error) (body : string -> string -> Y.Entries)
    (s s1 : DocState) (id : string) :
  (forall cid pid, Y.get (body cid pid) "sys:flavour" = VStr f
                   /\ Y.get (body cid pid) "sys:id" = VStr cid) ->
  findBlockIdByFlavour (blocks s) f <> Some "" ->
  (s0 <- getS ;;
   match foundId (findBlockIdByFlavour (blocks s0) f) with
   | Some existing => ret existing
   | None =>
       match foundId (findBlockIdByFlavour (blocks s0) "affine:page") with
       | None => throw nf
       | Some pageId =>
           newId <- freshId ;;
           storeUnderPage pageId newId (body newId pageId) ;;
           ret newId
       end
   end)%m s = (Ok id, s1) ->
  foundId (findBlockIdByFlavour (blocks s1) f) = Some id.
Proof.
  intros Hbody Hne. unfold bind, getS, ret, throw, freshId.
  destruct (foundId (findBlockIdByFlavour (blocks s) f)) as [ex|] eqn:Hfound.
  - intros [= <- <-]. exact Hfound.
  - apply foundId_none in Hfound; [|exact Hne].
    destruct (foundId (findBlockIdByFlavour (blocks s) "affine:page"))
      as [pid|]; [|discriminate].
    pose proof (generateId_truthy (rng s)) as Htr.
    destruct (generateId (rng s)) as [cid r1]. cbn [fst] in Htr.
    destruct (storeUnderPage pid cid (body cid pid) (mkDocState (blocks s) r1))
      as [[[]|e] s2] eqn:Hst; [|discriminate].
    intros [= <- <-].
    destruct (Hbody cid pid) as [Hf Hid].
    rewrite (storeUnderPage_find _ _ f _ _ _ Hst Hfound Hf Hid).
    cbn. now rewrite Htr.
Qed.

(** X9: [ensureNoteBlock] and [ensureSurfaceBlock] create their container at
    most once: after a call that succeeded, a second call answers with the
    same id and leaves the document and the random source as they are.  The
    document is assumed to hold no note (surface) whose [sys:id] is the empty
    string. *)
Theorem ensure_container_is_idempotent :
  forall (s s1 : DocState) (id : string),
    (findBlockIdByFlavour (blocks s) "affine:note" <> Some "" ->
     ensureNoteBlock s = (Ok id, s1) ->
     ensureNoteBlock s1 = (Ok id, s1))
    /\ (findBlockIdByFlavour (blocks s) "affine:surface" <> Some "" ->
        ensureSurfaceBlock s = (Ok id, s1) ->
        ensureSurfaceBlock s1 = (Ok id, s1)).
Proof.
  intros s s1 id. split; intros Hne H.
  - pose proof (ensure_again "affine:note" ENoPageForContent noteBody s s1 id
                  (fun cid pid => conj eq_refl eq_refl) Hne H) as Hf.
    unfold ensureNoteBlock, bind, getS. now rewrite Hf.
  - pose proof (ensure_again "affine:surface" ENoPageForSurface surfaceBody
                  s s1 id (fun cid pid => conj eq_refl eq_refl) Hne H) as Hf.
    unfold ensureSurfaceBlock, bind, getS. now rewrite Hf.
Qed.

Lemma ensure_container_instance :
  ensureNoteBlock pageOnly = (Ok "ABCDEFGHIJ", pageOnlyWithNote)
  /\ ensureNoteBlock pageOnlyWithNote = (Ok "ABCDEFGHIJ", pageOnlyWithNote).
Proof.
  split; [reflexivity|].
  apply (proj1 (ensure_container_is_idempotent pageOnly pageOnlyWithNote
                  "ABCDEFGHIJ")).
  - discriminate.
  - reflexivity.
Defined.

(** ** Children arrays *)

Lemma childIdsFrom_app (a b : list YVal) :
  childIdsFrom (VYArr (a ++ b))
  = (childIdsFrom (VYArr a) ++ childIdsFrom (VYArr b))%list.
Proof. cbn. apply flat_map_app. Qed.

Lemma childIdsFrom_cons (e : YVal) (rest : list YVal) :
  childIdsFrom (VYArr (e :: rest))
  = (childIdsFrom (VYArr [ e ]) ++ childIdsFrom (VYArr rest))%list.
Proof. exact (childIdsFrom_app [ e ] rest). Qed.

Lemma legacy_hit (l : list YVal) (id : string) :
  existsb (fun child => strIs child id) l = true
  <-> In id (flat_map (fun child => match child with
                                    | VStr c => [ c ]
                                    | _ => []
                                    end) l).
Proof.
  induction l as [|x l IH]; cbn; [split; [discriminate | tauto]|].
  rewrite orb_true_iff, in_app_iff, IH.
  destruct x; cbn; try (split; [intros [|]; [discriminate | tauto] | tauto]).
  destruct (String.eqb_spec s id); subst; split; intros; auto.
  - destruct H as [|]; [discriminate | tauto].
  - destruct H as [[|[]]|]; [congruence | tauto].
Qed.

Lemma indexOfChildFrom_cons (e : YVal) (rest : list YVal) (id : string) (i : Z) :
  (holds e id /\ indexOfChildFrom (e :: rest) id i = i)
  \/ (~ holds e id
      /\ indexOfChildFrom (e :: rest) id i = indexOfChildFrom rest id (i + 1)).
Proof.
  unfold holds. cbn [indexOfChildFrom].
  destruct e; cbn; try (right; split; [tauto | reflexivity]).
  - destruct (String.eqb_spec s id); [left | right]; split; auto.
    intros [|[]]; congruence.
  - rewrite app_nil_r.
    destruct (existsb (fun child => strIs child id) items) eqn:E.
    + left. split; [now apply legacy_hit | reflexivity].
    + right. split; [|reflexivity]. intros H. apply legacy_hit in H. congruence.
Qed.

Lemma indexOfChildFrom_absent (cs : list YVal) (id : string) (i : Z) :
  ~ In id (childIdsFrom (VYArr cs)) -> indexOfChildFrom cs id i = -1.
Proof.
  revert i. induction cs as [|e rest IH]; intros i Hn; [reflexivity|].
  rewrite childIdsFrom_cons, in_app_iff in Hn.
  destruct (indexOfChildFrom_cons e rest id i) as [[Hh _]|[_ ->]].
  - exfalso. apply Hn. now left.
  - apply IH. tauto.
Qed.

Lemma indexOfChildFrom_found (cs : list YVal) (id : string) (i : Z) :
  In id (childIdsFrom (VYArr cs)) ->
  exists before e after,
    cs = (before ++ e :: after)%list
    /\ indexOfChildFrom cs id i = i + Z.of_nat (List.length before)
    /\ holds e id
    /\ ~ In id (childIdsFrom (VYArr before)).
Proof.
  revert i. induction cs as [|e rest IH]; intros i Hin; [destruct Hin|].
  rewrite childIdsFrom_cons, in_app_iff in Hin.
  destruct (indexOfChildFrom_cons e rest id i) as [[Hh ->]|[Hh ->]].
  - exists [], e, rest. cbn. repeat split; auto. lia.
  - destruct Hin as [Hin|Hin]; [contradiction|].
    destruct (IH (i + 1) Hin) as [bf [x [af [E [Hi [Hx Hbf]]]]]].
    exists (e :: bf)%list, x, af. subst rest. cbn [List.length app].
    repeat split; auto; [lia|].
    rewrite childIdsFrom_cons, in_app_iff. tauto.
Qed.

Lemma childIds_dec (cs : list YVal) (id : string) :
  {In id (childIdsFrom (VYArr cs))} + {~ In id (childIdsFrom (VYArr cs))}.
Proof. apply in_dec, string_dec. Qed.

(** X10: [indexOfChild] and [childIdsFrom] read a children array alike,
    string entries and legacy nested entries both: an id has an index exactly
    when it is among the child ids, and the index is that of the first entry
    that holds it. *)
Theorem indexOfChild_agrees_with_childIdsFrom :
  forall (children : list YVal) (blockId : string),
    (indexOfChild children blockId = -1
     <-> ~ In blockId (childIdsFrom (VYArr children)))
    /\ (In blockId (childIdsFrom (VYArr children)) ->
        exists before entry after,
          children = (before ++ entry :: after)%list
          /\ indexOfChild children blockId = Z.of_nat (List.length before)
          /\ holds entry blockId
          /\ ~ In blockId (childIdsFrom (VYArr before)))
    /\ (indexOfChild children blockId = -1
        \/ 0 <= indexOfChild children blockId
             < Z.of_nat (List.length children)).
Proof.
  intros cs id. unfold indexOfChild.
  assert (Hfound : In id (childIdsFrom (VYArr cs)) ->
                   exists before entry after,
                     cs = (before ++ entry :: after)%list
                     /\ indexOfChildFrom cs id 0 = Z.of_nat (List.length before)
                     /\ holds entry id
                     /\ ~ In id (childIdsFrom (VYArr before))).
  { intros Hin.
    destruct (indexOfChildFrom_found cs id 0 Hin) as [bf [e [af H]]].
    exists bf, e, af. exact H. }
  split; [|split].
  - split.
    + intros H Hin. destruct (Hfound Hin) as [bf [e [af [_ [Hi _]]]]]. lia.
    + apply indexOfChildFrom_absent.
  - exact Hfound.
  - destruct (childIds_dec cs id) as [Hin|Hn].
    + right. destruct (Hfound Hin) as [bf [e [af [E [Hi _]]]]].
      rewrite Hi, E, length_app. cbn. lia.
    + left. now apply indexOfChildFrom_absent.
Qed.

Lemma indexOfChild_agrees_instance :
  exists before entry after,
    [ VStr "a"; VJsArr [ VStr "b" ]; VStr "c" ]
    = (before ++ entry :: after)%list
    /\ indexOfChild [ VStr "a"; VJsArr [ VStr "b" ]; VStr "c" ] "b"
       = Z.of_nat (List.length before)
    /\ holds entry "b".
Proof.
  destruct (proj1 (proj2 (indexOfChild_agrees_with_childIdsFrom
                            [ VStr "a"; VJsArr [ VStr "b" ]; VStr "c" ] "b")))
    as [bf [e [af [E [Hi [Hh _]]]]]].
  - cbn. tauto.
  - exists bf, e, af. repeat split; assumption.
Defined.

Lemma indexOfChildFrom_shift (cs : list YVal) (id : string) (i j : Z) :
  0 <= i -> 0 <= j ->
  indexOfChildFrom cs id j
  = if indexOfChildFrom cs id i <? 0 then -1
    else indexOfChildFrom cs id i + (j - i).
Proof.
  revert i j. induction cs as [|e rest IH]; intros i j Hi Hj; [reflexivity|].
  destruct (indexOfChildFrom_cons e rest id i) as [[Hh ->]|[Hn ->]];
    destruct (indexOfChildFrom_cons e rest id j) as [[Hh' ->]|[Hn' ->]];
    try contradiction.
  - destruct (Z.ltb_spec i 0); lia.
  - rewrite (IH (i + 1) (j + 1)) by lia.
    destruct (indexOfChildFrom rest id (i + 1) <? 0); [reflexivity | lia].
Qed.

Lemma indexOfChildFrom_app (a b : list YVal) (id : string) (i : Z) :
  0 <= i ->
  indexOfChildFrom (a ++ b) id i
  = if indexOfChildFrom a id i <? 0
    then indexOfChildFrom b id (i + Z.of_nat (List.length a))
    else indexOfChildFrom a id i.
Proof.
  revert i. induction a as [|e a IH]; intros i Hi.
  - cbn. now rewrite Z.add_0_r.
  - cbn [app].
    destruct (indexOfChildFrom_cons e (a ++ b) id i) as [[Hh ->]|[Hn ->]];
      destruct (indexOfChildFrom_cons e a id i) as [[Hh' ->]|[Hn' ->]];
      try contradiction.
    + destruct (Z.ltb_spec i 0); [lia | reflexivity].
    + rewrite IH by lia. cbn [List.length]. rewrite Nat2Z.inj_succ.
      replace (i + 1 + Z.of_nat (List.length a))
        with (i + Z.succ (Z.of_nat (List.length a))) by lia.
      reflexivity.
Qed.

Lemma absent_firstn (cs : list YVal) (id : string) (k : nat) :
  ~ In id (childIdsFrom (VYArr cs)) ->
  ~ In id (childIdsFrom (VYArr (firstn k cs)))
  /\ ~ In id (childIdsFrom (VYArr (skipn k cs))).
Proof.
  intros Hn. rewrite <- (firstn_skipn k cs), childIdsFrom_app, in_app_iff in Hn.
  tauto.
Qed.

Lemma indexOfChild_insert (children : list YVal) (blockId : string) (k : nat) :
    ~ In blockId (childIdsFrom (VYArr children)) ->
    (k <= List.length children)%nat ->
    indexOfChild (Y.insert children k (VStr blockId)) blockId = Z.of_nat k
    /\ (forall other,
           other <> blockId ->
           indexOfChild (Y.insert children k (VStr blockId)) other
           = if indexOfChild children other <? Z.of_nat k
             then indexOfChild children other
             else indexOfChild children other + 1)
    /\ childIdsFrom (VYArr (Y.insert children k (VStr blockId)))
       = (childIdsFrom (VYArr (firstn k children))
          ++ blockId :: childIdsFrom (VYArr (skipn k children)))%list.
Proof.
  revert children blockId k.
  intros cs id k Habs Hk. unfold indexOfChild, Y.insert.
  destruct (absent_firstn cs id k Habs) as [Hfst Hskp].
  assert (Hlen : List.length (firstn k cs) = k) by (apply firstn_length_le; lia).
  split; [|split].
  - rewrite indexOfChildFrom_app by lia.
    rewrite (indexOfChildFrom_absent _ _ 0 Hfst). cbn [Z.ltb Z.compare].
    rewrite Hlen.
    destruct (indexOfChildFrom_cons (VStr id) (skipn k cs) id (0 + Z.of_nat k))
      as [[_ ->]|[Hn _]]; [lia|].
    exfalso. apply Hn. cbn. now left.
  - intros other Hne.
    rewrite indexOfChildFrom_app by lia. rewrite Hlen.
    pose proof (indexOfChildFrom_app (firstn k cs) (skipn k cs) other 0
                  ltac:(lia)) as Hsplit.
    rewrite firstn_skipn, Hlen in Hsplit. rewrite Hsplit. clear Hsplit.
    pose proof (indexOfChildFrom_bound (firstn k cs) other 0) as Hb.
    rewrite Hlen in Hb.
    destruct (Z.ltb_spec (indexOfChildFrom (firstn k cs) other 0) 0) as [Hneg|Hpos].
    + destruct (indexOfChildFrom_cons (VStr id) (skipn k cs) other
                  (0 + Z.of_nat k)) as [[Hh _]|[_ ->]].
      { exfalso. destruct Hh as [E|[]]. congruence. }
      rewrite (indexOfChildFrom_shift (skipn k cs) other (0 + Z.of_nat k)
                 (0 + Z.of_nat k + 1)) by lia.
      pose proof (indexOfChildFrom_bound (skipn k cs) other (0 + Z.of_nat k)) as Hb2.
      destruct (Z.ltb_spec (indexOfChildFrom (skipn k cs) other (0 + Z.of_nat k)) 0)
        as [Hn2|Hp2].
      * assert (E : indexOfChildFrom (skipn k cs) other (0 + Z.of_nat k) = -1).
        { destruct (childIds_dec (skipn k cs) other) as [Hin|Hno].
          - destruct (indexOfChildFrom_found _ _ (0 + Z.of_nat k) Hin)
              as [bf [e [af [_ [Hi _]]]]]. lia.
          - now apply indexOfChildFrom_absent. }
        rewrite E. destruct (Z.ltb_spec (-1) (Z.of_nat k)); [reflexivity | lia].
      * specialize (Hb2 Hp2).
        destruct (Z.ltb_spec (indexOfChildFrom (skipn k cs) other (0 + Z.of_nat k))
                             (Z.of_nat k)); lia.
    + specialize (Hb Hpos).
      destruct (Z.ltb_spec (indexOfChildFrom (firstn k cs) other 0) (Z.of_nat k));
        [reflexivity | lia].
  - rewrite childIdsFrom_app, childIdsFrom_cons. reflexivity.
Qed.

(** X11: inserting an id that is not yet among the children at position [k]
    makes [k] its index; every other id keeps its index when it stood before
    [k] and moves up by one otherwise, and an id that was absent stays
    absent. *)
Theorem insert_then_indexOfChild :
  forall (children : list YVal) (blockId : string) (k : nat),
    ~ In blockId (childIdsFrom (VYArr children)) ->
    (k <= List.length children)%nat ->
    indexOfChild (Y.insert children k (VStr blockId)) blockId = Z.of_nat k
    /\ (forall other,
           other <> blockId ->
           indexOfChild (Y.insert children k (VStr blockId)) other
           = if indexOfChild children other <? Z.of_nat k
             then indexOfChild children other
             else indexOfChild children other + 1)
    /\ childIdsFrom (VYArr (Y.insert children k (VStr blockId)))
       = (childIdsFrom (VYArr (firstn k children))
          ++ blockId :: childIdsFrom (VYArr (skipn k children)))%list.
Proof. exact indexOfChild_insert. Qed.

Lemma insert_then_indexOfChild_instance :
  indexOfChild (Y.insert [ VStr "a"; VJsArr [ VStr "c" ] ] 1 (VStr "b")) "b" = 1
  /\ indexOfChild (Y.insert [ VStr "a"; VJsArr [ VStr "c" ] ] 1 (VStr "b")) "c"
     = 2.
Proof.
  destruct (insert_then_indexOfChild [ VStr "a"; VJsArr [ VStr "c" ] ] "b" 1)
    as [Hnew [Hold _]].
  - cbn. intros [H|[H|[]]]; discriminate.
  - cbn. lia.
  - split; [exact Hnew|]. exact (Hold "c" ltac:(discriminate)).
Defined.

(** ** Appending: sibling order and invariants of the block map *)

Lemma childrenOf_set (b : Y.Entries) (items : list YVal) :
  childrenOf (Y.set b "sys:children" (VYArr items)) = items.
Proof.
  unfold childrenOf, ensureChildrenArray. now rewrite get_set_same.
Qed.

Lemma reference_resolves (n : Norm.t) (s : DocState) (pl : AppendPlacement)
    (side : Side) (R P : string) (rb : Y.Entries) :
  Norm.placement n = Some pl ->
  refersTo pl side R ->
  findBlockById (blocks s) R = Some rb ->
  Y.get rb "sys:parent" = VStr P -> P <> "" ->
  resolveParent n s = (Ok (P, R, modeOf side), s).
Proof.
  intros Hpl Href Hrb HP HPne.
  rewrite resolveParent_unfold, Hpl, (explicitParent_reference _ _ _ _ Href).
  unfold referenceParent. rewrite Hrb, HP.
  apply truthy_true in HPne. now rewrite HPne.
Qed.

(** X12: after an append placed by reference the new block is the immediate
    neighbour of the reference block among the parent's children: placed
    after [R] it has [R]'s index plus one and [R] keeps its index, placed
    before [R] it takes [R]'s index and [R] moves up by one.  The generated id
    is assumed fresh: not the parent's and not among its children. *)
Theorem reference_placement_orders_siblings :
  forall (n : Norm.t) (s : DocState) (pl : AppendPlacement) (side : Side)
         (R P : string) (rb pb : Y.Entries),
    Norm.placement n = Some pl ->
    refersTo pl side R ->
    findBlockById (blocks s) R = Some rb ->
    Y.get rb "sys:parent" = VStr P -> P <> "" ->
    findBlockById (blocks s) P = Some pb ->
    0 <= indexOfChild (childrenOf pb) R ->
    (Norm.strict n = true ->
     containment (Y.get pb "sys:flavour") (Norm.type n) = Ok tt) ->
    fst (generateId (rng s)) <> P ->
    ~ In (fst (generateId (rng s))) (childIdsFrom (VYArr (childrenOf pb))) ->
    exists ctx created s' pb',
      appendToDocument n s = (Ok (ctx, created), s')
      /\ Created.blockId created = fst (generateId (rng s))
      /\ findBlockById (blocks s') P = Some pb'
      /\ indexOfChild (childrenOf pb') (Created.blockId created)
         = indexOfChild (childrenOf pb) R + offset side
      /\ indexOfChild (childrenOf pb') R
         = indexOfChild (childrenOf pb) R + (1 - offset side)
      /\ List.length (childrenOf pb') = S (List.length (childrenOf pb))
      /\ findBlockById (blocks s') (Created.blockId created)
         = Some (Created.block created)
      /\ Y.get (Created.block created) "sys:parent" = VStr P.
Proof.
  intros n s pl side R P rb pb Hpl Href Hrb HP HPne Hpb Hidx Hc Hfresh Habs.
  pose proof (reference_resolves n s pl side R P rb Hpl Href Hrb HP HPne) as Hr.
  pose proof (indexOfChildFrom_bound (childrenOf pb) R 0 Hidx) as Hbound.
  fold (indexOfChild (childrenOf pb) R) in Hbound.
  destruct (append_under n s s P R (modeOf side) pb
              (indexOfChild (childrenOf pb) R + offset side) Hr Hpb Hc)
    as [ctx [created [s' [Ha [Hp [Hi [Hid [Hplaced [Hnew _]]]]]]]]].
  { unfold insertionIndex.
    destruct side; simpl;
      (destruct (Z.ltb_spec (indexOfChild (childrenOf pb) R) 0); [lia|]);
      do 2 f_equal; lia. }
  { destruct side; simpl; lia. }
  { exact Hfresh. }
  unfold childPlacedAt in Hplaced.
  exists ctx, created, s'. eexists.
  split; [exact Ha|]. split; [exact Hid|]. split; [exact Hplaced|].
  rewrite childrenOf_set, Hid.
  set (k := Z.to_nat (indexOfChild (childrenOf pb) R + offset side)).
  assert (Hk : (k <= List.length (childrenOf pb))%nat)
    by (unfold k; destruct side; simpl; lia).
  destruct (indexOfChild_insert (childrenOf pb) _ k Habs Hk) as [Hmine [Hother _]].
  assert (HR : R <> fst (generateId (rng s))).
  { intros E. apply Habs. rewrite <- E.
    destruct (childIds_dec (childrenOf pb) R) as [Hin|Hno]; [exact Hin|].
    pose proof (indexOfChildFrom_absent _ _ 0 Hno) as Hm.
    fold (indexOfChild (childrenOf pb) R) in Hm. lia. }
  split; [rewrite Hmine; unfold k; destruct side; simpl; lia|].
  split.
  { rewrite (Hother R HR). unfold k.
    destruct side; simpl;
      destruct (Z.ltb_spec (indexOfChild (childrenOf pb) R)
                           (Z.of_nat (Z.to_nat (indexOfChild (childrenOf pb) R + 1))));
      try destruct (Z.ltb_spec (indexOfChild (childrenOf pb) R)
                           (Z.of_nat (Z.to_nat (indexOfChild (childrenOf pb) R + 0))));
      lia. }
  split.
  { unfold Y.insert. rewrite length_app. cbn [List.length].
    rewrite firstn_length_le by lia. rewrite length_skipn. lia. }
  split; [rewrite <- Hid; exact Hnew|].
  rewrite appendToDocument_unfold in Ha.
  destruct (resolveInsertContext n s) as [[c1|e1] s1]; [|discriminate].
  injection Ha as <- <- _.
  destruct (createBlock_sys (Ctx.parentId c1) n (rng s1))
    as [_ [_ [_ [_ [_ [Hpar _]]]]]].
  rewrite Hpar. now rewrite Hp.
Qed.

Lemma reference_placement_orders_instance :
  exists ctx created s' pb',
    appendToDocument noteAfterSurface demoDocument = (Ok (ctx, created), s')
    /\ findBlockById (blocks s') "P" = Some pb'
    /\ indexOfChild (childrenOf pb') (Created.blockId created) = 1
    /\ indexOfChild (childrenOf pb') "S" = 0.
Proof.
  destruct (reference_placement_orders_siblings noteAfterSurface demoDocument
              (mkPlacement None (Some "S") None None) After "S" "P"
              demoSurface demoPage eq_refl)
    as [ctx [created [s' [pb' [Ha [_ [Hpb [Hnew [Hold _]]]]]]]]];
    try reflexivity; try (vm_compute; discriminate).
  - split; [discriminate | reflexivity].
  - vm_compute. intros [H|[H|[]]]; discriminate.
  - exists ctx, created, s', pb'. repeat split; assumption.
Defined.
















(** ** Reading a document: the traversal of [readDocHandler] *)

Lemma includes_In (x : string) (l : list string) :
  JS.includes x l = true <-> In x l.
Proof.
  unfold JS.includes. rewrite existsb_exists. split.
  - intros [y [Hy He]]. apply String.eqb_eq in He. now subst.
  - intros H. exists x. split; [exact H | apply String.eqb_refl].
Qed.

Lemma includes_false (x : string) (l : list string) :
  JS.includes x l = false <-> ~ In x l.
Proof.
  rewrite <- includes_In. destruct (JS.includes x l); split; congruence.
Qed.

Lemma fold_left_inv {A B : Type} (f : A -> B -> A) (P : A -> Prop)
    (l : list B) (a : A) :
  P a -> (forall a b, P a -> P (f a b)) -> P (fold_left f l a).
Proof.
  revert a. induction l as [|b l IH]; intros a Ha Hstep; cbn; auto.
Qed.

Lemma NoDup_snoc {A : Type} (l : list A) (x : A) :
  NoDup l -> ~ In x l -> NoDup (l ++ [x]).
Proof.
  intros Hl Hx. apply NoDup_app; auto.
  - repeat constructor. intros [].
  - intros y Hy [<-|[]]. contradiction.
Qed.

Lemma visit_keeps (blocks : Blocks) (fuel : nat) (id : string)
    (st : ReadDoc.walk) :
  walkOk blocks st ->
  walkOk blocks (visit fuel blocks id st)
  /\ incl (ReadDoc.visited st) (ReadDoc.visited (visit fuel blocks id st))
  /\ (fuel <> O -> In id (ReadDoc.visited (visit fuel blocks id st))).
Proof.
  revert id st. induction fuel as [|fuel IH]; intros id st Hok.
  - cbn. split; [exact Hok|]. split; [apply incl_refl | congruence].
  - cbn [visit].
    destruct (JS.includes id (ReadDoc.visited st)) eqn:Hinc.
    + split; [exact Hok|]. split; [apply incl_refl|].
      intros _. now apply includes_In.
    + apply includes_false in Hinc.
      destruct Hok as [Hv [Hrows [Hnd Hall]]].
      destruct (Y.get blocks id) as [| | | | | | |raw| |] eqn:Hget.
      8: {
        match goal with
        | |- context [fold_left ?f ?l ?a] =>
            pose proof (fold_left_inv f
              (fun st' => walkOk blocks st'
                          /\ incl (ReadDoc.visited st ++ [id])%list
                                  (ReadDoc.visited st'))
              l a) as Hfold
        end.
        cbv beta in Hfold.
        destruct Hfold as [Hok' Hincl'].
        - split; [|apply incl_refl].
          unfold walkOk, rowIds. cbn [ReadDoc.visited ReadDoc.blockRows].
          rewrite map_app. cbn [map ReadDoc.id].
          assert (Hnr : ~ In id (map ReadDoc.id (ReadDoc.blockRows st))).
          { intros H. apply Hrows in H. tauto. }
          split; [now apply NoDup_snoc|].
          split; [|split; [now apply NoDup_snoc|]].
          + intros x. rewrite !in_app_iff. cbn [In]. split.
            * intros [H|[<-|[]]]; [apply Hrows in H; tauto|].
              split; [tauto | eauto].
            * intros [[H|[<-|[]]] Hm]; [left; apply Hrows; tauto | tauto].
          + apply Forall_app. split; [exact Hall|].
            repeat constructor. exists raw. cbn. auto.
        - intros a b [Ha Hi]. destruct (IH b a Ha) as [Hk [Hin _]].
          split; [exact Hk|]. eapply incl_tran; eassumption.
        - split; [exact Hok'|]. split.
          + eapply incl_tran; [|exact Hincl']. apply incl_appl, incl_refl.
          + intros _. apply Hincl'. apply in_or_app. right. now left.
      }
      all: unfold walkOk, rowIds;
        cbn [ReadDoc.visited ReadDoc.blockRows];
        (split; [split; [now apply NoDup_snoc|];
                 split; [|split; [exact Hnd | exact Hall]]|]);
        [ intros x; rewrite in_app_iff; cbn [In]; split;
          [ intros H; apply Hrows in H; tauto
          | intros [[H|[<-|[]]] [raw Hm]];
            [apply Hrows; eauto | congruence] ]
        | split; [apply incl_appl, incl_refl
                 | intros _; apply in_or_app; right; now left] ].
Qed.

Lemma get_map_is_key (blocks : Blocks) (id : string) (raw : Y.Entries) :
  Y.get blocks id = VYMap raw -> In id (map fst blocks).
Proof.
  unfold Y.get. induction blocks as [|[k v] rest IH]; cbn; [discriminate|].
  destruct (String.eqb_spec k id); [now left | right; auto].
Qed.

Lemma fold_visits_all (blocks : Blocks) (fuel : nat) (l : list (string * YVal))
    (st : ReadDoc.walk) :
  fuel <> O ->
  walkOk blocks st ->
  let st' := fold_left (fun st kv => visit fuel blocks (fst kv) st) l st in
  walkOk blocks st'
  /\ incl (ReadDoc.visited st) (ReadDoc.visited st')
  /\ forall k, In k (map fst l) -> In k (ReadDoc.visited st').
Proof.
  intros Hf. revert st. induction l as [|[k v] l IH]; intros st Hok; cbn.
  - split; [exact Hok|]. split; [apply incl_refl | tauto].
  - destruct (visit_keeps blocks fuel k st Hok) as [Hok1 [Hinc1 Hin1]].
    destruct (IH _ Hok1) as [Hok2 [Hinc2 Hall2]]. cbn in *.
    split; [exact Hok2|]. split; [eapply incl_tran; eassumption|].
    intros x [<-|Hx]; [apply Hinc2, Hin1, Hf | now apply Hall2].
Qed.

(** X14: [read_doc] lists every block of the document exactly once, whatever
    the shape of the child graph (shared children, cycles, blocks no parent
    lists): the row ids have no duplicate, they are exactly the keys that
    hold a block, each row reports the flavour, parent and child ids of its
    block, and [blockCount] is the number of rows. *)
Theorem read_lists_every_block_once :
  forall (docId : string) (blocks : Blocks),
    NoDup (map ReadDoc.id (ReadDoc.rows (readBlocks docId blocks)))
    /\ (forall id,
           In id (map ReadDoc.id (ReadDoc.rows (readBlocks docId blocks)))
           <-> exists raw, Y.get blocks id = VYMap raw)
    /\ Forall (rowOfBlock blocks) (ReadDoc.rows (readBlocks docId blocks))
    /\ ReadDoc.blockCount (readBlocks docId blocks)
       = List.length (ReadDoc.rows (readBlocks docId blocks)).
Proof.
  intros docId blocks.
  unfold readBlocks. cbn [ReadDoc.rows ReadDoc.blockCount].
  set (fuel := S (S (List.length blocks))).
  set (st0 := ReadDoc.mkWalk [] [] [] "").
  assert (H0 : walkOk blocks st0).
  { unfold walkOk, rowIds, st0. cbn.
    repeat split; try constructor; try tauto. }
  set (st1 := match foundId (findBlockIdByFlavour blocks "affine:page"),
                    foundId (findBlockIdByFlavour blocks "affine:note") with
              | Some pageId, _ => visit fuel blocks pageId st0
              | None, Some noteId => visit fuel blocks noteId st0
              | None, None => st0
              end).
  assert (H1 : walkOk blocks st1).
  { unfold st1. destruct (foundId _); [apply visit_keeps, H0|].
    destruct (foundId _); [apply visit_keeps, H0 | exact H0]. }
  destruct (fold_visits_all blocks fuel blocks st1 ltac:(discriminate) H1)
    as [[Hv [Hrows [Hnd Hall]]] [_ Hkeys]].
  split; [exact Hnd|]. split; [|split; [exact Hall | reflexivity]].
  intros id. fold (rowIds (fold_left (fun st kv => visit fuel blocks (fst kv) st)
                                     blocks st1)).
  rewrite Hrows. split; [tauto|]. intros [raw Hraw].
  split; [|eauto]. apply Hkeys. exact (get_map_is_key _ _ _ Hraw).
Qed.

Lemma read_lists_instance :
  In "S" (map ReadDoc.id (ReadDoc.rows (readBlocks "doc" (blocks demoDocument)))).
Proof.
  apply (proj1 (proj2 (read_lists_every_block_once "doc"
                         (blocks demoDocument)))).
  exists demoSurface. reflexivity.
Defined.

(** *** The fuel of the traversal is enough *)

Lemma filter_length_le {A : Type} (p q : A -> bool) (l : list A) :
  (forall x, In x l -> p x = true -> q x = true) ->
  (List.length (filter p l) <= List.length (filter q l))%nat.
Proof.
  induction l as [|a l IH]; intros H; cbn; [lia|].
  assert (IH' := IH (fun x Hx => H x (or_intror Hx))).
  destruct (p a) eqn:Ep.
  - rewrite (H a (or_introl eq_refl) Ep). cbn. lia.
  - destruct (q a); cbn; lia.
Qed.

Lemma filter_length_lt {A : Type} (p q : A -> bool) (l : list A) (a : A) :
  (forall x, In x l -> p x = true -> q x = true) ->
  In a l -> p a = false -> q a = true ->
  (List.length (filter p l) < List.length (filter q l))%nat.
Proof.
  induction l as [|b l IH]; intros H Hin Hp Hq; [destruct Hin|].
  cbn. destruct Hin as [->|Hin].
  - rewrite Hp, Hq. cbn.
    pose proof (filter_length_le p q l (fun x Hx => H x (or_intror Hx))). lia.
  - assert (IH' := IH (fun x Hx => H x (or_intror Hx)) Hin Hp Hq).
    destruct (p b) eqn:Ep.
    + rewrite (H b (or_introl eq_refl) Ep). cbn. lia.
    + destruct (q b); cbn; lia.
Qed.

Lemma unvisited_le (blocks : Blocks) (v v' : list string) :
  incl v v' ->
  (List.length (unvisited blocks v') <= List.length (unvisited blocks v))%nat.
Proof.
  intros Hinc. apply filter_length_le. intros x _.
  rewrite !negb_true_iff, !includes_false. auto.
Qed.

Lemma unvisited_lt (blocks : Blocks) (v : list string) (id : string)
    (raw : Y.Entries) :
  Y.get blocks id = VYMap raw ->
  ~ In id v ->
  (List.length (unvisited blocks (v ++ [id])) < List.length (unvisited blocks v))%nat.
Proof.
  intros Hget Hn. apply (filter_length_lt _ _ _ id).
  - intros x _. rewrite !negb_true_iff, !includes_false, in_app_iff. tauto.
  - apply nodup_In. exact (get_map_is_key _ _ _ Hget).
  - apply negb_false_iff, includes_In, in_or_app. right. now left.
  - now apply negb_true_iff, includes_false.
Qed.

Lemma unvisited_bound (blocks : Blocks) (v : list string) :
  (List.length (unvisited blocks v) <= List.length blocks)%nat.
Proof.
  unfold unvisited.
  pose proof (filter_length_le (fun k => negb (JS.includes k v)) (fun _ => true)
                (nodup string_dec (map fst blocks)) (fun _ _ _ => eq_refl)) as H.
  assert (E : forall l : list string, filter (fun _ => true) l = l).
  { induction l as [|a l IH]; cbn; [reflexivity | now rewrite IH]. }
  rewrite E in H.
  pose proof (NoDup_incl_length (NoDup_nodup string_dec (map fst blocks))
                (l' := map fst blocks)) as H2.
  rewrite length_map in H2.
  assert (incl (nodup string_dec (map fst blocks)) (map fst blocks))
    by (intros x Hx; now apply nodup_In in Hx).
  specialize (H2 H0). lia.
Qed.

Lemma visit_incl (blocks : Blocks) (fuel : nat) (id : string)
    (st : ReadDoc.walk) :
  incl (ReadDoc.visited st) (ReadDoc.visited (visit fuel blocks id st)).
Proof.
  revert id st. induction fuel as [|fuel IH]; intros id st; [apply incl_refl|].
  cbn [visit]. destruct (JS.includes id (ReadDoc.visited st)); [apply incl_refl|].
  destruct (Y.get blocks id); cbn [ReadDoc.visited];
    try (apply incl_appl, incl_refl).
  match goal with
  | |- context [fold_left ?f ?l ?a] =>
      apply (fold_left_inv f
               (fun st' => incl (ReadDoc.visited st) (ReadDoc.visited st')) l a)
  end.
  - cbn. apply incl_appl, incl_refl.
  - intros a b Ha. eapply incl_tran; [exact Ha | apply IH].
Qed.

Lemma fold_fuel_enough (blocks : Blocks) (fuel fuel' : nat) :
  (forall c a,
      (List.length (unvisited blocks (ReadDoc.visited a)) < fuel)%nat ->
      visit fuel' blocks c a = visit fuel blocks c a) ->
  forall cs a,
    (List.length (unvisited blocks (ReadDoc.visited a)) < fuel)%nat ->
    fold_left (fun st childId => visit fuel' blocks childId st) cs a
    = fold_left (fun st childId => visit fuel blocks childId st) cs a.
Proof.
  intros Hstep. induction cs as [|c cs IHcs]; intros a Ha; [reflexivity|].
  cbn [fold_left]. rewrite (Hstep c a Ha). apply IHcs.
  pose proof (unvisited_le blocks _ _ (visit_incl blocks fuel c a)). lia.
Qed.

Lemma visit_fuel_enough (blocks : Blocks) (fuel : nat) :
  forall (fuel' : nat) (id : string) (st : ReadDoc.walk),
    (List.length (unvisited blocks (ReadDoc.visited st)) < fuel)%nat ->
    (fuel <= fuel')%nat ->
    visit fuel' blocks id st = visit fuel blocks id st.
Proof.
  induction fuel as [|fuel IH]; intros fuel' id st Hmu Hle; [lia|].
  destruct fuel' as [|fuel']; [lia|].
  cbn [visit].
  destruct (JS.includes id (ReadDoc.visited st)) eqn:Hinc; [reflexivity|].
  apply includes_false in Hinc.
  destruct (Y.get blocks id) as [| | | | | | |raw| |] eqn:Hget; try reflexivity.
  pose proof (unvisited_lt blocks _ id raw Hget Hinc) as Hlt.
  apply fold_fuel_enough.
  - intros c a Ha. apply IH; lia.
  - cbn [ReadDoc.visited]. lia.
Qed.

(** X15: the bound on the depth of [visit] is never reached: with any fuel
    above the number of entries of [blocks] the traversal gives the same
    result, so the walk of [readBlocks] is the unbounded recursion of the
    source. *)
Theorem visit_fuel_is_enough :
  forall (blocks : Blocks) (fuel fuel' : nat) (id : string) (st : ReadDoc.walk),
    (List.length blocks < fuel)%nat ->
    (List.length blocks < fuel')%nat ->
    visit fuel blocks id st = visit fuel' blocks id st.
Proof.
  intros blocks0 fuel fuel' id st Hf Hf'.
  pose proof (unvisited_bound blocks0 (ReadDoc.visited st)) as Hb.
  rewrite (visit_fuel_enough blocks0 (S (List.length blocks0)) fuel id st)
    by lia.
  rewrite (visit_fuel_enough blocks0 (S (List.length blocks0)) fuel' id st)
    by lia.
  reflexivity.
Qed.

Lemma visit_fuel_instance :
  visit 4 (blocks demoDocument) "P" (ReadDoc.mkWalk [] [] [] "")
  = visit 100 (blocks demoDocument) "P" (ReadDoc.mkWalk [] [] [] "").
Proof.
  apply visit_fuel_is_enough; vm_compute; lia.
Defined.

(** ** Reading back a new document *)

Ltac distinct_ids :=
  repeat match goal with
         | H : NoDup (_ :: _) |- _ =>
             let H1 := fresh "Hnin" in let H2 := fresh "Hnd" in
             apply NoDup_cons_iff in H; destruct H as [H1 H2]; cbn [In] in H1
         | H : NoDup [] |- _ => clear H
         end.

Ltac eqb_false a b :=
  let H := fresh "Hne" in
  assert (H : (a =? b)%string = false)
    by (apply String.eqb_neq; intuition congruence).

Lemma setAll_cons (m : Y.Entries) (kv : string * YVal)
    (rest : list (string * YVal)) :
  setAll m (kv :: rest) = setAll (Y.set m (fst kv) (snd kv)) rest.
Proof. reflexivity. Qed.



Lemma visit_seen (fuel : nat) (blocks : Blocks) (id : string)
    (st : ReadDoc.walk) :
  JS.includes id (ReadDoc.visited st) = true ->
  visit (S fuel) blocks id st = st.
Proof. intros H. cbn [visit]. now rewrite H. Qed.

Lemma visit_block (fuel : nat) (blocks : Blocks) (id : string)
    (st : ReadDoc.walk) (raw : Y.Entries) (v : BlockView) :
  JS.includes id (ReadDoc.visited st) = false ->
  Y.get blocks id = VYMap raw ->
  viewed raw v ->
  visit (S fuel) blocks id st
  = fold_left (fun st childId => visit fuel blocks childId st)
      (childIdsFrom (VYArr (v_children v)))
      (ReadDoc.mkWalk
         (ReadDoc.visited st ++ [ id ])%list
         (ReadDoc.blockRows st
          ++ [ ReadDoc.mkRow id (strOpt (v_parent v)) (Some (v_flavour v))
                 (strOpt (v_type v))
                 (if (0 <? String.length (asText (v_text v)))%nat
                  then Some (asText (v_text v)) else None)
                 None None
                 (childIdsFrom (VYArr (v_children v))) ])%list
         (if (0 <? String.length (asText (v_text v)))%nat
          then (ReadDoc.plainTextLines st ++ [ asText (v_text v) ])%list
          else ReadDoc.plainTextLines st)
         (if (v_flavour v =? "affine:page")%string
          then JS.orStr (asText (v_title v)) (ReadDoc.walkTitle st)
          else ReadDoc.walkTitle st)).
Proof.
  intros Hinc Hget [Vid [Vfl [Vpa [Vch [Vti [Vtx [Vty [Vck Vla]]]]]]]].
  cbn [visit]. rewrite Hinc, Hget, Vfl, Vpa, Vch, Vti, Vtx, Vty, Vck, Vla.
  reflexivity.
Qed.

Lemma fold_left_step {A B : Type} (f : A -> B -> A) (b : B) (l : list B) (a : A) :
  fold_left f (b :: l) a = fold_left f l (f a b).
Proof. reflexivity. Qed.

(** Decide a membership test or a lookup among distinct ids. *)
Ltac among_ids :=
  unfold Y.get, JS.includes;
  cbn [existsb orb Y.lookup app ReadDoc.visited];
  repeat match goal with
         | H : (_ =? _)%string = false |- _ => rewrite !H
         end;
  rewrite ?String.eqb_refl;
  cbn [orb]; reflexivity.

Ltac tidy_walk :=
  cbn [childIdsFrom flat_map app fst snd
       v_id v_flavour v_parent v_children v_title v_text v_type
       ReadDoc.visited ReadDoc.blockRows ReadDoc.plainTextLines
       ReadDoc.walkTitle strOpt asText String.length Nat.ltb Nat.leb
       String.eqb Ascii.eqb Bool.eqb];
  unfold JS.orStr;
  repeat match goal with
         | H : JS.truthy _ = true |- _ => rewrite !H
         end.

(** One step of the traversal, innermost call first. *)
Ltac walk_step :=
  match goal with
  | |- context [visit (S ?f) ?B ?id (ReadDoc.mkWalk ?a ?b ?c ?d)] =>
      first
        [ rewrite (visit_seen f B id (ReadDoc.mkWalk a b c d)) by among_ids
        | match goal with
          | Hv : viewed ?raw (mkView id _ _ _ _ _ _) |- _ =>
              rewrite (visit_block f B id (ReadDoc.mkWalk a b c d) raw _
                         ltac:(among_ids) ltac:(among_ids) Hv)
          end ];
      tidy_walk
  | |- context [fold_left ?f (?x :: ?xs) (ReadDoc.mkWalk ?a ?b ?c ?d)] =>
      rewrite (fold_left_step f x xs (ReadDoc.mkWalk a b c d));
      cbv beta; cbn [fst]
  | |- context [fold_left ?f [] (ReadDoc.mkWalk ?a ?b ?c ?d)] =>
      change (fold_left f [] (ReadDoc.mkWalk a b c d))
        with (ReadDoc.mkWalk a b c d)
  end.

Ltac finish_walk :=
  cbn [ReadDoc.rows ReadDoc.title ReadDoc.plainText ReadDoc.blockCount
       ReadDoc.blockRows ReadDoc.plainTextLines ReadDoc.walkTitle
       ReadDoc.id ReadDoc.flavour ReadDoc.text ReadDoc.parentId
       map app List.length strOpt asText String.length Nat.ltb Nat.leb
       String.eqb Ascii.eqb Bool.eqb JS.join];
  unfold JS.orStr;
  repeat match goal with
         | H : JS.truthy _ = true |- _ => rewrite !H
         end.

Lemma found_first (blocks : Blocks) (key flavour : string) (raw : Y.Entries)
    (v : BlockView) :
  viewed raw v -> v_flavour v = flavour ->
  findBlockIdByFlavour ((key, VYMap raw) :: blocks) flavour = Some (v_id v).
Proof.
  intros [Vid [Vfl _]] <-. cbn. rewrite Vfl, Vid. cbn.
  now rewrite String.eqb_refl.
Qed.

Lemma found_later (blocks : Blocks) (key flavour : string) (raw : Y.Entries)
    (v : BlockView) :
  viewed raw v -> (v_flavour v =? flavour)%string = false ->
  findBlockIdByFlavour ((key, VYMap raw) :: blocks) flavour
  = findBlockIdByFlavour blocks flavour.
Proof. intros [_ [Vfl _]] Hne. cbn. rewrite Vfl. cbn. now rewrite Hne. Qed.

(** A page with a surface and a note that holds one paragraph, as the tools
    build it. *)
Lemma read_four (docId p s n q title content : string)
    (page surface note para : Y.Entries) :
  JS.truthy p = true -> JS.truthy title = true -> content <> "" ->
  NoDup [ p; s; n; q ] ->
  viewed page (mkView p "affine:page" VUndef [ VStr s; VStr n ] (VText title)
                      VUndef VUndef) ->
  viewed surface (mkView s "affine:surface" (VStr p) [] VUndef VUndef VUndef) ->
  viewed note (mkView n "affine:note" (VStr p) [ VStr q ] VUndef VUndef VUndef) ->
  viewed para (mkView q "affine:paragraph" (VStr n) [] VUndef (VText content)
                      (VStr "text")) ->
  let blocks0 :=
    [ (p, VYMap page); (s, VYMap surface); (n, VYMap note); (q, VYMap para) ] in
  let out := readBlocks docId blocks0 in
  map ReadDoc.id (ReadDoc.rows out) = [ p; s; n; q ]
  /\ map ReadDoc.flavour (ReadDoc.rows out)
     = [ Some "affine:page"; Some "affine:surface";
         Some "affine:note"; Some "affine:paragraph" ]
  /\ map ReadDoc.text (ReadDoc.rows out) = [ None; None; None; Some content ]
  /\ map ReadDoc.parentId (ReadDoc.rows out)
     = [ None; Some p; Some p; Some n ]
  /\ ReadDoc.title out = Some title
  /\ ReadDoc.plainText out = content
  /\ ReadDoc.blockCount out = 4%nat
  /\ findBlockIdByFlavour blocks0 "affine:note" = Some n.
Proof.
  intros Hp Ht Hc Hnd Vp Vs Vn Vq.
  distinct_ids.
  eqb_false p s. eqb_false p n. eqb_false s n.
  eqb_false s p. eqb_false n p. eqb_false n s.
  eqb_false p q. eqb_false s q. eqb_false n q.
  eqb_false q p. eqb_false q s. eqb_false q n.
  destruct content as [|cc cr]; [congruence|].
  cbv zeta.
  assert (Hnote : findBlockIdByFlavour
                    [ (p, VYMap page); (s, VYMap surface); (n, VYMap note);
                      (q, VYMap para) ] "affine:note" = Some n).
  { rewrite (found_later _ p "affine:note" page _ Vp eq_refl).
    rewrite (found_later _ s "affine:note" surface _ Vs eq_refl).
    exact (found_first _ n "affine:note" note _ Vn eq_refl). }
  unfold readBlocks. cbv zeta.
  rewrite (found_first _ p "affine:page" page _ Vp eq_refl).
  cbn [v_id foundId List.length]. rewrite Hp.
  repeat walk_step. finish_walk. repeat split. exact Hnote.
Qed.



(** ** Socket lifecycle of the handlers *)

Lemma bracketed_spec (added : list Event) :
  bracketed added = true -> oneSession added.
Proof.
  destruct added as [|[url hdrs| | | | |] rest]; cbn; try discriminate;
    [left; reflexivity|].
  destruct (rev rest) as [|[| | | | |] mid] eqn:Hrev; try discriminate.
  intros H. apply andb_true_iff in H. destruct H as [Hno Hjoin].
  right. exists url, hdrs, (rev mid).
  assert (Hrest : rest = (rev mid ++ [ EvDisconnect ])%list).
  { rewrite <- (rev_involutive rest), Hrev. reflexivity. }
  split; [now rewrite Hrest|]. split.
  - intros e He. apply in_rev in He. apply negb_true_iff in Hno.
    destruct (isSocketEvent e) eqn:E; [|reflexivity].
    assert (existsb isSocketEvent mid = true)
      by (apply existsb_exists; eauto).
    congruence.
  - destruct (rev mid) as [|[| ws v | | | |] r]; try discriminate;
      [left; reflexivity | right; eauto].
Qed.

(** Close a leaf of a handler run with the shape of its events. *)
Ltac close_session :=
  intros [= <- <-];
  cbn [fst snd trace disconnect emit deleteDoc];
  repeat match goal with
         | H : trace _ = _ |- _ => rewrite H; clear H
         end;
  rewrite <- ?app_assoc;
  eexists; split; [reflexivity|];
  split; [apply bracketed_spec; reflexivity|];
  intros; try discriminate; try congruence; auto.

Ltac nothing_sent :=
  intros [= <- <-]; exists []; rewrite app_nil_r; cbn;
  split; [reflexivity|]; split; [left; reflexivity|];
  intros; try discriminate; auto.

(** X17: every document handler runs one socket session at most, on every
    path, failures included: it sends nothing at all, or it connects once,
    sends the join before any other request and disconnects exactly once,
    last.  With no workspace id known, it sends nothing. *)
Theorem handlers_run_one_session :
  forall (urlParses : string -> bool) (cfg : Config) (w : World),
    (forall parsed,
        let run := appendBlockInternal urlParses cfg parsed w in
        exists added,
          trace (snd run) = (trace w ++ added)%list
          /\ oneSession added
          /\ (pickWorkspace (Raw.workspaceId parsed) (defaultWorkspaceId cfg)
              = None -> added = []))
    /\ (forall workspaceId docId,
           let run := readDocHandler cfg workspaceId docId w in
           exists added,
             trace (snd run) = (trace w ++ added)%list
             /\ oneSession added
             /\ (pickWorkspace workspaceId (defaultWorkspaceId cfg) = None ->
                 added = []))
    /\ (forall parsed,
           let run := createDocHandler cfg parsed w in
           exists added,
             trace (snd run) = (trace w ++ added)%list
             /\ oneSession added
             /\ (pickWorkspace (CreateDoc.workspaceId parsed)
                               (defaultWorkspaceId cfg) = None ->
                 added = []))
    /\ (forall workspaceId docId,
           let run := deleteDocHandler cfg workspaceId docId w in
           exists added,
             trace (snd run) = (trace w ++ added)%list
             /\ oneSession added
             /\ (pickWorkspace workspaceId (defaultWorkspaceId cfg) = None ->
                 added = [])).
Proof.
  intros urlParses cfg w. split; [|split; [|split]].
  - intros parsed run. destruct run as [r w'] eqn:Hrun.
    cbn [fst snd]. subst run. revert Hrun.
    unfold appendBlockInternal, bind at 1, liftRes.
    destruct (normalizeAppendBlockInput urlParses parsed) as [n|e] eqn:Hn;
      [|nothing_sent].
    destruct (normalize_inv _ _ _ Hn) as [ti [pl [_ [_ [En _]]]]].
    replace (Norm.workspaceId n) with (Raw.workspaceId parsed)
      by (rewrite En; reflexivity).
    clear En Hn.
    destruct (pickWorkspace _ _) as [ws|]; [|nothing_sent].
    unfold tryFinally, bind, ret.
    run_call; [|close_session].
    run_call; [|close_session].
    run_call; [|close_session].
    run_call; [|close_session].
    run_call; close_session.
  - intros workspaceId docId run. destruct run as [r w'] eqn:Hrun.
    cbn [fst snd]. subst run. revert Hrun.
    unfold readDocHandler.
    destruct (pickWorkspace _ _) as [ws|]; [|nothing_sent].
    unfold tryFinally, bind, ret.
    run_call; [|close_session].
    run_call; [|close_session].
    run_call; [|close_session].
    destruct (missing _); close_session.
  - intros parsed run. destruct run as [r w'] eqn:Hrun.
    cbn [fst snd]. subst run. revert Hrun.
    unfold createDocHandler.
    destruct (pickWorkspace _ _) as [ws|]; [|nothing_sent].
    unfold tryFinally, bind, ret, liftRes.
    run_call; [|close_session].
    run_call; [|close_session].
    do 4 run_call.
    destruct (given (CreateDoc.content parsed)); [run_call|];
      run_call; (run_call; [|close_session]);
      (run_call; [|close_session]); run_call;
      (destruct (addPageEntry _ _); [|close_session]);
      run_call; close_session.
  - intros workspaceId docId run. destruct run as [r w'] eqn:Hrun.
    cbn [fst snd]. subst run. revert Hrun.
    unfold deleteDocHandler.
    destruct (pickWorkspace _ _) as [ws|]; [|nothing_sent].
    unfold tryFinally, bind, ret, liftRes.
    run_call; [|close_session].
    run_call; [|close_session].
    run_call; [|close_session].
    destruct (removePageEntry _ _); [|close_session].
    run_call; close_session.
Qed.

Lemma handlers_run_one_session_instance :
  exists added,
    trace (snd (readDocHandler demoConfig None "doc" documentMissing))
    = (trace documentMissing ++ added)%list
    /\ oneSession added.
Proof.
  destruct (proj1 (proj2 (handlers_run_one_session
                            (fun _ => true) demoConfig documentMissing))
                  None "doc")
    as [added [Htrace [Hone _]]].
  exists added. split; assumption.
Defined.

(** ** The websocket URL of an endpoint *)

Lemma prefix_drop (p s : string) :
  prefix p s = true -> s = (p ++ JS.drop (String.length p) s)%string.
Proof.
  revert s. induction p as [|c p IH]; intros s; [reflexivity|].
  destruct s as [|d s]; cbn; [discriminate|].
  destruct (ascii_dec c d) as [->|]; [|discriminate].
  intros H. now rewrite <- (IH s H).
Qed.

Lemma replaceFirst_eq (pat rep s : string) :
  JS.replaceFirst pat rep s
  = if prefix pat s then (rep ++ JS.drop (String.length pat) s)%string
    else match s with
         | EmptyString => EmptyString
         | String c r => String c (JS.replaceFirst pat rep r)
         end.
Proof. destruct s; reflexivity. Qed.

Lemma replaceFirst_absent (pat rep s : string) :
  ~ occursIn pat s -> JS.replaceFirst pat rep s = s.
Proof.
  induction s as [|c r IH]; intros Hn; rewrite replaceFirst_eq.
  - destruct (prefix pat "") eqn:E; [|reflexivity].
    exfalso. apply Hn. exists "", (JS.drop (String.length pat) "").
    exact (prefix_drop _ _ E).
  - destruct (prefix pat (String c r)) eqn:E.
    + exfalso. apply Hn. exists "", (JS.drop (String.length pat) (String c r)).
      exact (prefix_drop _ _ E).
    + rewrite IH; [reflexivity|].
      intros [a [b Hab]]. apply Hn. exists (String c a), b.
      cbn. now rewrite Hab.
Qed.

Lemma endsWith_eq (suf s : string) :
  JS.endsWith suf s
  = ((s =? suf)%string
     || match s with
        | EmptyString => false
        | String _ r => JS.endsWith suf r
        end)%bool.
Proof. destruct s; reflexivity. Qed.

Lemma endsWith_app (y suf : string) : JS.endsWith suf (y ++ suf) = true.
Proof.
  induction y as [|c y IH]; cbn [append]; rewrite endsWith_eq.
  - now rewrite String.eqb_refl.
  - rewrite IH. apply orb_true_r.
Qed.

Lemma endsWith_inv (suf s : string) :
  JS.endsWith suf s = true -> exists y, s = (y ++ suf)%string.
Proof.
  induction s as [|c s IH]; rewrite endsWith_eq.
  - rewrite orb_false_r. intros H. apply String.eqb_eq in H. now exists "".
  - intros H. apply orb_true_iff in H. destruct H as [H|H].
    + apply String.eqb_eq in H. exists "". now rewrite H.
    + destruct (IH H) as [y ->]. now exists (String c y).
Qed.

Lemma dropEnd_app (y suf : string) :
  JS.dropEnd (String.length suf) (y ++ suf) = y.
Proof.
  unfold JS.dropEnd. rewrite length_app_string.
  replace (String.length y + String.length suf - String.length suf)%nat
    with (String.length y) by lia.
  induction y as [|c y IH]; cbn.
  - destruct suf; reflexivity.
  - now rewrite IH.
Qed.

Lemma last_char_differs (y y' a b : string) (c d : ascii) :
  (y ++ a ++ String c "")%string = (y' ++ b ++ String d "")%string -> c = d.
Proof.
  intros H. apply (f_equal list_ascii_of_string) in H.
  rewrite !list_ascii_app in H. cbn in H. rewrite !app_assoc in H.
  apply app_inj_tail in H. tauto.
Qed.

Lemma not_graphql_slash (y : string) :
  JS.endsWith "/graphql/" (y ++ "/graphql") = false.
Proof.
  destruct (JS.endsWith "/graphql/" (y ++ "/graphql")) eqn:E; [|reflexivity].
  apply endsWith_inv in E. destruct E as [y' E].
  pose proof (last_char_differs y y' "/graphq" "/graphql" "l" "/" E).
  discriminate.
Qed.

Lemma prefix_app (p s : string) : prefix p (p ++ s) = true.
Proof.
  induction p as [|c p IH]; [destruct s; reflexivity|].
  cbn. destruct (ascii_dec c c); [exact IH | congruence].
Qed.

Lemma drop_app (p s : string) : JS.drop (String.length p) (p ++ s) = s.
Proof. induction p as [|c p IH]; [reflexivity | exact IH]. Qed.

Lemma replaceFirst_at_start (pat rep s : string) :
  JS.replaceFirst pat rep (pat ++ s) = (rep ++ s)%string.
Proof. now rewrite replaceFirst_eq, prefix_app, drop_app. Qed.

Lemma second_replace_skips_wss (rest : string) :
  JS.replaceFirst "http://" "ws://" ("wss://" ++ rest)
  = ("wss://" ++ JS.replaceFirst "http://" "ws://" rest)%string.
Proof. reflexivity. Qed.

Lemma first_replace_skips_http (rest : string) :
  JS.replaceFirst "https://" "wss://" ("http://" ++ rest)
  = ("http://" ++ JS.replaceFirst "https://" "wss://" rest)%string.
Proof. reflexivity. Qed.

Lemma strip_graphql (y : string) :
  (if JS.endsWith "/graphql/" (y ++ "/graphql")
   then JS.dropEnd 9 (y ++ "/graphql")
   else if JS.endsWith "/graphql" (y ++ "/graphql")
        then JS.dropEnd 8 (y ++ "/graphql")
        else (y ++ "/graphql")%string) = y
  /\ (if JS.endsWith "/graphql/" (y ++ "/graphql/")
      then JS.dropEnd 9 (y ++ "/graphql/")
      else if JS.endsWith "/graphql" (y ++ "/graphql/")
           then JS.dropEnd 8 (y ++ "/graphql/")
           else (y ++ "/graphql/")%string) = y.
Proof.
  split.
  - rewrite not_graphql_slash, endsWith_app. exact (dropEnd_app y "/graphql").
  - rewrite endsWith_app. exact (dropEnd_app y "/graphql/").
Qed.

Lemma append_assoc (a b c : string) : ((a ++ b) ++ c = a ++ b ++ c)%string.
Proof. induction a as [|x a IH]; cbn; [reflexivity | now rewrite IH]. Qed.

(** X18: [wsUrlFromGraphQLEndpoint] maps an https (http) GraphQL endpoint to
    the wss (ws) URL of the same host: the scheme is replaced and a trailing
    [/graphql] or [/graphql/] is dropped, whenever the scheme the other
    replacement looks for does not occur in the rest of the endpoint. *)
Theorem wsUrl_of_graphql_endpoint :
  forall (host suffix : string),
    suffix = "/graphql" \/ suffix = "/graphql/" ->
    (~ occursIn "http://" (host ++ suffix) ->
     wsUrlFromGraphQLEndpoint ("https://" ++ host ++ suffix)
     = ("wss://" ++ host)%string)
    /\ (~ occursIn "https://" (host ++ suffix) ->
        wsUrlFromGraphQLEndpoint ("http://" ++ host ++ suffix)
        = ("ws://" ++ host)%string).
Proof.
  intros host suffix Hsuf. split; intros Hn; unfold wsUrlFromGraphQLEndpoint.
  - rewrite (replaceFirst_at_start "https://" "wss://").
    rewrite second_replace_skips_wss, (replaceFirst_absent _ _ _ Hn).
    rewrite <- (append_assoc "wss://" host suffix).
    destruct Hsuf as [-> | ->]; apply strip_graphql.
  - rewrite first_replace_skips_http, (replaceFirst_absent _ _ _ Hn).
    rewrite (replaceFirst_at_start "http://" "ws://").
    rewrite <- (append_assoc "ws://" host suffix).
    destruct Hsuf as [-> | ->]; apply strip_graphql.
Qed.

Lemma includesStr_eq (pat s : string) :
  includesStr pat s
  = (prefix pat s
     || match s with
        | EmptyString => false
        | String _ r => includesStr pat r
        end)%bool.
Proof. destruct s; reflexivity. Qed.

Lemma noOccurrence (pat s : string) :
  includesStr pat s = false -> ~ occursIn pat s.
Proof.
  intros H [a [b E]]. subst s. revert H.
  induction a as [|c a IH]; cbn [append]; rewrite includesStr_eq.
  - now rewrite prefix_app.
  - intros H. apply orb_false_iff in H. destruct H as [_ H]. exact (IH H).
Qed.

Lemma wsUrl_instance :
  wsUrlFromGraphQLEndpoint "https://app.affine.pro/graphql"
  = "wss://app.affine.pro"
  /\ wsUrlFromGraphQLEndpoint "http://localhost:3010/graphql/"
     = "ws://localhost:3010".
Proof.
  split.
  - apply (proj1 (wsUrl_of_graphql_endpoint "app.affine.pro" "/graphql"
                    (or_introl eq_refl))).
    apply noOccurrence. reflexivity.
  - apply (proj2 (wsUrl_of_graphql_endpoint "localhost:3010" "/graphql/"
                    (or_intror eq_refl))).
    apply noOccurrence. reflexivity.
Defined.

(** ** The catalog of the workspace root document *)

Lemma pageIndexFrom_first (before after : list YVal) (m : Y.Entries)
    (docId : string) (i : nat) :
  pageIndexFrom before docId i = None ->
  Y.get m "id" = VStr docId ->
  pageIndexFrom (before ++ VYMap m :: after) docId i
  = Some (i + List.length before)%nat.
Proof.
  intros Hb Hm. revert i Hb.
  induction before as [|x before IH]; intros i Hb; cbn.
  - rewrite Hm. cbn. rewrite String.eqb_refl. f_equal. lia.
  - cbn in Hb.
    destruct x; try (rewrite (IH (S i) Hb); f_equal; lia).
    destruct (strIs (Y.get entries "id") docId); [discriminate|].
    rewrite (IH (S i) Hb). f_equal. lia.
Qed.

Lemma delete_middle (before after : list YVal) (x : YVal) :
  Y.delete (before ++ x :: after) (List.length before) = (before ++ after)%list.
Proof.
  unfold Y.delete.
  rewrite firstn_app, firstn_all, Nat.sub_diag. cbn [firstn].
  rewrite app_nil_r.
  replace (S (List.length before)) with (List.length (before ++ [ x ]))
    by (rewrite length_app; cbn; lia).
  replace (before ++ x :: after)%list with ((before ++ [ x ]) ++ after)%list
    by (rewrite <- app_assoc; reflexivity).
  rewrite skipn_app, skipn_all, Nat.sub_diag. reflexivity.
Qed.

Lemma set_set (m : Y.Entries) (k : string) (v v' : YVal) :
  Y.set (Y.set m k v) k v' = Y.set m k v'.
Proof.
  induction m as [|[k0 v0] r IH]; cbn.
  - now rewrite String.eqb_refl.
  - destruct (k0 =? k)%string eqn:E; cbn.
    + now rewrite String.eqb_refl.
    + now rewrite E, IH.
Qed.

Lemma get_lookup (m : Y.Entries) (k : string) (v : YVal) :
  Y.lookup k m = Some v -> Y.get m k = v.
Proof. unfold Y.get. now intros ->. Qed.

(** X19: [delete_doc] takes out of the catalog the first entry that carries
    the document id and leaves every other entry in place; a catalog without
    such an entry is left as it is.  So registering a new document as
    [create_doc] does and removing it again gives back the catalog one
    started from. *)
Theorem catalog_add_then_remove :
  forall (wsMeta : Y.Entries) (docId : string),
    (forall before after m,
        Y.get wsMeta "pages" = VYArr (before ++ VYMap m :: after) ->
        Y.get m "id" = VStr docId ->
        pageIndexFrom before docId 0 = None ->
        removePageEntry wsMeta docId
        = Ok (Y.set wsMeta "pages" (VYArr (before ++ after))))
    /\ (forall items,
           Y.get wsMeta "pages" = VYArr items ->
           pageIndexFrom items docId 0 = None ->
           removePageEntry wsMeta docId = Ok wsMeta)
    /\ (forall items title createDate,
           Y.lookup "pages" wsMeta = Some (VYArr items) ->
           pageIndexFrom items docId 0 = None ->
           exists registered,
             addPageEntry wsMeta (pageEntry docId title createDate)
             = Ok registered
             /\ Y.get registered "pages"
                = VYArr (items ++ [ pageEntry docId title createDate ])
             /\ removePageEntry registered docId = Ok wsMeta).
Proof.
  intros wsMeta docId. split; [|split].
  - intros before after m Hp Hm Hb. unfold removePageEntry. rewrite Hp.
    cbn [truthyVal negb].
    rewrite (pageIndexFrom_first before after m docId 0 Hb Hm).
    cbn [Nat.add]. now rewrite delete_middle.
  - intros items Hp Hn. unfold removePageEntry. rewrite Hp.
    cbn [truthyVal negb]. now rewrite Hn.
  - intros items title createDate Hl Hn.
    pose proof (get_lookup _ _ _ Hl) as Hp.
    eexists. split; [|split].
    + unfold addPageEntry. rewrite Hp. cbn [truthyVal negb]. reflexivity.
    + apply get_set_same.
    + unfold removePageEntry. rewrite get_set_same. cbn [truthyVal negb].
      unfold Y.push, pageEntry.
      rewrite (pageIndexFrom_first items [] _ docId 0 Hn) by reflexivity.
      cbn [Nat.add]. rewrite delete_middle, app_nil_r, set_set.
      now rewrite (set_get_id _ _ _ Hl).
Qed.

Lemma catalog_instance :
  removePageEntry twoPages "d1"
  = Ok [ ("name", VStr "Demo"); ("pages", VYArr [ pageEntry "d2" "Two" 2 ]) ]
  /\ exists registered,
       addPageEntry twoPages (pageEntry "d3" "Three" 3) = Ok registered
       /\ removePageEntry registered "d3" = Ok twoPages.
Proof.
  destruct (catalog_add_then_remove twoPages "d1") as [Hfirst _].
  destruct (catalog_add_then_remove twoPages "d3") as [_ [_ Hadd]].
  split.
  - exact (Hfirst [] [ pageEntry "d2" "Two" 2 ] _ eq_refl eq_refl eq_refl).
  - destruct (Hadd _ "Three" 3 eq_refl eq_refl) as [reg [Ha [_ Hr]]].
    exists reg. split; assumption.
Defined.

(** ** GraphQL client and the credentials of the socket *)

Lemma hget_hset_same (h : Gql.Headers) (k v : string) :
  Gql.hget (Gql.hset h k v) k = v.
Proof.
  unfold Gql.hget. induction h as [|[k' v'] r IH]; cbn.
  - now rewrite String.eqb_refl.
  - destruct (k' =? k)%string eqn:E; cbn; [now rewrite String.eqb_refl|].
    now rewrite E.
Qed.

Lemma hget_hset_other (h : Gql.Headers) (k k' v : string) :
  k <> k' -> Gql.hget (Gql.hset h k v) k' = Gql.hget h k'.
Proof.
  intros Hne. unfold Gql.hget. induction h as [|[k0 v0] r IH]; cbn.
  - apply String.eqb_neq in Hne. now rewrite Hne.
  - destruct (String.eqb_spec k0 k) as [->|Hk]; cbn.
    + apply String.eqb_neq in Hne. now rewrite Hne.
    + destruct (k0 =? k')%string; [reflexivity | exact IH].
Qed.

Lemma hget_some (h : Gql.Headers) (k v : string) :
  Gql.hget h k = v -> v <> "" -> Gql.hlookup k h = Some v.
Proof.
  unfold Gql.hget. destruct (Gql.hlookup k h); [now intros -> | congruence].
Qed.

(** X20: a client built with a bearer token gives the token back: the
    [bearer] getter undoes the ["Bearer "] prefix the constructor puts in
    the Authorization header, the client counts as authenticated, and
    setting a cookie later does not change the token. *)
Theorem bearer_token_round_trip :
  forall (o : Gql.Opts) (token : string),
    Gql.o_bearer o = Some token -> token <> "" ->
    Gql.bearer (Gql.GraphQLClient o) = token
    /\ Gql.isAuthenticated (Gql.GraphQLClient o) = true
    /\ Gql.hget (Gql._headers (Gql.GraphQLClient o)) "Authorization"
       = ("Bearer " ++ token)%string
    /\ Gql.endpoint (Gql.GraphQLClient o) = Gql.o_endpoint o
    /\ (forall cookieHeader,
           Gql.bearer (Gql.setCookie (Gql.GraphQLClient o) cookieHeader) = token
           /\ Gql.cookie (Gql.setCookie (Gql.GraphQLClient o) cookieHeader)
              = cookieHeader).
Proof.
  intros o token Hb Hne. unfold Gql.GraphQLClient. rewrite Hb.
  apply truthy_true in Hne. cbn [given JS.orElse]. rewrite Hne.
  unfold Gql.bearer, Gql.isAuthenticated, Gql.endpoint, Gql.setCookie, Gql.cookie.
  cbn [Gql._headers Gql.authenticated Gql.opts].
  rewrite hget_hset_same, (prefix_app "Bearer " token).
  change (JS.drop 7 ("Bearer " ++ token)) with token.
  split; [reflexivity|]. split; [reflexivity|]. split; [reflexivity|].
  split; [reflexivity|].
  intros cookieHeader. rewrite hget_hset_other by discriminate.
  rewrite !hget_hset_same, (prefix_app "Bearer " token).
  split; reflexivity.
Qed.

Lemma bearer_token_instance :
  Gql.bearer (Gql.GraphQLClient tokenOpts) = "secret"
  /\ Gql.isAuthenticated (Gql.GraphQLClient tokenOpts) = true.
Proof.
  destruct (bearer_token_round_trip tokenOpts "secret" eq_refl
              ltac:(discriminate)) as [Hb [Ha _]].
  split; assumption.
Defined.

Lemma connect_headers (url : string) (c b : option string) (w : World) :
  exists rest,
    trace (snd (connectWorkspaceSocket url c b w))
    = (trace w
       ++ EvConnect url
            ((if given c then [ ("Cookie", JS.orElse c "") ] else [])
             ++ (if given b
                 then [ ("Authorization", ("Bearer " ++ JS.orElse b "")%string) ]
                 else []))
          :: rest)%list.
Proof.
  unfold connectWorkspaceSocket, bind, emit, nextReply, ret, throw.
  destruct w as [rg nw tk rs tr]. cbn.
  destruct rs as [|[| |ack|] rs]; cbn; rewrite <- ?app_assoc; eexists;
    reflexivity.
Qed.

(** X21: the socket carries the credentials of the GraphQL client and no
    others: every header [connectWorkspaceSocket] sends with what
    [getCookieAndEndpoint] reads is a header of the client with the same
    value; a non-empty Cookie header and a Bearer Authorization header are
    sent; an Authorization header of another scheme is not. *)
Theorem socket_carries_client_credentials :
  forall (gql : Gql.Client) (defaultWorkspaceId : option string)
         (clientVersion wsUrl : string) (w : World),
    let cfg := getCookieAndEndpoint gql defaultWorkspaceId clientVersion in
    exists extraHeaders rest,
      trace (snd (connectWorkspaceSocket wsUrl (cookie cfg) (bearer cfg) w))
      = (trace w ++ EvConnect wsUrl extraHeaders :: rest)%list
      /\ (forall k v, In (k, v) extraHeaders ->
                      Gql.hlookup k (Gql._headers gql) = Some v)
      /\ (Gql.cookie gql <> "" -> In ("Cookie", Gql.cookie gql) extraHeaders)
      /\ (forall token,
             token <> "" ->
             Gql.hget (Gql._headers gql) "Authorization"
             = ("Bearer " ++ token)%string ->
             In ("Authorization", ("Bearer " ++ token)%string) extraHeaders)
      /\ (prefix "Bearer " (Gql.hget (Gql._headers gql) "Authorization") = false ->
          forall v, ~ In ("Authorization", v) extraHeaders).
Proof.
  intros gql d v url w cfg.
  destruct (connect_headers url (cookie cfg) (bearer cfg) w) as [rest Ht].
  eexists. exists rest. split; [exact Ht|].
  unfold cfg, getCookieAndEndpoint. cbn [cookie bearer given JS.orElse].
  unfold Gql.cookie, Gql.bearer.
  set (ck := Gql.hget (Gql._headers gql) "Cookie").
  set (auth := Gql.hget (Gql._headers gql) "Authorization").
  assert (Hck : JS.truthy ck = true -> Gql.hlookup "Cookie" (Gql._headers gql) = Some ck).
  { intros H. apply hget_some; [reflexivity | now apply truthy_true]. }
  split; [|split; [|split]].
  - intros k val Hin. apply in_app_or in Hin. destruct Hin as [Hin|Hin].
    + destruct (JS.truthy ck) eqn:E; [|destruct Hin].
      destruct Hin as [[= <- <-]|[]]. now apply Hck.
    + destruct (prefix "Bearer " auth) eqn:Ep.
      * destruct (JS.truthy (JS.drop 7 auth)) eqn:E; [|destruct Hin].
        destruct Hin as [[= <- <-]|[]].
        change (Gql.hlookup "Authorization" (Gql._headers gql)
                = Some ("Bearer " ++ JS.drop (String.length "Bearer ") auth)%string).
        rewrite <- (prefix_drop _ _ Ep).
        apply hget_some; [reflexivity|].
        intros E0. rewrite E0 in Ep. discriminate.
      * cbn in Hin. destruct Hin.
  - intros Hne. apply truthy_true in Hne. rewrite Hne.
    apply in_or_app. left. now left.
  - intros token Hne Hauth. rewrite Hauth.
    rewrite (prefix_app "Bearer " token).
    change (JS.drop 7 ("Bearer " ++ token)) with token.
    apply truthy_true in Hne. rewrite Hne.
    apply in_or_app. right. now left.
  - intros Hp val Hin. rewrite Hp in Hin. cbn [given JS.truthy] in Hin.
    apply in_app_or in Hin. destruct Hin as [Hin|Hin].
    + destruct (JS.truthy ck); [|destruct Hin].
      destruct Hin as [H|[]]. discriminate.
    + cbn in Hin. destruct Hin.
Qed.

Lemma socket_credentials_instance :
  exists extraHeaders rest,
    trace (snd (connectWorkspaceSocket "wss://app.affine.pro"
                  (Some (Gql.cookie (Gql.GraphQLClient tokenOpts)))
                  (Some (Gql.bearer (Gql.GraphQLClient tokenOpts)))
                  documentMissing))
    = (trace documentMissing
       ++ EvConnect "wss://app.affine.pro" extraHeaders :: rest)%list
    /\ In ("Cookie", "sid=1") extraHeaders
    /\ In ("Authorization", "Bearer secret") extraHeaders.
Proof.
  destruct (socket_carries_client_credentials (Gql.GraphQLClient tokenOpts)
              None "0.26.0" "wss://app.affine.pro" documentMissing)
    as [hdrs [rest [Ht [_ [Hc [Ha _]]]]]].
  exists hdrs, rest. split; [exact Ht|]. split.
  - apply Hc. discriminate.
  - apply (Ha "secret"); [discriminate | reflexivity].
Defined.

(** X22: [request] hands back [data] exactly for a 2xx response whose
    content type names JSON or GraphQL and whose body parses and has no
    [errors] member.  A 3xx status is reported as a redirect whatever the
    body; an [errors] array is an error even when it is empty, and then the
    message is empty. *)
Theorem request_succeeds_only_on_clean_json :
  forall (res : Gql.Response),
    let contentType := JS.orElse (Gql.contentType res) "" in
    (forall d,
        Gql.request res = inl d <->
        200 <= Gql.status res <= 299
        /\ (includesStr "application/json" contentType = true
            \/ includesStr "application/graphql" contentType = true)
        /\ exists j, Gql.json res = Some j
                     /\ Gql.errors j = None /\ Gql.data j = d)
    /\ (300 <= Gql.status res < 400 ->
        exists location,
          Gql.request res = inr (Gql.ERedirect (Gql.status res) location))
    /\ (forall j,
           200 <= Gql.status res <= 299 ->
           includesStr "application/json" contentType = true ->
           Gql.json res = Some j -> Gql.errors j = Some [] ->
           Gql.request res = inr (Gql.EGraphQLErrors "")).
Proof.
  intros res contentType. unfold Gql.request, Gql.ok. fold contentType.
  split; [|split].
  - intros d.
    destruct (Z.leb_spec 300 (Gql.status res));
      destruct (Z.ltb_spec (Gql.status res) 400);
      destruct (Z.leb_spec 200 (Gql.status res));
      destruct (Z.leb_spec (Gql.status res) 299);
      cbn [andb negb]; try lia;
      try (split; [discriminate | intros [? _]; lia]).
    all: destruct (includesStr "application/json" contentType);
      destruct (includesStr "application/graphql" contentType);
      cbn [andb negb];
      try (destruct (Gql.text res);
           (split; [discriminate | intros [_ [[?|?] _]]; discriminate])).
    all: destruct (Gql.json res) as [j|];
      try (split; [discriminate | intros [_ [_ [? [? _]]]]; discriminate]).
    all: destruct (Gql.errors j) as [es|] eqn:Ee.
    all: try (split; [discriminate | intros [? _]; lia]).
    all: try (split; [discriminate
                     | intros [_ [_ [j' [[= <-] [He _]]]]]; congruence]).
    all: split;
      [ intros [= <-]; split; [lia|]; split; [auto|]; exists j; auto
      | intros [_ [_ [j' [[= <-] [_ Hd]]]]]; now rewrite Hd ].
  - intros [H1 H2].
    destruct (Z.leb_spec 300 (Gql.status res)); [|lia].
    destruct (Z.ltb_spec (Gql.status res) 400); [|lia].
    cbn [andb]. eexists. reflexivity.
  - intros j [H1 H2] Hct Hj He.
    destruct (Z.leb_spec 300 (Gql.status res)); [lia|].
    destruct (Z.leb_spec 200 (Gql.status res)); [|lia].
    destruct (Z.leb_spec (Gql.status res) 299); [|lia].
    cbn [andb negb]. rewrite Hct, Hj, He. reflexivity.
Qed.

Lemma request_instance :
  Gql.request emptyErrors = inr (Gql.EGraphQLErrors "").
Proof.
  apply (proj2 (proj2 (request_succeeds_only_on_clean_json emptyErrors))
               (Gql.mkJsonBody (Some []) (VObj []) "{}"));
    try reflexivity.
  cbn. lia.
Defined.

(** ** Workspace tools *)

Lemma createInitial_run (name : string) (w : World) :
  exists initial blocks0 r,
    createInitialWorkspaceData name w
    = (Ok initial, mkWorld r (now w) (S (S (ticks w))) (replies w) (trace w))
    /\ Workspace.firstDocId initial = nthId (w_rng w) 0
    /\ Workspace.docUpdate initial
       = mkUpdate emptyDoc
           (mkDoc blocks0
              (setAll [] [ ("id", VStr (nthId (w_rng w) 0));
                           ("title", VStr ("Welcome to " ++ name));
                           ("createDate", VNum (now w (S (ticks w))));
                           ("tags", VYArr []); ("version", VNum 1) ]))
    /\ Workspace.rootMeta initial
       = setAll [] [ ("name", VStr name); ("avatar", VStr "");
                     ("pages",
                      VYArr [ VYMap (setAll []
                                [ ("id", VStr (nthId (w_rng w) 0));
                                  ("title", VStr ("Welcome to " ++ name));
                                  ("createDate", VNum (now w (ticks w)));
                                  ("tags", VYArr []) ]) ]) ]
    /\ blocks0
       = setAll []
           [ (nthId (w_rng w) 1,
              VYMap (setAll []
                       [ ("sys:id", VStr (nthId (w_rng w) 1));
                         ("sys:flavour", VStr "affine:page");
                         ("prop:title", VText ("Welcome to " ++ name));
                         ("sys:children",
                          VYArr [ VStr (nthId (w_rng w) 2);
                                  VStr (nthId (w_rng w) 3) ]) ]));
             (nthId (w_rng w) 2,
              VYMap (setAll []
                       [ ("sys:id", VStr (nthId (w_rng w) 2));
                         ("sys:flavour", VStr "affine:surface");
                         ("sys:parent", VStr (nthId (w_rng w) 1));
                         ("sys:children", VYArr []) ]));
             (nthId (w_rng w) 3,
              VYMap (setAll []
                       [ ("sys:id", VStr (nthId (w_rng w) 3));
                         ("sys:flavour", VStr "affine:note");
                         ("sys:parent", VStr (nthId (w_rng w) 1));
                         ("prop:displayMode", VStr "DocAndEdgeless");
                         ("prop:xywh", VStr "[0,0,800,600]");
                         ("prop:index", VStr "a0");
                         ("prop:lockedBySelf", VBool false);
                         ("sys:children", VYArr [ VStr (nthId (w_rng w) 4) ]) ]));
             (nthId (w_rng w) 4,
              VYMap (setAll []
                       [ ("sys:id", VStr (nthId (w_rng w) 4));
                         ("sys:flavour", VStr "affine:paragraph");
                         ("sys:parent", VStr (nthId (w_rng w) 3));
                         ("sys:children", VYArr []);
                         ("prop:type", VStr "text");
                         ("prop:text", VText welcomeText) ])) ].
Proof.
  destruct w as [rg nw tk rs tr].
  unfold createInitialWorkspaceData, generateDocId, bind, dateNow, ret.
  repeat (rewrite generateIdW_run; cbv beta iota;
          cbn [w_rng now ticks replies trace]).
  do 3 eexists. split; [reflexivity|].
  repeat split.
Qed.

Lemma set_fresh (m : Y.Entries) (k : string) (v : YVal) :
  ~ In k (map fst m) -> Y.set m k v = (m ++ [ (k, v) ])%list.
Proof.
  induction m as [|[k' v'] r IH]; cbn; intros Hn; [reflexivity|].
  destruct (String.eqb_spec k' k); [tauto|].
  rewrite IH by tauto. reflexivity.
Qed.

Lemma setAll_fresh (m kvs : Y.Entries) :
  NoDup (map fst (m ++ kvs)) -> setAll m kvs = (m ++ kvs)%list.
Proof.
  revert m. induction kvs as [|[k v] rest IH]; intros m Hnd.
  - cbn. now rewrite app_nil_r.
  - rewrite setAll_cons. cbn [fst snd].
    assert (Hk : ~ In k (map fst m)).
    { rewrite map_app in Hnd. cbn in Hnd. apply NoDup_remove_2 in Hnd.
      rewrite in_app_iff in Hnd. tauto. }
    rewrite (set_fresh m k v Hk), IH; rewrite <- app_assoc; [reflexivity|].
    exact Hnd.
Qed.

Lemma nthId_truthy (r : Rng) (k : nat) : JS.truthy (nthId r k) = true.
Proof. apply generateId_truthy. Qed.

(** X23: the first document [createInitialWorkspaceData] builds is the one
    its catalog names, and it reads back whole: the catalog entry, the
    document's own meta and the returned [firstDocId] carry the same id; with
    distinct generated ids the document reads as page, surface, note and
    paragraph under the title "Welcome to <name>", and a content block
    appended to it later goes under the note it already has.  Nothing is sent
    and no reply is consumed. *)
Theorem initial_workspace_document :
  forall (name : string) (w : World),
    exists initial w',
      createInitialWorkspaceData name w = (Ok initial, w')
      /\ trace w' = trace w /\ replies w' = replies w
      /\ (exists entry,
             Y.get (Workspace.rootMeta initial) "pages" = VYArr [ VYMap entry ]
             /\ Y.get entry "id" = VStr (Workspace.firstDocId initial)
             /\ Y.get entry "title" = VStr ("Welcome to " ++ name))
      /\ Y.get (d_meta (upto (Workspace.docUpdate initial))) "id"
         = VStr (Workspace.firstDocId initial)
      /\ since (Workspace.docUpdate initial) = emptyDoc
      /\ (NoDup [ nthId (w_rng w) 1; nthId (w_rng w) 2; nthId (w_rng w) 3;
                  nthId (w_rng w) 4 ] ->
          let blocks0 := d_blocks (upto (Workspace.docUpdate initial)) in
          let out := readBlocks (Workspace.firstDocId initial) blocks0 in
          map ReadDoc.id (ReadDoc.rows out)
          = [ nthId (w_rng w) 1; nthId (w_rng w) 2; nthId (w_rng w) 3;
              nthId (w_rng w) 4 ]
          /\ map ReadDoc.flavour (ReadDoc.rows out)
             = [ Some "affine:page"; Some "affine:surface";
                 Some "affine:note"; Some "affine:paragraph" ]
          /\ ReadDoc.title out = Some ("Welcome to " ++ name)%string
          /\ ReadDoc.plainText out = welcomeText
          /\ forall r,
               implicitParent Paragraph (mkDocState blocks0 r)
               = (Ok (nthId (w_rng w) 3), mkDocState blocks0 r)).
Proof.
  intros name w.
  destruct (createInitial_run name w)
    as [initial [blocks0 [r [Hrun [Hid [Hdoc [Hroot Hblocks]]]]]]].
  exists initial. eexists. split; [exact Hrun|].
  rewrite Hdoc, Hroot, Hid. cbn [trace replies since upto d_meta d_blocks].
  split; [reflexivity|]. split; [reflexivity|].
  split; [eexists; repeat split|].
  split; [reflexivity|]. split; [reflexivity|].
  intros Hnd. cbv zeta.
  match type of Hblocks with
  | _ = setAll [] ?kvs => rewrite (setAll_fresh [] kvs Hnd) in Hblocks
  end.
  rewrite Hblocks. cbn [app].
  match type of Hblocks with
  | _ = ([] ++ [ (_, VYMap ?pg); (_, VYMap ?sf); (_, VYMap ?nt);
                 (_, VYMap ?pa) ])%list =>
      destruct (read_four (nthId (w_rng w) 0)
                  (nthId (w_rng w) 1) (nthId (w_rng w) 2) (nthId (w_rng w) 3)
                  (nthId (w_rng w) 4) ("Welcome to " ++ name) welcomeText
                  pg sf nt pa
                  (nthId_truthy _ _) eq_refl ltac:(discriminate) Hnd
                  ltac:(repeat split; reflexivity)
                  ltac:(repeat split; reflexivity)
                  ltac:(repeat split; reflexivity)
                  ltac:(repeat split; reflexivity))
        as [H1 [H2 [_ [_ [H5 [H6 [_ H8]]]]]]]
  end.
  split; [exact H1|]. split; [exact H2|]. split; [exact H5|].
  split; [exact H6|].
  intros r0. apply (implicitParent_existing Paragraph).
  cbn [blocks implicitContainer isCanvasType tyEqb BlockType_beq orb].
  rewrite H8. cbn [foundId]. now rewrite nthId_truthy.
Qed.

Lemma initial_workspace_instance :
  exists initial w',
    createInitialWorkspaceData "Demo" documentMissing = (Ok initial, w')
    /\ trace w' = trace documentMissing
    /\ ReadDoc.title
         (readBlocks (Workspace.firstDocId initial)
                     (d_blocks (upto (Workspace.docUpdate initial))))
       = Some "Welcome to Demo".
Proof.
  destruct (initial_workspace_document "Demo" documentMissing)
    as [initial [w' [Hrun [Ht [_ [_ [_ [_ Hread]]]]]]]].
  exists initial, w'. split; [exact Hrun|]. split; [exact Ht|].
  apply Hread.
  repeat constructor; vm_compute; intuition discriminate.
Defined.

Lemma initialSync_session (gql : Gql.Client) (clientVersion : string)
    (workspace : option Workspace.Info) (initial : Workspace.InitialData)
    (w : World) :
  let run := initialSync gql clientVersion workspace initial w in
  exists added,
    trace (snd run) = (trace w ++ added)%list
    /\ oneSession added
    /\ added <> []
    /\ (isOk (fst run) = true ->
        exists ws extraHeaders,
          workspace = Some ws
          /\ added
             = [ EvConnect (wsUrlFromGraphQLEndpoint (Gql.endpoint gql))
                           extraHeaders;
                 EvJoin (Workspace.id ws) clientVersion;
                 EvPushDocUpdate (Workspace.id ws)
                                 (Workspace.firstDocId initial)
                                 (Workspace.docUpdate initial);
                 EvDisconnect ]).
Proof.
  intros run. destruct run as [r w'] eqn:Hrun.
  cbn [fst snd]. subst run. revert Hrun.
  unfold initialSync, tryFinally, bind, ret, throw.
  run_call.
  - destruct workspace as [ws|].
    + run_call.
      * run_call;
          intros [= <- <-];
          cbn [fst snd trace disconnect];
          repeat match goal with
                 | H : trace _ = _ |- _ => rewrite H; clear H
                 end;
          rewrite <- ?app_assoc;
          eexists; (split; [reflexivity|]);
          (split; [apply bracketed_spec; reflexivity|]);
          (split; [discriminate|]); cbn [isOk]; intros; try discriminate.
        exists ws. eexists. split; reflexivity.
      * intros [= <- <-];
          cbn [fst snd trace disconnect];
          repeat match goal with
                 | H : trace _ = _ |- _ => rewrite H; clear H
                 end;
          rewrite <- ?app_assoc;
          eexists; (split; [reflexivity|]);
          (split; [apply bracketed_spec; reflexivity|]);
          (split; [discriminate|]); cbn [isOk]; intros; discriminate.
    + intros [= <- <-];
        cbn [fst snd trace disconnect];
        repeat match goal with
               | H : trace _ = _ |- _ => rewrite H; clear H
               end;
        rewrite <- ?app_assoc;
        eexists; (split; [reflexivity|]);
        (split; [apply bracketed_spec; reflexivity|]);
        (split; [discriminate|]); cbn [isOk]; intros; discriminate.
  - intros [= <- <-];
      cbn [fst snd trace disconnect];
      repeat match goal with
             | H : trace _ = _ |- _ => rewrite H; clear H
             end;
      rewrite <- ?app_assoc;
      eexists; (split; [reflexivity|]);
      (split; [apply bracketed_spec; reflexivity|]);
      (split; [discriminate|]); cbn [isOk]; intros; discriminate.
Qed.

(** X24: [create_workspace] never reports a workspace the server created as
    failed: once the HTTP reply names a workspace the result is "success" or
    "partial" whatever the socket does, "success" only after the connect,
    the join and the push of the first document were all acknowledged.  A
    rejected or erroneous HTTP reply gives "failed" with nothing sent on a
    socket, and a socket that was opened is closed again, once, on every
    path. *)
Theorem create_workspace_outcome :
  forall (gql : Gql.Client) (baseUrlEnv : option string)
         (clientVersion name : string) (avatar : option string)
         (http : Workspace.HttpResult) (w : World),
    let run :=
      createWorkspaceHandler gql baseUrlEnv clientVersion name avatar http w in
    exists added,
      trace (snd run) = (trace w ++ added)%list
      /\ oneSession added
      /\ (forall info,
             namesWorkspace http = Some info ->
             exists firstDocId status message url,
               fst run = Workspace.Created info name avatar firstDocId status
                                           message url
               /\ (status = "success" \/ status = "partial")
               /\ (status = "success" ->
                   exists extraHeaders update,
                     added
                     = [ EvConnect (wsUrlFromGraphQLEndpoint (Gql.endpoint gql))
                                   extraHeaders;
                         EvJoin (Workspace.id info) clientVersion;
                         EvPushDocUpdate (Workspace.id info) firstDocId update;
                         EvDisconnect ]))
      /\ (namesWorkspace http = None ->
          exists failure, fst run = Workspace.Failed failure)
      /\ (reachesSync http = false -> added = []).
Proof.
  intros gql baseUrlEnv clientVersion name avatar http w run. subst run.
  unfold createWorkspaceHandler.
  destruct (createInitial_run name w) as [initial [b0 [r [Hrun _]]]].
  rewrite Hrun.
  set (w1 := mkWorld r (now w) (S (S (ticks w))) (replies w) (trace w)).
  assert (Hfailed : forall f,
             exists added,
               trace (snd (Workspace.Failed f, w1)) = (trace w ++ added)%list
               /\ oneSession added
               /\ (forall info,
                      None = Some info ->
                      exists firstDocId status message url,
                        fst (Workspace.Failed f, w1)
                        = Workspace.Created info name avatar firstDocId status
                                            message url
                        /\ (status = "success" \/ status = "partial")
                        /\ (status = "success" ->
                            exists extraHeaders update,
                              added
                              = [ EvConnect (wsUrlFromGraphQLEndpoint
                                               (Gql.endpoint gql))
                                            extraHeaders;
                                  EvJoin (Workspace.id info) clientVersion;
                                  EvPushDocUpdate (Workspace.id info)
                                                  firstDocId update;
                                  EvDisconnect ]))
               /\ (None (A := Workspace.Info) = None ->
                   exists failure,
                     fst (Workspace.Failed f, w1) = Workspace.Failed failure)
               /\ (false = false -> added = [])).
  { intros f. exists []. cbn [fst snd trace w1]. rewrite app_nil_r.
    split; [reflexivity|]. split; [left; reflexivity|].
    split; [discriminate|]. split; [eauto | reflexivity]. }
  destruct http as [m|errors data]; [exact (Hfailed _)|].
  destruct errors as [[|first rest]|];
    [destruct data as [[info|]|]; exact (Hfailed _)
    |destruct data as [[info|]|]; exact (Hfailed _)|].
  destruct data as [[info|]|]; [| |exact (Hfailed _)];
    cbn [namesWorkspace reachesSync].
  - destruct (initialSync_session gql clientVersion (Some info) initial w1)
      as [added [Ht [Hone [_ Hok]]]].
    destruct (initialSync gql clientVersion (Some info) initial w1)
      as [[[]|e] w2]; cbn [fst snd isOk] in *;
      exists added; (split; [exact Ht|]); (split; [exact Hone|]);
      (split; [|split; discriminate]); intros i [= <-];
      do 4 eexists; (split; [reflexivity|]).
    + split; [left; reflexivity|]. intros _.
      destruct (Hok eq_refl) as [ws [hdrs [[= <-] ->]]]. eauto.
    + split; [right; reflexivity | discriminate].
  - destruct (initialSync_session gql clientVersion None initial w1)
      as [added [Ht [Hone _]]].
    destruct (initialSync gql clientVersion None initial w1) as [synced w2].
    cbn [fst snd] in *.
    exists added. split; [exact Ht|]. split; [exact Hone|].
    split; [discriminate|]. split; [eauto | discriminate].
Qed.

Lemma create_workspace_instance :
  exists firstDocId message url,
    fst (createWorkspaceHandler (Gql.GraphQLClient tokenOpts) None "0.26.0"
           "Demo" None (Workspace.HttpJson None (Some (Some newWorkspace)))
           pushUnanswered)
    = Workspace.Created newWorkspace "Demo" None firstDocId "partial" message
                        url.
Proof.
  destruct (create_workspace_outcome (Gql.GraphQLClient tokenOpts) None
              "0.26.0" "Demo" None
              (Workspace.HttpJson None (Some (Some newWorkspace)))
              pushUnanswered)
    as [added [_ [_ [Hcreated _]]]].
  destruct (Hcreated newWorkspace eq_refl)
    as [firstDocId [status [message [url [Hrun [Hstatus Hsuccess]]]]]].
  destruct Hstatus as [-> | ->].
  - exfalso. vm_compute in Hrun. discriminate Hrun.
  - eauto.
Defined.

(** ** The handlers against a server that answers *)

Lemma load_found (ws d : string) (doc : Doc) (ts : option Z) (rg : Rng)
    (nw : nat -> Z) (tk : nat) (rest : list Reply) (tr : list Event) :
  loadDoc ws d (mkWorld rg nw tk (Acked (foundAck doc ts) :: rest) tr)
  = (Ok (mkAckData (Some doc) ts),
     mkWorld rg nw tk rest (tr ++ [ EvLoadDoc ws d ])%list).
Proof. reflexivity. Qed.

Lemma append_on_empty (n : Norm.t) (r : Rng) :
  exists e, appendToDocument n (mkDocState [] r) = (Err e, mkDocState [] r).
Proof.
  rewrite appendToDocument_unfold. unfold resolveInsertContext, bind.
  rewrite resolveParent_unfold. cbn [blocks].
  unfold explicitParent.
  destruct (Norm.placement n) as [pl|].
  - destruct (given (afterBlockId pl)); [cbn; eauto|].
    destruct (given (beforeBlockId pl)); [cbn; eauto|].
    destruct (given (parentId pl)) eqn:Hp.
    + destruct (parentId pl) as [p|]; [|discriminate].
      rewrite placeUnder_unfold. cbn. eauto.
    + destruct (implicitParent_no_page (Norm.type n) (mkDocState [] r)
                  eq_refl eq_refl) as [e ->]. eauto.
  - destruct (implicitParent_no_page (Norm.type n) (mkDocState [] r)
                eq_refl eq_refl) as [e ->]. eauto.
Qed.

(** X25: [append_block] on a server that answers.  When the document loads
    and the append fits it, the handler reports the generated block and
    pushes one update, from the loaded document to the document with the
    block linked in; when the server reports the document missing, the
    append fails on the empty document whatever the request, and nothing is
    pushed: the tool never creates a document. *)
Theorem append_block_end_to_end :
  forall (urlParses : string -> bool) (cfg : Config) (parsed : Raw.t)
         (n : Norm.t) (ws : string) (w : World) (join : option Ack)
         (rest : list Reply),
    normalizeAppendBlockInput urlParses parsed = Ok n ->
    pickWorkspace (Norm.workspaceId n) (defaultWorkspaceId cfg) = Some ws ->
    cleanAck join ->
    (forall doc ts push ctx created s',
        cleanAck push ->
        appendToDocument n (mkDocState (d_blocks doc) (w_rng w))
        = (Ok (ctx, created), s') ->
        let run :=
          appendBlockInternal urlParses cfg parsed
            (withReplies w (Connected :: Acked join :: Acked (foundAck doc ts)
                            :: Acked push :: rest)) in
        fst run
        = Ok (Appended.mk true (Created.blockId created)
                          (Created.flavour created) (Created.blockType created)
                          (Norm.type n) (Norm.legacyType n))
        /\ replies (snd run) = rest
        /\ w_rng (snd run) = rng s'
        /\ exists extraHeaders,
             trace (snd run)
             = (trace w
                ++ [ EvConnect (wsUrlFromGraphQLEndpoint (endpoint cfg))
                               extraHeaders;
                     EvJoin ws (clientVersion cfg);
                     EvLoadDoc ws (Norm.docId n);
                     EvPushDocUpdate ws (Norm.docId n)
                       (mkUpdate doc (mkDoc (blocks s') (d_meta doc)));
                     EvDisconnect ])%list)
    /\ (forall message data,
           let run :=
             appendBlockInternal urlParses cfg parsed
               (withReplies w (Connected :: Acked join
                               :: notFoundAck message data :: rest)) in
           (exists e, fst run = Err e)
           /\ pushesOf (trace (snd run)) = pushesOf (trace w)
           /\ replies (snd run) = rest).
Proof.
  intros urlParses cfg parsed n ws w join rest Hn Hws Hjoin. split.
  - intros doc ts push ctx created s' Hpush Happ run.
    destruct run as [r w'] eqn:Hrun. cbn [fst snd]. subst run. revert Hrun.
    unfold appendBlockInternal, bind at 1, liftRes. rewrite Hn, Hws.
    unfold tryFinally, bind, withReplies, ret.
    destruct (connect_ok (wsUrlFromGraphQLEndpoint (endpoint cfg))
                (cookie cfg) (bearer cfg) (w_rng w) (now w) (ticks w)
                (Acked join :: Acked (foundAck doc ts) :: Acked push :: rest)
                (trace w)) as [hdrs ->].
    rewrite join_clean by exact Hjoin.
    rewrite load_found. cbn [missing JS.orElse].
    unfold onDocument at 1. cbn [w_rng now ticks replies trace].
    rewrite Happ. cbv beta iota. cbn [blocks rng].
    match goal with
    | |- context [pushDocUpdate ?a ?b ?u
                    (mkWorld ?rg ?nw ?tk (Acked ?ack :: ?rs) ?tr)] =>
        destruct (push_clean a b u ack rg nw tk rs tr Hpush) as [t1 [tk1 ->]]
    end.
    cbv beta iota. intros [= <- <-].
    cbn [fst snd replies w_rng trace disconnect].
    split; [reflexivity|]. split; [reflexivity|]. split; [reflexivity|].
    exists hdrs. rewrite <- !app_assoc. reflexivity.
  - intros message data run.
    destruct run as [r w'] eqn:Hrun. cbn [fst snd]. subst run. revert Hrun.
    unfold appendBlockInternal, bind at 1, liftRes. rewrite Hn, Hws.
    unfold tryFinally, bind, withReplies, ret.
    destruct (connect_ok (wsUrlFromGraphQLEndpoint (endpoint cfg))
                (cookie cfg) (bearer cfg) (w_rng w) (now w) (ticks w)
                (Acked join :: notFoundAck message data :: rest)
                (trace w)) as [hdrs ->].
    rewrite join_clean by exact Hjoin.
    rewrite load_not_found. cbn [missing noData JS.orElse emptyDoc d_blocks].
    unfold onDocument at 1. cbn [w_rng now ticks replies trace].
    destruct (append_on_empty n (w_rng w)) as [e ->].
    cbv beta iota. intros [= <- <-].
    cbn [fst snd replies trace disconnect rng].
    split; [eauto|]. split; [|reflexivity].
    unfold pushesOf. rewrite !filter_app. cbn. now rewrite !app_nil_r.
Qed.

Lemma append_block_instance :
  exists blockId,
    fst (appendBlockInternal (fun _ => true) demoConfig
           (bareRequest "doc" "paragraph") demoServer)
    = Ok (Appended.mk true blockId "affine:paragraph" (Some "text") Paragraph
                      None).
Proof.
  destruct (normalizeAppendBlockInput (fun _ => true)
              (bareRequest "doc" "paragraph")) as [n|e] eqn:Hn;
    [|vm_compute in Hn; discriminate].
  assert (En : n = plainParagraph)
    by (vm_compute in Hn; injection Hn as <-; reflexivity).
  destruct (appendToDocument n (mkDocState (d_blocks demoSnapshot)
                                           (w_rng demoServer)))
    as [[[ctx created]|e] s'] eqn:Happ;
    [|rewrite En in Happ; vm_compute in Happ; discriminate].
  destruct (append_block_end_to_end (fun _ => true) demoConfig
              (bareRequest "doc" "paragraph") n "ws-1" demoServer None []
              Hn ltac:(rewrite En; reflexivity) I)
    as [Hok _].
  destruct (Hok demoSnapshot None None ctx created s' I Happ) as [Hrun _].
  exists (Created.blockId created).
  change (withReplies demoServer
            [ Connected; Acked None; Acked (foundAck demoSnapshot None);
              Acked None ]) with demoServer in Hrun.
  rewrite Hrun. rewrite En in Happ |- *. vm_compute in Happ.
  injection Happ as Hctx Hcreated Hs. rewrite <- Hcreated. reflexivity.
Defined.

(** X26: [create_doc] on a server that answers.  The handler reports the
    first generated id as the document id; its first push is the full update
    of a document whose meta carries that id and whose blocks are the page,
    surface and note (and paragraph) of the next generated ids; its second
    push goes from the loaded workspace root document to the same document
    with one entry more at the end of the catalog, and that entry names the
    new document and its title. *)
Theorem create_doc_end_to_end :
  forall (cfg : Config) (parsed : CreateDoc.input) (ws : string) (w : World)
         (join push1 push2 : option Ack) (wsDoc : Doc) (ts : option Z)
         (items : list YVal) (rest : list Reply),
    pickWorkspace (CreateDoc.workspaceId parsed) (defaultWorkspaceId cfg)
    = Some ws ->
    cleanAck join -> cleanAck push1 -> cleanAck push2 ->
    Y.get (d_meta wsDoc) "pages" = VYArr items ->
    let run :=
      createDocHandler cfg parsed
        (withReplies w (Connected :: Acked join :: Acked push1
                        :: Acked (foundAck wsDoc ts) :: Acked push2 :: rest)) in
    let title := titleOrUntitled (CreateDoc.title parsed) in
    let docId := nthId (w_rng w) 0 in
    let paragraph :=
      if given (CreateDoc.content parsed)
      then Some (nthId (w_rng w) 4, JS.orElse (CreateDoc.content parsed) "")
      else None in
    exists extraHeaders docMeta entry,
      fst run = Ok (CreateDoc.mkOutput docId title)
      /\ replies (snd run) = rest
      /\ trace (snd run)
         = (trace w
            ++ [ EvConnect (wsUrlFromGraphQLEndpoint (endpoint cfg))
                           extraHeaders;
                 EvJoin ws (clientVersion cfg);
                 EvPushDocUpdate ws docId
                   (mkUpdate emptyDoc
                      (mkDoc (newDocBlocks (nthId (w_rng w) 1)
                                           (nthId (w_rng w) 2)
                                           (nthId (w_rng w) 3) paragraph title)
                             docMeta));
                 EvLoadDoc ws ws;
                 EvPushDocUpdate ws ws
                   (mkUpdate wsDoc
                      (mkDoc (d_blocks wsDoc)
                             (Y.set (d_meta wsDoc) "pages"
                                    (VYArr (items ++ [ VYMap entry ])))));
                 EvDisconnect ])%list
      /\ Y.get docMeta "id" = VStr docId
      /\ Y.get docMeta "title" = VStr title
      /\ Y.get entry "id" = VStr docId
      /\ Y.get entry "title" = VStr title.
Proof.
  intros cfg parsed ws w join push1 push2 wsDoc ts items rest
         Hws Hjoin Hp1 Hp2 Hpages run title docId paragraph.
  assert (Hrun : exists extraHeaders docMeta entry rg tk,
             run
             = (Ok (CreateDoc.mkOutput docId title),
                mkWorld rg (now w) tk rest
                  (trace w
                   ++ [ EvConnect (wsUrlFromGraphQLEndpoint (endpoint cfg))
                                  extraHeaders;
                        EvJoin ws (clientVersion cfg);
                        EvPushDocUpdate ws docId
                          (mkUpdate emptyDoc
                             (mkDoc (newDocBlocks (nthId (w_rng w) 1)
                                                  (nthId (w_rng w) 2)
                                                  (nthId (w_rng w) 3)
                                                  paragraph title)
                                    docMeta));
                        EvLoadDoc ws ws;
                        EvPushDocUpdate ws ws
                          (mkUpdate wsDoc
                             (mkDoc (d_blocks wsDoc)
                                    (Y.set (d_meta wsDoc) "pages"
                                           (VYArr (items ++ [ VYMap entry ])))));
                        EvDisconnect ])%list)
             /\ Y.get docMeta "id" = VStr docId
             /\ Y.get docMeta "title" = VStr title
             /\ Y.get entry "id" = VStr docId
             /\ Y.get entry "title" = VStr title).
  { subst run paragraph docId. unfold nthId. cbn [Nat.iter nat_rect].
    unfold createDocHandler. rewrite Hws.
    unfold tryFinally, bind, withReplies, liftRes, ret.
    destruct (connect_ok (wsUrlFromGraphQLEndpoint (endpoint cfg))
                (cookie cfg) (bearer cfg) (w_rng w) (now w) (ticks w)
                (Acked join :: Acked push1 :: Acked (foundAck wsDoc ts)
                 :: Acked push2 :: rest) (trace w)) as [hdrs ->].
    rewrite join_clean by exact Hjoin.
    rewrite !generateIdW_run.
    destruct (given (CreateDoc.content parsed));
      [rewrite generateIdW_run|]; cbv beta iota.
    all: unfold dateNow at 1; cbn [w_rng now ticks replies trace].
    all: match goal with
         | |- context [pushDocUpdate ?a ?b ?u
                         (mkWorld ?rg ?nw ?tk (Acked ?ack :: ?rs) ?tr)] =>
             destruct (push_clean a b u ack rg nw tk rs tr Hp1)
               as [t1 [tk1 ->]]
         end.
    all: rewrite load_found.
    all: unfold dateNow at 1;
      cbn [w_rng now ticks replies trace missing JS.orElse].
    all: unfold addPageEntry; rewrite Hpages; cbn [truthyVal negb];
      cbv beta iota.
    all: match goal with
         | |- context [pushDocUpdate ?a ?b ?u
                         (mkWorld ?rg ?nw ?tk (Acked ?ack :: ?rs) ?tr)] =>
             destruct (push_clean a b u ack rg nw tk rs tr Hp2)
               as [t2 [tk2 ->]]
         end.
    all: unfold disconnect; cbn [w_rng now ticks replies trace];
      rewrite <- !app_assoc; cbn [app].
    all: exists hdrs; do 4 eexists.
    all: split; [unfold pageEntry, Y.push; reflexivity|].
    all: repeat split. }
  destruct Hrun as [hdrs [docMeta [entry [rg [tk [-> [H1 [H2 [H3 H4]]]]]]]]].
  exists hdrs, docMeta, entry. cbn [fst snd replies trace].
  repeat split; assumption.
Qed.

Lemma create_doc_instance :
  fst (createDocHandler demoConfig (CreateDoc.mkInput None (Some "Demo") None)
                        catalogServer)
  = Ok (CreateDoc.mkOutput "ABCDEFGHIJ" "Demo").
Proof.
  destruct (create_doc_end_to_end demoConfig
              (CreateDoc.mkInput None (Some "Demo") None) "ws-1" catalogServer
              None None None rootSnapshot None [ pageEntry "d0" "Old" 1 ] []
              eq_refl I I I eq_refl)
    as [hdrs [docMeta [entry [Hrun _]]]].
  exact Hrun.
Defined.

(** X27: [delete_doc] on a server that answers.  The handler pushes the
    workspace root document with the catalog entry of the document taken
    out, then sends the delete notice, and reports success.  A document the
    catalog does not list is no error: the update pushed changes nothing,
    the notice is sent all the same. *)
Theorem delete_doc_end_to_end :
  forall (cfg : Config) (workspaceId : option string) (docId ws : string)
         (w : World) (join push : option Ack) (wsDoc : Doc) (ts : option Z)
         (rest : list Reply),
    pickWorkspace workspaceId (defaultWorkspaceId cfg) = Some ws ->
    cleanAck join -> cleanAck push ->
    let run :=
      deleteDocHandler cfg workspaceId docId
        (withReplies w (Connected :: Acked join :: Acked (foundAck wsDoc ts)
                        :: Acked push :: rest)) in
    (forall wsMeta,
        removePageEntry (d_meta wsDoc) docId = Ok wsMeta ->
        fst run = Ok true
        /\ replies (snd run) = rest
        /\ exists extraHeaders,
             trace (snd run)
             = (trace w
                ++ [ EvConnect (wsUrlFromGraphQLEndpoint (endpoint cfg))
                               extraHeaders;
                     EvJoin ws (clientVersion cfg);
                     EvLoadDoc ws ws;
                     EvPushDocUpdate ws ws
                       (mkUpdate wsDoc (mkDoc (d_blocks wsDoc) wsMeta));
                     EvDeleteDoc ws docId;
                     EvDisconnect ])%list)
    /\ (forall before after m,
           Y.get (d_meta wsDoc) "pages" = VYArr (before ++ VYMap m :: after) ->
           Y.get m "id" = VStr docId ->
           pageIndexFrom before docId 0 = None ->
           removePageEntry (d_meta wsDoc) docId
           = Ok (Y.set (d_meta wsDoc) "pages" (VYArr (before ++ after))))
    /\ (forall items,
           Y.get (d_meta wsDoc) "pages" = VYArr items ->
           pageIndexFrom items docId 0 = None ->
           removePageEntry (d_meta wsDoc) docId = Ok (d_meta wsDoc)
           /\ mkDoc (d_blocks wsDoc) (d_meta wsDoc) = wsDoc).
Proof.
  intros cfg workspaceId docId ws w join push wsDoc ts rest Hws Hjoin Hpush run.
  split; [|split].
  - intros wsMeta Hrem.
    destruct run as [r w'] eqn:Hrun. cbn [fst snd]. subst run. revert Hrun.
    unfold deleteDocHandler. rewrite Hws.
    unfold tryFinally, bind, withReplies, liftRes, ret.
    destruct (connect_ok (wsUrlFromGraphQLEndpoint (endpoint cfg))
                (cookie cfg) (bearer cfg) (w_rng w) (now w) (ticks w)
                (Acked join :: Acked (foundAck wsDoc ts) :: Acked push :: rest)
                (trace w)) as [hdrs ->].
    rewrite join_clean by exact Hjoin.
    rewrite load_found. cbn [missing JS.orElse]. rewrite Hrem.
    cbv beta iota.
    match goal with
    | |- context [pushDocUpdate ?a ?b ?u
                    (mkWorld ?rg ?nw ?tk (Acked ?ack :: ?rs) ?tr)] =>
        destruct (push_clean a b u ack rg nw tk rs tr Hpush) as [t1 [tk1 ->]]
    end.
    unfold deleteDoc, emit, disconnect.
    cbv beta iota. cbn [w_rng now ticks replies trace].
    intros [= <- <-]. cbn [replies trace].
    split; [reflexivity|]. split; [reflexivity|].
    exists hdrs. rewrite <- !app_assoc. reflexivity.
  - intros before after m Hp Hm Hb. unfold removePageEntry. rewrite Hp.
    cbn [truthyVal negb].
    rewrite (pageIndexFrom_first before after m docId 0 Hb Hm).
    cbn [Nat.add]. now rewrite delete_middle.
  - intros items Hp Hn. split; [|now destruct wsDoc].
    unfold removePageEntry. rewrite Hp. cbn [truthyVal negb]. now rewrite Hn.
Qed.

Lemma delete_doc_instance :
  fst (deleteDocHandler demoConfig None "d0" catalogServer) = Ok true
  /\ removePageEntry (d_meta rootSnapshot) "d0"
     = Ok [ ("pages", VYArr []) ].
Proof.
  destruct (delete_doc_end_to_end demoConfig None "d0" "ws-1"
              (mkWorld (mkRng (fun i => i) 0)
                       (fun i => 1700000000000 + Z.of_nat i) 0
                       [ Acked None ] [])
              None None rootSnapshot None [ Acked None ]
              eq_refl I I) as [Hrun [Hrem _]].
  split; [|exact (Hrem [] [] _ eq_refl eq_refl eq_refl)].
  exact (proj1 (Hrun _ (Hrem [] [] _ eq_refl eq_refl eq_refl))).
Defined.
